(** * Shallow embedding of the personal-RAG ingestion pipeline

    Sources embedded here (Python):
    - app/core/namespaces.py        : the [Namespace] enum
    - app/services/namespace_router.py : LLM namespace classification
    - app/services/embedder.py      : batched embeddings with retry
    - app/services/vectordb.py      : batched upsert with retry
    - app/services/ingest_queue.py  : validation, job store, [process_job]
    - app/api/ingest.py             : the intake endpoint
    - app/services/file_storage.py  : staged upload cleanup

    Python exceptions are modelled by a result type [res]; module-level
    mutable state (job store, router flag and client, staged uploads,
    vector store) lives in a [World] threaded by a small state and
    exception monad [M].  External services (LLM endpoint, embedding API,
    vector store, document parser, file system removal) are fields of an
    environment record [Env], so every theorem holds for all of their
    behaviours unless it states otherwise. *)

From Stdlib Require Import String Ascii List Bool Arith Lia ZArith.
Import ListNotations.
Local Open Scope string_scope.
Local Set Warnings "-register-all,-abstract-large-number".

(* ------------------------------------------------------------------ *)
(** ** Python strings (ASCII) *)

Definition nl : string := String (ascii_of_nat 10) EmptyString.

(** [str.isspace] on ASCII characters. *)
Definition is_space (c : ascii) : bool :=
  let n := nat_of_ascii c in
  Nat.eqb n 32 || (Nat.leb 9 n && Nat.leb n 13) || (Nat.leb 28 n && Nat.leb n 31).

(** Line boundaries of [str.splitlines] in ASCII. *)
Definition is_line_break (c : ascii) : bool :=
  let n := nat_of_ascii c in
  (Nat.leb 10 n && Nat.leb n 13) || (Nat.leb 28 n && Nat.leb n 30).

Fixpoint lstrip_by (p : ascii -> bool) (l : list ascii) : list ascii :=
  match l with
  | [] => []
  | c :: r => if p c then lstrip_by p r else l
  end.

(** [s.strip(chars)]: drop characters satisfying [p] at both ends. *)
Definition strip_by (p : ascii -> bool) (s : string) : string :=
  string_of_list_ascii
    (rev (lstrip_by p (rev (lstrip_by p (list_ascii_of_string s))))).

(** [s.strip()] *)
Definition py_strip (s : string) : string := strip_by is_space s.

Definition ascii_lower (c : ascii) : ascii :=
  let n := nat_of_ascii c in
  if Nat.leb 65 n && Nat.leb n 90 then ascii_of_nat (n + 32) else c.

(** [s.lower()] *)
Definition py_lower (s : string) : string :=
  string_of_list_ascii (map ascii_lower (list_ascii_of_string s)).

Fixpoint take_while (p : ascii -> bool) (l : list ascii) : list ascii :=
  match l with
  | [] => []
  | c :: r => if p c then c :: take_while p r else []
  end.

(** [s.splitlines()[0]] for a non-empty [s]. *)
Definition first_line (s : string) : string :=
  string_of_list_ascii
    (take_while (fun c => negb (is_line_break c)) (list_ascii_of_string s)).

(** [s.split(maxsplit=1)]: [None] when the result list is empty, else its
    first element. *)
Definition first_word (s : string) : option string :=
  match lstrip_by is_space (list_ascii_of_string s) with
  | [] => None
  | l => Some (string_of_list_ascii (take_while (fun c => negb (is_space c)) l))
  end.

(** [needle in haystack] *)
Definition str_contains (needle hay : string) : bool :=
  match String.index 0 needle hay with Some _ => true | None => false end.

Definition is_blank (s : string) : bool := String.eqb (py_strip s) "".

(** Decimal rendering used by f-strings on integers. *)
Fixpoint digits_aux (fuel n : nat) (acc : string) : string :=
  match fuel with
  | 0 => acc
  | S f =>
      let d := String (ascii_of_nat (48 + n mod 10)) acc in
      if Nat.ltb n 10 then d else digits_aux f (n / 10) d
  end.

Definition str_of_nat (n : nat) : string := digits_aux (S n) n "".

(* ------------------------------------------------------------------ *)
(** ** Exceptions and the state/exception monad *)

(** A raised Python exception: class name, [str(exc)], and for tenacity's
    [RetryError] the exception of its last attempt. *)
Inductive PyExc : Type :=
  | mkExc (kind : string) (msg : string) (last_attempt : option PyExc).

Definition exc_kind (e : PyExc) : string := let 'mkExc k _ _ := e in k.
Definition exc_msg (e : PyExc) : string := let 'mkExc _ m _ := e in m.

Definition exc (kind msg : string) : PyExc := mkExc kind msg None.

Inductive res (A : Type) : Type :=
  | Ok (a : A)
  | Raise (e : PyExc).
Arguments Ok {A} a.
Arguments Raise {A} e.

(* ------------------------------------------------------------------ *)
(** ** app/core/namespaces.py *)

Inductive Namespace : Type :=
  | PROJECTS | EXPERIENCE | PERSONAL | EDUCATION | ABOUT_RAG.

Definition ns_value (ns : Namespace) : string :=
  match ns with
  | PROJECTS => "projects"
  | EXPERIENCE => "experience"
  | PERSONAL => "personal"
  | EDUCATION => "education"
  | ABOUT_RAG => "about_rag"
  end.

(** Iteration order of [for ns in Namespace]. *)
Definition all_namespaces : list Namespace :=
  [PROJECTS; EXPERIENCE; PERSONAL; EDUCATION; ABOUT_RAG].

(** Attribute access [Namespace.<NAME>] on the enum class: members resolve,
    any other name raises [AttributeError] (message as printed by
    Python 3.12; older versions print only the name). *)
Definition Namespace_attr (name : string) : res Namespace :=
  if String.eqb name "PROJECTS" then Ok PROJECTS
  else if String.eqb name "EXPERIENCE" then Ok EXPERIENCE
  else if String.eqb name "PERSONAL" then Ok PERSONAL
  else if String.eqb name "EDUCATION" then Ok EDUCATION
  else if String.eqb name "ABOUT_RAG" then Ok ABOUT_RAG
  else Raise (exc "AttributeError" ("type object 'Namespace' has no attribute '" ++ name ++ "'")).

Definition NAMESPACE_DESCRIPTIONS (ns : Namespace) : string :=
  match ns with
  | PROJECTS =>
      "Technical projects, code repositories, portfolio work, side projects, open source contributions, hackathon projects, technical demos, and software builds."
  | EXPERIENCE =>
      "Work experience, internships, jobs, professional roles, career history, responsibilities, achievements at companies, and employment-related content."
  | PERSONAL =>
      "Personal life, hobbies, interests, values, beliefs, personal stories, travel, lifestyle, relationships, and non-professional aspects of life."
  | EDUCATION =>
      "Education background, degrees, certifications, courses, skills, learning, academic achievements, training, workshops, and knowledge acquisition."
  | ABOUT_RAG =>
      "System documentation about this RAG project, architecture notes, pipeline explanations, data flow details, and operational runbooks."
  end.

Definition join (sep : string) (l : list string) : string :=
  match l with
  | [] => ""
  | x :: r => fold_left (fun acc y => acc ++ sep ++ y) r x
  end.

Definition get_namespace_prompt : string :=
  join nl ("Available namespaces and their descriptions:"
           :: map (fun ns => "- " ++ ns_value ns ++ ": " ++ NAMESPACE_DESCRIPTIONS ns)
                  all_namespaces).

Definition is_valid_namespace (value : string) : bool :=
  existsb (fun ns => String.eqb (ns_value ns) value) all_namespaces.

(** [namespace_map.get(result)] with [namespace_map = {ns.value: ns}]. *)
Definition namespace_lookup (value : string) : option Namespace :=
  find (fun ns => String.eqb (ns_value ns) value) all_namespaces.

(* ------------------------------------------------------------------ *)
(** ** Data model *)

(** [ParsedChunk.metadata] (app/services/parser.py); absent keys are [None]. *)
Record ChunkMeta := mkChunkMeta {
  context_summary : option string;
  heading : option string;
  document_title : option string;
  page_number : option nat;
  chunk_index : option nat
}.

Record ParsedChunk := mkChunk { text : string; metadata : ChunkMeta }.

(** Stand-in for a list of floats: embeddings are only moved around, never
    computed on, by the code embedded here. *)
Definition Embedding := list nat.

(** The [metadata] dict of a job record, as written by [add_file_to_queue]:
    keys "index", "routing_mode", "namespace" and "metadata" (the user
    metadata, of which the pipeline reads "source_url"). *)
Record RecordMeta := mkRecordMeta {
  rm_index : option string;
  rm_routing_mode : option string;
  rm_namespace : option string;
  rm_user_metadata : option (list (string * string))
}.

(** [IngestJobRecord] (app/models/ingest.py).  [status] is declared as
    [Literal["queued", "processing", "completed", "failed"]], but pydantic
    does not validate assignments on this model, so the field holds any
    string that is assigned to it. *)
Record IngestJobRecord := mkRecord {
  job_id : string;
  filename : string;
  content_type : option string;
  status : string;
  record_metadata : option RecordMeta;
  file_path : option string;
  error : option string;
  chunks_processed : option nat
}.

Definition declared_statuses : list string :=
  ["queued"; "processing"; "completed"; "failed"].

Record VectorMeta := mkVectorMeta {
  vm_text : string;
  vm_contextualized_text : string;
  vm_doc_title : string;
  vm_heading : string;
  vm_source_url : string;
  vm_page_number : nat;
  vm_content_type : string;
  vm_chunk_index : nat
}.

Record Vector := mkVector { vid : string; values : Embedding; vmeta : VectorMeta }.

(** Module-level mutable state of the running process, and the parts of
    the outside world the pipeline changes. *)
Record World := mkWorld {
  JOB_STORE : list (string * IngestJobRecord);
  (** namespace_router._last_call_used_fallback *)
  last_call_used_fallback : bool;
  (** namespace_router._client is not None *)
  router_client : bool;
  (** job ids whose directory UPLOADS_DIR/<job_id> (the staged file) exists *)
  staged_uploads : list string;
  (** Pinecone contents: (index, namespace, id) |-> vector *)
  pinecone : list ((string * string * string) * Vector);
  (** every write to a job record's status field, in order: (job id, value) *)
  status_log : list (string * string);
  (** every sleep, in milliseconds *)
  sleep_log : list nat
}.

(* ------------------------------------------------------------------ *)
(** ** External services *)

(** Parsed JSON body of a 2xx chat-completion response. *)
Inductive Payload :=
  | PayloadNotDict                 (** a JSON array or scalar *)
  | PayloadNoChoices               (** "choices" missing, not a list or empty *)
  | PayloadNoMessage               (** choices[0]["message"] not a dict *)
  | PayloadContent (s : string).   (** str(choices[0]["message"]["content"]) *)

(** Outcome of [client.post(...); raise_for_status(); response.json()]. *)
Inductive HttpOutcome :=
  | HttpOk (p : Payload)
  | HttpTimeout                    (** httpx.TimeoutException *)
  | HttpStatusError (code : nat)   (** httpx.HTTPStatusError *)
  | HttpTransportError             (** other httpx.HTTPError *)
  | HttpBadJson.                   (** ValueError from response.json() *)

(** Outcome of one [client.embeddings.create] call. *)
Inductive EmbOutcome :=
  | EmbOk (vectors : list Embedding)
  | EmbRateLimited                 (** openai.RateLimitError *)
  | EmbError (e : PyExc).

(** Outcome of one [index.upsert] call on a batch. *)
Inductive StoreOutcome :=
  | StoreOk
  | StoreError (e : PyExc).

(** Outcome of [shutil.rmtree(UPLOADS_DIR / job_id)]: it either succeeds,
    or raises after having removed the staged file or not. *)
Inductive CleanupOutcome :=
  | CleanupOk
  | CleanupRaise (file_removed : bool) (e : PyExc).

Record Env := mkEnv {
  openrouter_model : string;
  openrouter_api_key : string;
  (** model, prompt |-> outcome of the chat-completion request *)
  llm_post : string -> string -> HttpOutcome;
  (** attempt number, batch of texts |-> embeddings API outcome *)
  embeddings_create : nat -> list string -> EmbOutcome;
  (** index name |-> a Pinecone host is configured (get_pinecone_host) *)
  pinecone_host_ok : string -> bool;
  (** index, namespace, attempt number, batch number |-> upsert outcome *)
  index_upsert : string -> string -> nat -> nat -> StoreOutcome;
  (** attempt number |-> jitter drawn by tenacity, in ms *)
  jitter_ms : nat -> nat;
  (** path |-> chunks produced by parse_file, or its exception *)
  parse_file : string -> res (list ParsedChunk);
  (** job id |-> behaviour of the upload-directory removal *)
  rmtree_outcome : string -> CleanupOutcome;
  md5_hex : string -> string;
  (** exception class name |-> the names of the classes of its [__mro__],
      the class itself first: what [isinstance] consults *)
  exc_mro : string -> list string
}.

(* ------------------------------------------------------------------ *)
(** ** The state and exception monad *)

Definition M (A : Type) := World -> res A * World.

Definition ret {A} (a : A) : M A := fun w => (Ok a, w).

Definition bind {A B} (c : M A) (f : A -> M B) : M B :=
  fun w => match c w with
           | (Ok a, w1) => f a w1
           | (Raise e, w1) => (Raise e, w1)
           end.

Definition raise {A} (e : PyExc) : M A := fun w => (Raise e, w).

(** [try: c except: h] *)
Definition catch {A} (c : M A) (h : PyExc -> M A) : M A :=
  fun w => match c w with
           | (Raise e, w1) => h e w1
           | r => r
           end.

Definition gets {A} (f : World -> A) : M A := fun w => (Ok (f w), w).
Definition modify (f : World -> World) : M unit := fun w => (Ok tt, f w).
Definition lift {A} (r : res A) : M A := fun w => (r, w).

Notation "x <- c ;; k" := (bind c (fun x => k))
  (at level 61, c at next level, right associativity).
Notation "c ;;; k" := (bind c (fun _ => k))
  (at level 61, right associativity).

Fixpoint mapM {A B} (f : A -> M B) (l : list A) : M (list B) :=
  match l with
  | [] => ret []
  | x :: r => y <- f x ;; ys <- mapM f r ;; ret (y :: ys)
  end.

Fixpoint mapM_ {A} (f : A -> M unit) (l : list A) : M unit :=
  match l with
  | [] => ret tt
  | x :: r => f x ;;; mapM_ f r
  end.

Definition set_fallback (b : bool) : M unit :=
  modify (fun w => {| JOB_STORE := JOB_STORE w; last_call_used_fallback := b;
                      router_client := router_client w;
                      staged_uploads := staged_uploads w; pinecone := pinecone w;
                      status_log := status_log w; sleep_log := sleep_log w |}).

Definition set_router_client : M unit :=
  modify (fun w => {| JOB_STORE := JOB_STORE w;
                      last_call_used_fallback := last_call_used_fallback w;
                      router_client := true;
                      staged_uploads := staged_uploads w; pinecone := pinecone w;
                      status_log := status_log w; sleep_log := sleep_log w |}).

Definition sleep (ms : nat) : M unit :=
  modify (fun w => {| JOB_STORE := JOB_STORE w;
                      last_call_used_fallback := last_call_used_fallback w;
                      router_client := router_client w;
                      staged_uploads := staged_uploads w; pinecone := pinecone w;
                      status_log := status_log w; sleep_log := sleep_log w ++ [ms] |}).

(* ------------------------------------------------------------------ *)
(** ** app/services/namespace_router.py *)

Section Router.
Variable env : Env.

(** [_get_client]: the settings are loaded at startup ([main._startup]
    fails fast otherwise); a blank API key raises [ValueError]. *)
Definition router_get_client : M unit :=
  c <- gets router_client ;;
  if c then ret tt
  else if is_blank (openrouter_api_key env)
  then raise (exc "ValueError" "Missing OpenRouter API key.")
  else set_router_client.

Definition _build_classification_prompt (text : string) (headings : list string)
  : string :=
  let heading_section :=
    match headings with
    | [] => ""
    | _ => nl ++ nl ++ "Document headings:" ++ nl ++ "- " ++ join (nl ++ "- ") headings
    end in
  let namespace_list := join ", " (map ns_value all_namespaces) in
  "You are a classifier for a personal portfolio RAG system. Your task is to determine which namespace best fits the given content."
  ++ nl ++ nl ++ get_namespace_prompt ++ nl ++ nl
  ++ "Analyze the following content and respond with ONLY the namespace name (one of: "
  ++ namespace_list ++ "). No explanation, just the single word." ++ nl ++ nl
  ++ "Content:" ++ heading_section ++ nl ++ nl ++ substring 0 2000 text.

(** [_normalize_model] *)
Definition _normalize_model (model : string) : string :=
  let normalized := py_strip model in
  if String.eqb normalized "" then ""
  else if str_contains ":free" normalized then normalized
  else normalized ++ ":free".

(** [_extract_message_content]: [payload.get] on a non-dict payload raises
    [AttributeError]. *)
Definition _extract_message_content (p : Payload) : M string :=
  match p with
  | PayloadNotDict => raise (exc "AttributeError" "'list' object has no attribute 'get'")
  | PayloadNoChoices => ret ""
  | PayloadNoMessage => ret ""
  | PayloadContent s => ret (py_lower (py_strip s))
  end.

(** The characters stripped from the first token: backquote, both quote
    marks, period, comma, colon, semicolon and the three kinds of brackets. *)
Definition is_ns_punct (c : ascii) : bool :=
  existsb (fun n => Nat.eqb (nat_of_ascii c) n)
    [96; 39; 34; 46; 44; 58; 59; 40; 41; 91; 93; 123; 125].

(** Every fallback branch of the router evaluates [Namespace.PROFESSIONAL_LIFE]. *)
Definition fallback_namespace : M Namespace := lift (Namespace_attr "PROFESSIONAL_LIFE").

(** A fallback branch: [_last_call_used_fallback = True; return Namespace.PROFESSIONAL_LIFE]. *)
Definition use_fallback : M Namespace := set_fallback true ;;; fallback_namespace.

Definition _call_llm_for_classification (text : string) (headings : list string)
  : M Namespace :=
  set_fallback false ;;;
  if is_blank text && (match headings with [] => true | _ => false end)
  then use_fallback
  else
  let model := _normalize_model (openrouter_model env) in
  let prompt := _build_classification_prompt text headings in
  if String.eqb model "" || is_blank prompt then use_fallback
  else
  client_ok <- catch (router_get_client ;;; ret true)
                     (fun e => if String.eqb (exc_kind e) "ValueError"
                               then ret false else raise e) ;;
  if negb client_ok then use_fallback
  else
  match llm_post env model prompt with
  | HttpTimeout | HttpStatusError _ | HttpTransportError | HttpBadJson => use_fallback
  | HttpOk payload =>
      result_raw <- _extract_message_content payload ;;
      if String.eqb result_raw "" then use_fallback
      else
      let fl := first_line result_raw in
      first_token <- (if String.eqb fl "" then ret ""
                      else match first_word fl with
                           | None => raise (exc "IndexError" "list index out of range")
                           | Some t => ret t
                           end) ;;
      let result := strip_by is_ns_punct first_token in
      match namespace_lookup result with
      | None => use_fallback
      | Some ns => ret ns
      end
  end.

(** [_get_context_text]: [metadata.get("context_summary") or chunk.text]. *)
Definition _get_context_text (c : ParsedChunk) : string :=
  match context_summary (metadata c) with
  | Some s => if String.eqb s "" then text c else s
  | None => text c
  end.

Definition chunk_heading (c : ParsedChunk) : string :=
  match heading (metadata c) with Some h => h | None => "" end.

(** The loop gathering distinct non-empty headings in document order. *)
Definition gather_headings (chunks : list ParsedChunk) : list string :=
  fold_left (fun hs c =>
               let h := chunk_heading c in
               if negb (String.eqb h "") && negb (existsb (String.eqb h) hs)
               then app hs [h] else hs) chunks [].

Definition classify_document (chunks : list ParsedChunk) : M Namespace :=
  match chunks with
  | [] => fallback_namespace
  | c0 :: _ => _call_llm_for_classification (_get_context_text c0) (gather_headings chunks)
  end.

Definition classify_chunk (c : ParsedChunk) : M Namespace :=
  let h := chunk_heading c in
  let headings := if String.eqb h "" then [] else [h] in
  _call_llm_for_classification (_get_context_text c) headings.

Definition classify_chunks_individually (chunks : list ParsedChunk) : M (list Namespace) :=
  mapM classify_chunk chunks.

Definition did_last_call_use_fallback : M bool := gets last_call_used_fallback.

End Router.

(* ------------------------------------------------------------------ *)
(** ** tenacity: [@retry(retry=..., stop=stop_after_attempt(n), wait=..., reraise=True)] *)

(** [wait_exponential_jitter(initial, max, jitter)] in milliseconds:
    [min(initial * 2 ** (attempt - 1) + uniform(0, jitter), max)]. *)
Definition wait_exponential_jitter (env : Env) (initial_ms max_ms jitter_cap_ms : nat)
  (attempt : nat) : nat :=
  Nat.min (initial_ms * 2 ^ (attempt - 1) + Nat.min (jitter_ms env attempt) jitter_cap_ms)
          max_ms.

Section Retry.
Variable retryable : PyExc -> bool.
Variable wait_ms : nat -> nat.

(** Run [body attempt]; on a retryable exception sleep and run again while
    attempts remain ([remaining] more), otherwise re-raise the exception of
    the last attempt ([reraise=True]). *)
Fixpoint retrying {A} (body : nat -> M A) (attempt remaining : nat) : M A :=
  catch (body attempt)
    (fun e =>
       if retryable e then
         match remaining with
         | 0 => raise e
         | S r => sleep (wait_ms attempt) ;;; retrying body (S attempt) r
         end
       else raise e).
End Retry.

(** [for i in range(0, len(l), n): batch = l[i : i + n]] *)
Fixpoint batches_aux {A} (fuel n : nat) (l : list A) : list (list A) :=
  match fuel with
  | 0 => []
  | S f => match l with
           | [] => []
           | _ => firstn n l :: batches_aux f n (skipn n l)
           end
  end.

Definition batches {A} (n : nat) (l : list A) : list (list A) :=
  batches_aux (length l) n l.

(* ------------------------------------------------------------------ *)
(** ** app/services/embedder.py *)

Definition EMBEDDING_BATCH_SIZE : nat := 20.
Definition INTER_BATCH_DELAY_MS : nat := 1000.

Definition is_rate_limit (e : PyExc) : bool := String.eqb (exc_kind e) "RateLimitError".

Section Embedder.
Variable env : Env.

(** One attempt of [embed_texts]. *)
Definition embed_texts_attempt (texts : list string) (attempt : nat) : M (list Embedding) :=
  match texts with
  | [] => ret []
  | _ =>
      if existsb is_blank texts
      then raise (exc "ValueError" "All texts must be non-empty strings for embedding.")
      else match embeddings_create env attempt texts with
           | EmbOk vs => ret vs
           | EmbRateLimited => raise (exc "RateLimitError" "Rate limit reached")
           | EmbError e => raise e
           end
  end.

(** [embed_texts]: retry on [RateLimitError], at most 10 attempts,
    [wait_exponential_jitter(initial=5, max=120, jitter=5)]. *)
Definition embed_texts (texts : list string) : M (list Embedding) :=
  retrying is_rate_limit (wait_exponential_jitter env 5000 120000 5000)
           (embed_texts_attempt texts) 1 9.

Fixpoint embed_batches (bs : list (list string)) (batch_num num_batches : nat)
  : M (list Embedding) :=
  match bs with
  | [] => ret []
  | b :: r =>
      batch_embeddings <- embed_texts b ;;
      (if Nat.ltb batch_num num_batches then sleep INTER_BATCH_DELAY_MS else ret tt) ;;;
      rest <- embed_batches r (S batch_num) num_batches ;;
      ret (app batch_embeddings rest)
  end.

Definition embed_texts_batched (texts : list string) : M (list Embedding) :=
  match texts with
  | [] => ret []
  | _ =>
      let num_batches := (length texts + EMBEDDING_BATCH_SIZE - 1) / EMBEDDING_BATCH_SIZE in
      embed_batches (batches EMBEDDING_BATCH_SIZE texts) 1 num_batches
  end.

End Embedder.

(* ------------------------------------------------------------------ *)
(** ** app/services/vectordb.py *)

Definition UPSERT_BATCH_SIZE : nat := 100.

(** [isinstance(e, cls)]: [cls] is among the classes of the [__mro__] of
    the class of [e]. *)
Definition isinstance (env : Env) (e : PyExc) (cls : string) : bool :=
  existsb (String.eqb cls) (exc_mro env (exc_kind e)).

(** [retry_if_exception_type((PineconeException, ConnectionError))]:
    [isinstance(e, (PineconeException, ConnectionError))], so every subclass
    of either class is retried. *)
Definition is_store_transient (env : Env) (e : PyExc) : bool :=
  isinstance env e "PineconeException" || isinstance env e "ConnectionError".

Fixpoint kv_put {K V} (eqk : K -> K -> bool) (k : K) (v : V) (l : list (K * V))
  : list (K * V) :=
  match l with
  | [] => [(k, v)]
  | (k', v') :: r => if eqk k k' then (k, v) :: r else (k', v') :: kv_put eqk k v r
  end.

Definition key_eqb (a b : string * string * string) : bool :=
  let '(a1, a2, a3) := a in
  let '(b1, b2, b3) := b in
  String.eqb a1 b1 && String.eqb a2 b2 && String.eqb a3 b3.

(** A successful [index.upsert(vectors=batch, namespace=ns)]: insert or
    overwrite each vector under its id. *)
Definition pinecone_write (index ns : string) (batch : list Vector) : M unit :=
  modify (fun w => {| JOB_STORE := JOB_STORE w;
                      last_call_used_fallback := last_call_used_fallback w;
                      router_client := router_client w;
                      staged_uploads := staged_uploads w;
                      pinecone := fold_left (fun p v => kv_put key_eqb (index, ns, vid v) v p)
                                            batch (pinecone w);
                      status_log := status_log w; sleep_log := sleep_log w |}).

Section VectorDB.
Variable env : Env.

Fixpoint upsert_batches (index ns : string) (attempt : nat) (bs : list (list Vector))
  (batch_no total : nat) : M nat :=
  match bs with
  | [] => ret total
  | b :: r =>
      match index_upsert env index ns attempt batch_no with
      | StoreOk => pinecone_write index ns b ;;;
                   upsert_batches index ns attempt r (S batch_no) (total + length b)
      | StoreError e => raise e
      end
  end.

(** One attempt of [upsert_vectors]; [get_index] raises [ValueError] when
    no Pinecone host is configured. *)
Definition upsert_vectors_attempt (index ns : string) (vectors : list Vector)
  (attempt : nat) : M nat :=
  match vectors with
  | [] => ret 0
  | _ =>
      if pinecone_host_ok env index
      then upsert_batches index ns attempt (batches UPSERT_BATCH_SIZE vectors) 1 0
      else raise (exc "ValueError" "Missing Pinecone host.")
  end.

(** [upsert_vectors]: retry on store/connection errors, at most 5 attempts,
    [wait_exponential_jitter(initial=1, max=30)]. *)
Definition upsert_vectors (index ns : string) (vectors : list Vector) : M nat :=
  retrying (is_store_transient env) (wait_exponential_jitter env 1000 30000 1000)
           (upsert_vectors_attempt index ns vectors) 1 4.

End VectorDB.

(* ------------------------------------------------------------------ *)
(** ** app/models/ingest.py, app/services/parser.py: routing modes, extensions *)

Inductive RoutingMode := AUTO | MANUAL | PER_CHUNK.

Definition routing_mode_value (m : RoutingMode) : string :=
  match m with AUTO => "auto" | MANUAL => "manual" | PER_CHUNK => "per_chunk" end.

(** [RoutingMode(value)] *)
Definition RoutingMode_of (value : string) : res RoutingMode :=
  if String.eqb value "auto" then Ok AUTO
  else if String.eqb value "manual" then Ok MANUAL
  else if String.eqb value "per_chunk" then Ok PER_CHUNK
  else Raise (exc "ValueError" ("'" ++ value ++ "' is not a valid RoutingMode")).

Definition ALLOWED_EXTENSIONS : list string :=
  [".pdf"; ".csv"; ".json"; ".docx"; ".txt"; ".md"].

Definition is_dot (c : ascii) : bool := Nat.eqb (nat_of_ascii c) 46.
Definition is_slash (c : ascii) : bool := Nat.eqb (nat_of_ascii c) 47.

(** [os.path.splitext(path)[1]]: the last dot of the base name starts the
    extension unless only dots precede it. *)
Definition splitext_ext (path : string) : string :=
  let rbase := take_while (fun c => negb (is_slash c)) (rev (list_ascii_of_string path)) in
  let rext := take_while (fun c => negb (is_dot c)) rbase in
  match skipn (length rext) rbase with
  | [] => ""
  | _ :: rstem =>
      if existsb (fun c => negb (is_dot c)) rstem
      then "." ++ string_of_list_ascii (rev rext) else ""
  end.

Definition CONTENT_TYPES (ext : string) : option string :=
  if String.eqb ext ".pdf" then Some "application/pdf"
  else if String.eqb ext ".docx"
  then Some "application/vnd.openxmlformats-officedocument.wordprocessingml.document"
  else if String.eqb ext ".txt" then Some "text/plain"
  else if String.eqb ext ".md" then Some "text/markdown"
  else if String.eqb ext ".json" then Some "application/json"
  else if String.eqb ext ".csv" then Some "text/csv"
  else None.

Definition get_content_type (path : string) : string :=
  match CONTENT_TYPES (py_lower (splitext_ext path)) with
  | Some t => t
  | None => "text/plain"
  end.

(* ------------------------------------------------------------------ *)
(** ** app/services/ingest_queue.py: request validation *)

(** [filename.rsplit(".", 1)[-1].lower() if "." in filename else ""] *)
Definition filename_ext (filename : string) : string :=
  let l := list_ascii_of_string filename in
  if existsb is_dot l
  then py_lower (string_of_list_ascii (rev (take_while (fun c => negb (is_dot c)) (rev l))))
  else "".

Definition validate_ingest_request (filename : option string) (namespace : option string)
  (index : string) (routing_mode : RoutingMode) : res unit :=
  match filename with
  | None => Raise (exc "ValueError" "Filename is required.")
  | Some f =>
  if String.eqb f "" || is_blank f then Raise (exc "ValueError" "Filename is required.")
  else
  let ext := filename_ext f in
  if negb (existsb (String.eqb ("." ++ ext)) ALLOWED_EXTENSIONS)
  then Raise (exc "ValueError" ("Unsupported file type '." ++ ext ++ "'."))
  else
  let normalized_namespace := match namespace with Some n => py_strip n | None => "" end in
  let ns_check :=
    match routing_mode with
    | MANUAL =>
        if String.eqb normalized_namespace ""
        then Raise (exc "ValueError" "Namespace is required when routing_mode is 'manual'.")
        else if negb (is_valid_namespace normalized_namespace)
        then Raise (exc "ValueError"
                      ("Invalid namespace '" ++ normalized_namespace ++ "'. Must be one of: "
                       ++ join ", " (map ns_value all_namespaces)))
        else Ok tt
    | _ =>
        if negb (String.eqb normalized_namespace "")
        then Raise (exc "ValueError" "Namespace is only allowed when routing_mode is 'manual'.")
        else Ok tt
    end in
  match ns_check with
  | Raise e => Raise e
  | Ok _ => if is_blank index then Raise (exc "ValueError" "Index is required.") else Ok tt
  end
  end.

(* ------------------------------------------------------------------ *)
(** ** The job store *)

Fixpoint lookup {V} (k : string) (l : list (string * V)) : option V :=
  match l with
  | [] => None
  | (k', v) :: r => if String.eqb k k' then Some v else lookup k r
  end.

Definition with_store (s : list (string * IngestJobRecord)) (w : World) : World :=
  {| JOB_STORE := s; last_call_used_fallback := last_call_used_fallback w;
     router_client := router_client w; staged_uploads := staged_uploads w;
     pinecone := pinecone w; status_log := status_log w; sleep_log := sleep_log w |}.

Definition log_status (jid s : string) (w : World) : World :=
  {| JOB_STORE := JOB_STORE w; last_call_used_fallback := last_call_used_fallback w;
     router_client := router_client w; staged_uploads := staged_uploads w;
     pinecone := pinecone w; status_log := app (status_log w) [(jid, s)];
     sleep_log := sleep_log w |}.

Definition get_job_record (jid : string) : M (option IngestJobRecord) :=
  gets (fun w => lookup jid (JOB_STORE w)).

(** Mutate the stored record of [jid] in place (no-op when absent). *)
Definition update_record (jid : string) (f : IngestJobRecord -> IngestJobRecord) : M unit :=
  modify (fun w => with_store (map (fun kv => if String.eqb (fst kv) jid
                                             then (fst kv, f (snd kv)) else kv)
                                   (JOB_STORE w)) w).

Definition set_status (s : string) (r : IngestJobRecord) : IngestJobRecord :=
  {| job_id := job_id r; filename := filename r; content_type := content_type r;
     status := s; record_metadata := record_metadata r; file_path := file_path r;
     error := error r; chunks_processed := chunks_processed r |}.

Definition set_error (m : string) (r : IngestJobRecord) : IngestJobRecord :=
  {| job_id := job_id r; filename := filename r; content_type := content_type r;
     status := status r; record_metadata := record_metadata r; file_path := file_path r;
     error := Some m; chunks_processed := chunks_processed r |}.

Definition set_chunks_processed (n : nat) (r : IngestJobRecord) : IngestJobRecord :=
  {| job_id := job_id r; filename := filename r; content_type := content_type r;
     status := status r; record_metadata := record_metadata r; file_path := file_path r;
     error := error r; chunks_processed := Some n |}.

(** [record.status = s] on the record of [jid]; the write is recorded in
    [status_log] when the record exists. *)
Definition write_status (jid s : string) : M unit :=
  r <- get_job_record jid ;;
  match r with
  | None => ret tt
  | Some _ => update_record jid (set_status s) ;;; modify (log_status jid s)
  end.

(** [_update_status] *)
Definition _update_status (jid s : string) : M unit := write_status jid s.

(* ------------------------------------------------------------------ *)
(** ** app/services/file_storage.py: [cleanup_job_files] *)

Definition remove_upload (jid : string) : M unit :=
  modify (fun w => {| JOB_STORE := JOB_STORE w;
                      last_call_used_fallback := last_call_used_fallback w;
                      router_client := router_client w;
                      staged_uploads := filter (fun j => negb (String.eqb j jid))
                                               (staged_uploads w);
                      pinecone := pinecone w; status_log := status_log w;
                      sleep_log := sleep_log w |}).

Definition cleanup_job_files (env : Env) (jid : string) : M unit :=
  exists_ <- gets (fun w => existsb (String.eqb jid) (staged_uploads w)) ;;
  if exists_ then
    match rmtree_outcome env jid with
    | CleanupOk => remove_upload jid
    | CleanupRaise removed e => (if removed then remove_upload jid else ret tt) ;;; raise e
    end
  else ret tt.

(* ------------------------------------------------------------------ *)
(** ** app/services/ingest_queue.py: [process_job] *)

Definition opt_default {A} (d : A) (o : option A) : A :=
  match o with Some x => x | None => d end.

Definition empty_meta : RecordMeta := mkRecordMeta None None None None.

Fixpoint zip3 {A B C} (a : list A) (b : list B) (c : list C) : list (A * B * C) :=
  match a, b, c with
  | x :: a', y :: b', z :: c' => (x, y, z) :: zip3 a' b' c'
  | _, _, _ => []
  end.

(** Append [v] to the group of [ns], creating the group at the end when new
    (dict insertion order). *)
Fixpoint group_insert (ns : string) (v : Vector) (g : list (string * list Vector))
  : list (string * list Vector) :=
  match g with
  | [] => [(ns, [v])]
  | (k, vs) :: r => if String.eqb k ns then (k, app vs [v]) :: r
                    else (k, vs) :: group_insert ns v r
  end.

Section Pipeline.
Variable env : Env.

Definition build_vector (source_url content_type : string) (c : ParsedChunk)
  (emb : Embedding) : Vector :=
  {| vid := md5_hex env (text c);
     values := emb;
     vmeta := {| vm_text := text c;
                 vm_contextualized_text := opt_default "" (context_summary (metadata c));
                 vm_doc_title := opt_default "" (document_title (metadata c));
                 vm_heading := opt_default "" (heading (metadata c));
                 vm_source_url := source_url;
                 vm_page_number := opt_default 1 (page_number (metadata c));
                 vm_content_type := content_type;
                 vm_chunk_index := opt_default 1 (chunk_index (metadata c)) |} |}.

(** Step 4 of [process_job]: build the vectors and group them by namespace. *)
Definition vectors_by_namespace (source_url content_type : string)
  (chunks : list ParsedChunk) (embeddings : list Embedding) (namespaces : list string)
  : list (string * list Vector) :=
  fold_left (fun g '(c, e, ns) => group_insert ns (build_vector source_url content_type c e) g)
            (zip3 chunks embeddings namespaces) [].

(** Step 2: the routing stage, returning [chunk_namespaces] and
    [routing_fallback_used]. *)
Definition route_chunks (routing_mode : RoutingMode) (manual_namespace : string)
  (chunks : list ParsedChunk) : M (list string * bool) :=
  match routing_mode with
  | MANUAL => ret (repeat manual_namespace (length chunks), false)
  | PER_CHUNK =>
      nss <- classify_chunks_individually env chunks ;;
      fb <- did_last_call_use_fallback ;;
      ret (map ns_value nss, fb)
  | AUTO =>
      doc_ns <- classify_document env chunks ;;
      fb <- did_last_call_use_fallback ;;
      ret (repeat (ns_value doc_ns) (length chunks), fb)
  end.

(** The body of the [try] block of [process_job]. *)
Definition process_job_body (jid : string) (record : IngestJobRecord) : M unit :=
  match file_path record with
  | None => raise (exc "ValueError" "No file path available for processing.")
  | Some fp =>
  if String.eqb fp "" then raise (exc "ValueError" "No file path available for processing.")
  else
  let record_meta := opt_default empty_meta (record_metadata record) in
  let index_name := opt_default "" (rm_index record_meta) in
  let manual_namespace := opt_default "" (rm_namespace record_meta) in
  routing_mode <- lift (RoutingMode_of (opt_default "auto" (rm_routing_mode record_meta))) ;;
  let user_meta := opt_default [] (rm_user_metadata record_meta) in
  if String.eqb index_name "" then raise (exc "ValueError" "No index name specified.")
  else
  (* 1. parse *)
  _update_status jid "chunking" ;;;
  chunks <- lift (parse_file env fp) ;;
  let ctype := get_content_type fp in
  (* 2. route *)
  _update_status jid "routing" ;;;
  routed <- route_chunks routing_mode manual_namespace chunks ;;
  let chunk_namespaces := fst routed in
  (if snd routed
   then raise (exc "ValueError"
                 "'IngestJobRecord' object has no field 'routing_fallback_used'")
   else ret tt) ;;;
  (* 3. embed the contextualized texts *)
  _update_status jid "embedding" ;;;
  let contextualized_texts :=
    map (fun c => opt_default (text c) (context_summary (metadata c))) chunks in
  embeddings <- embed_texts_batched env contextualized_texts ;;
  (if negb (Nat.eqb (length embeddings) (length chunks))
   then raise (exc "ValueError"
                 ("Embedding count mismatch: expected " ++ str_of_nat (length chunks)
                  ++ " vectors, got " ++ str_of_nat (length embeddings) ++ "."))
   else ret tt) ;;;
  (* 4. build vectors *)
  _update_status jid "upserting" ;;;
  let groups := vectors_by_namespace (opt_default "" (lookup "source_url" user_meta)) ctype
                                     chunks embeddings chunk_namespaces in
  (* 5. upsert per namespace *)
  mapM_ (fun g => _ <- upsert_vectors env index_name (fst g) (snd g) ;; ret tt) groups ;;;
  update_record jid (set_chunks_processed (length chunks)) ;;;
  _update_status jid "completed" ;;;
  cleanup_job_files env jid
  end.

(** The [except Exception] handler: unwrap a tenacity [RetryError] and
    record ["<Kind>: <message>"]. *)
Definition process_job_failure (jid : string) (e : PyExc) : M unit :=
  let actual_error := match e with
                      | mkExc _ _ (Some inner) => inner
                      | _ => e
                      end in
  let error_msg := exc_kind actual_error ++ ": " ++ exc_msg actual_error in
  write_status jid "failed" ;;;
  update_record jid (set_error error_msg).

Definition process_job (jid : string) : M unit :=
  r <- get_job_record jid ;;
  match r with
  | None => ret tt
  | Some record => catch (process_job_body jid record) (process_job_failure jid)
  end.

End Pipeline.

(* ------------------------------------------------------------------ *)
(** ** Intake: [parse_metadata_json], [add_file_to_queue], [ingest_documents] *)

(** Result of [json.loads] on the metadata string. *)
Inductive JsonValue := JObject (kv : list (string * string)) | JOther.

Definition parse_metadata_json (loads : string -> res JsonValue) (metadata_json : option string)
  : res (option (list (string * string))) :=
  match metadata_json with
  | None => Ok None
  | Some m =>
      if String.eqb m "" || is_blank m then Ok None
      else match loads m with
           | Raise _ => Raise (exc "ValueError" "metadata_json must be valid JSON.")
           | Ok (JObject kv) => Ok (Some kv)
           | Ok JOther => Raise (exc "ValueError" "metadata_json must be a JSON object.")
           end
  end.

Definition add_file_to_queue (jid fname : string) (ctype : option string) (fpath : string)
  (namespace : option string) (index : string) (routing_mode : RoutingMode)
  (meta : option (list (string * string))) : M string :=
  let record_meta :=
    {| rm_index := Some index; rm_routing_mode := Some (routing_mode_value routing_mode);
       rm_namespace := match namespace with
                       | Some n => if String.eqb n "" then None else Some n
                       | None => None end;
       rm_user_metadata := match meta with
                           | Some [] => None
                           | m => m end |} in
  let record := {| job_id := jid; filename := fname; content_type := ctype;
                   status := "queued"; record_metadata := Some record_meta;
                   file_path := Some fpath; error := None; chunks_processed := None |} in
  modify (fun w => with_store (kv_put String.eqb jid record (JOB_STORE w)) w) ;;;
  ret jid.

(** [save_uploaded_file]: the file lands in UPLOADS_DIR/<job_id>/<filename>. *)
Definition save_uploaded_file (jid fname : string) : M string :=
  modify (fun w => {| JOB_STORE := JOB_STORE w;
                      last_call_used_fallback := last_call_used_fallback w;
                      router_client := router_client w;
                      staged_uploads := jid :: staged_uploads w;
                      pinecone := pinecone w; status_log := status_log w;
                      sleep_log := sleep_log w |}) ;;;
  ret ("/tmp/rag-uploads/" ++ jid ++ "/" ++ (if String.eqb fname "" then "upload" else fname)).

Fixpoint validate_all (files : list (option string * option string)) (namespace : option string)
  (index : string) (routing_mode : RoutingMode) : res unit :=
  match files with
  | [] => Ok tt
  | (fname, _) :: r =>
      match validate_ingest_request (Some (opt_default "" fname)) namespace index routing_mode with
      | Raise e => Raise e
      | Ok _ => validate_all r namespace index routing_mode
      end
  end.

(** The validation [try] block of [ingest_documents]: any [ValueError]
    becomes an HTTP 400 whose detail is the message. *)
Definition ingest_validation (pinecone_index : res string) (loads : string -> res JsonValue)
  (files : list (option string * option string)) (index namespace : option string)
  (routing_mode : RoutingMode) (metadata_json : option string)
  : res (option string * string * option (list (string * string))) :=
  let to_http := fun (e : PyExc) =>
    if String.eqb (exc_kind e) "ValueError" then Raise (exc "HTTPException" (exc_msg e))
    else Raise e in
  match files with
  | [] => to_http (exc "ValueError" "At least one file is required.")
  | _ =>
  let ns := match namespace with
            | Some n => let s := py_strip n in if String.eqb s "" then None else Some s
            | None => None end in
  let idx := match index with
             | Some i => if String.eqb i "" || is_blank i then pinecone_index else Ok i
             | None => pinecone_index end in
  match idx with
  | Raise e => to_http e
  | Ok i0 =>
  let i := py_strip i0 in
  match validate_all files ns i routing_mode with
  | Raise e => to_http e
  | Ok _ =>
  match parse_metadata_json loads metadata_json with
  | Raise e => to_http e
  | Ok meta => Ok (ns, i, meta)
  end end end
  end.

Fixpoint create_jobs (uuids : list string) (files : list (option string * option string))
  (ns : option string) (i : string) (routing_mode : RoutingMode)
  (meta : option (list (string * string))) : M (list string) :=
  match files, uuids with
  | (fname, ctype) :: r, jid :: us =>
      let f := opt_default "" fname in
      fp <- save_uploaded_file jid f ;;
      _ <- add_file_to_queue jid f ctype fp ns i routing_mode meta ;;
      rest <- create_jobs us r ns i routing_mode meta ;;
      ret (jid :: rest)
  | _, _ => ret []
  end.

(** The error pydantic raises for [IngestAccepted(jobs=..., received_count=...)]:
    the model declares a required [job_id] field, which the call omits. *)
Definition ingest_accepted_missing_job_id : PyExc :=
  exc "ValidationError" "1 validation error for IngestAccepted: job_id: Field required".

(** [ingest_documents]: validate every upload, then stage each file and
    create its job record; [uuids] are the successive [uuid.uuid4()] draws.
    The body is modelled as written.  Two points of the source decide its
    outcome: the module imports [IngestJobSummary], which
    app/models/ingest.py does not define, so the import of the module
    fails (the body runs only if that name resolves, taken here as a model
    with the fields [job_id] and [filename]); and the final
    [IngestAccepted(jobs=jobs, received_count=len(jobs))] omits the
    required [job_id], so it raises pydantic's [ValidationError] after every
    file has been staged and queued. *)
Definition ingest_documents (pinecone_index : res string) (loads : string -> res JsonValue)
  (uuids : list string) (files : list (option string * option string))
  (index namespace : option string) (routing_mode : RoutingMode)
  (metadata_json : option string) : M unit :=
  match ingest_validation pinecone_index loads files index namespace routing_mode metadata_json with
  | Raise e => raise e
  | Ok (ns, i, meta) =>
      _ <- create_jobs uuids files ns i routing_mode meta ;;
      raise ingest_accepted_missing_job_id
  end.

(* ------------------------------------------------------------------ *)
(** ** [process_job_with_limit]: the asyncio.Semaphore(1) gate

    Each scheduled job is a coroutine that waits for the semaphore,
    acquires it, runs [process_job] in the executor while holding it
    ([async with] around the awaited call), and releases it when the body
    has returned.  The steps below interleave any number of such
    coroutines in any order. *)

Module Gate.

Inductive Phase := Waiting | Running | Done.

Record St := mkSt { sem : nat; jobs : list Phase }.

Definition init : St := mkSt 1 [].

Fixpoint set_nth (l : list Phase) (i : nat) (p : Phase) : list Phase :=
  match l, i with
  | [], _ => []
  | _ :: r, 0 => p :: r
  | x :: r, S k => x :: set_nth r k p
  end.

Inductive step : St -> St -> Prop :=
  (** [background_tasks.add_task(process_job_with_limit, job_id)] *)
  | step_schedule s : step s (mkSt (sem s) (app (jobs s) [Waiting]))
  (** [async with _PROCESSING_SEMAPHORE]: acquire when the counter is positive *)
  | step_acquire s i : 0 < sem s -> nth_error (jobs s) i = Some Waiting ->
      step s (mkSt (sem s - 1) (set_nth (jobs s) i Running))
  (** the executor returns; leaving the [async with] block releases *)
  | step_release s i : nth_error (jobs s) i = Some Running ->
      step s (mkSt (S (sem s)) (set_nth (jobs s) i Done)).

Inductive reachable : St -> Prop :=
  | reach_init : reachable init
  | reach_step s s' : reachable s -> step s s' -> reachable s'.

Definition is_running (p : Phase) : bool := match p with Running => true | _ => false end.

Definition running_count (s : St) : nat := length (filter is_running (jobs s)).

End Gate.

(* ------------------------------------------------------------------ *)
(** ** app/services/parser.py: [_chunk_text] *)

(** The loop of [_chunk_text]: the window [text[start:start + max_chars]],
    stripped, for [start] = 0, step, 2 * step, ... while [start < len(text)].
    [fuel] bounds the rounds; with a positive step there are at most
    [len(text)] of them. *)
Fixpoint chunk_windows (fuel : nat) (text : string) (max_chars step start : nat)
  : list string :=
  match fuel with
  | 0 => []
  | S f =>
      if Nat.ltb start (String.length text)
      then py_strip (substring start max_chars text)
           :: chunk_windows f text max_chars step (start + step)
      else []
  end.

Definition _chunk_text (text : string) (max_chars overlap : Z) : res (list string) :=
  if (max_chars <=? 0)%Z then Raise (exc "ValueError" "max_chars must be positive.")
  else if (overlap <? 0)%Z then Raise (exc "ValueError" "overlap must be non-negative.")
  else if (max_chars <=? overlap)%Z
  then Raise (exc "ValueError" "overlap must be smaller than max_chars.")
  else Ok (chunk_windows (String.length text) text (Z.to_nat max_chars)
                         (Z.to_nat (max_chars - overlap)) 0).

(* ------------------------------------------------------------------ *)
(** ** app/services/parser.py: [parse_file]

    The file system is a map path |-> content.  Docling (converter and
    HybridChunker) and the JSON and CSV readers are external: their
    results are fields of [ParserEnv].  The "source_path" metadata entry,
    which no caller reads, is left out of [ChunkMeta]. *)

Module Parser.

(** A chunk of [HybridChunker.chunk(doc)], as read by [_parse_with_docling]. *)
Record DoclingChunk := mkDoclingChunk {
  dc_text : string;                (** chunk.text *)
  dc_headings : list string;       (** chunk.meta.headings ([] for None) *)
  dc_page_no : option nat;         (** doc_items[0].prov[0].page_no, when both exist *)
  dc_contextualized : string       (** chunker.contextualize(chunk) *)
}.

Record DoclingDoc := mkDoclingDoc {
  dd_chunks : list DoclingChunk;   (** chunker.chunk(doc) *)
  dd_markdown : string             (** doc.export_to_markdown() *)
}.

(** Regular files (path |-> content) and the position in tempfile's
    sequence of candidate names. *)
Record FsState := mkFs { fs_files : list (string * string); tmp_next : nat }.

Record ParserEnv := mkParserEnv {
  (** the docling imports succeed *)
  docling_available : bool;
  (** DocumentConverter().convert(path).document, from the path and its content *)
  docling_convert : string -> option string -> res DoclingDoc;
  (** decoding of a file content as UTF-8 *)
  decode_utf8 : string -> res string;
  (** json.dumps(json.load(f), ensure_ascii=False, indent=2) on a file content *)
  json_normalize : string -> res string;
  (** pd.read_csv(path).to_csv(index=False) on a file content *)
  csv_normalize : string -> res string;
  (** tempfile's k-th candidate name, a path in the temporary directory ending in ".md" *)
  tmp_candidate : nat -> string;
  (** text.encode("utf-8"): [None] when it succeeds, else the message of its
      [UnicodeEncodeError]; it fails on a lone surrogate, which
      json.dumps(..., ensure_ascii=False) produces from an escape such as
      "\ud800" in a .json file *)
  utf8_encode_error : string -> option string
}.

(** [os.path.isfile] *)
Definition isfile (path : string) (fs : FsState) : bool :=
  match lookup path (fs_files fs) with Some _ => true | None => false end.

(** [os.path.basename] *)
Definition basename (path : string) : string :=
  string_of_list_ascii
    (rev (take_while (fun c => negb (is_slash c)) (rev (list_ascii_of_string path)))).

(** [tempfile.TMP_MAX] on Linux. *)
Definition TMP_MAX : nat := 238328.

Section ParserFns.
Variable penv : ParserEnv.

Definition docling_metadata (doc_title : string) (i : nat) (ch : DoclingChunk) : ChunkMeta :=
  {| context_summary := Some (dc_contextualized ch);
     heading := Some (match dc_headings ch with h :: _ => h | [] => "" end);
     document_title := Some doc_title;
     (* page_no or 1 *)
     page_number := Some (match dc_page_no ch with Some (S k) => S k | _ => 1 end);
     chunk_index := Some (S i) |}.

(** [_parse_with_docling(path, source_path=...)]; it reads the file system
    and changes nothing.  The settings (tokenizer) are loaded at startup. *)
Definition _parse_with_docling (path source_path : string) (fs : FsState)
  : res (list ParsedChunk) :=
  if negb (docling_available penv)
  then Raise (exc "ValueError" "Docling required. Install with: pip install docling")
  else
  match docling_convert penv path (lookup path (fs_files fs)) with
  | Raise e => Raise e
  | Ok doc =>
      let doc_title := basename source_path in
      let parsed_chunks :=
        map (fun ich => mkChunk (dc_text (snd ich)) (docling_metadata doc_title (fst ich) (snd ich)))
            (combine (seq 0 (length (dd_chunks doc))) (dd_chunks doc)) in
      match parsed_chunks with
      | [] =>
          let markdown := dd_markdown doc in
          if is_blank markdown
          then Raise (exc "ValueError" ("No content extracted from " ++ path ++ "."))
          else Ok [mkChunk markdown
                     {| context_summary := Some (doc_title ++ " [full document]");
                        heading := Some ""; document_title := Some doc_title;
                        page_number := Some 1; chunk_index := Some 1 |}]
      | _ => Ok parsed_chunks
      end
  end.

(** [open(path, encoding="utf-8")] on a missing file. *)
Definition file_not_found (path : string) : PyExc :=
  exc "FileNotFoundError" ("[Errno 2] No such file or directory: '" ++ path ++ "'").

Definition _read_text_payload (path ext : string) (fs : FsState) : res string :=
  let content := match lookup path (fs_files fs) with
                 | Some c => Ok c
                 | None => Raise (file_not_found path)
                 end in
  if String.eqb ext ".txt" then
    match content with Ok c => decode_utf8 penv c | Raise e => Raise e end
  else if String.eqb ext ".json" then
    match content with Ok c => json_normalize penv c | Raise e => Raise e end
  else if String.eqb ext ".csv" then
    match content with Ok c => csv_normalize penv c | Raise e => Raise e end
  else Raise (exc "ValueError" ("Unsupported text file type '" ++ ext ++ "'.")).

(** tempfile's loop over candidate names: the first name not taken among
    [tries] successive candidates from the [k]-th. *)
Fixpoint pick_tmp_name (tries k : nat) (files : list (string * string)) : option nat :=
  match tries with
  | 0 => None
  | S t =>
      match lookup (tmp_candidate penv k) files with
      | None => Some k
      | Some _ => pick_tmp_name t (S k) files
      end
  end.

(** [_write_temp_text]: [NamedTemporaryFile(delete=False, suffix=".md")]
    creates a fresh empty file; [open(handle.name, "w", encoding="utf-8")]
    and [f.write(text)] then fill it.  The text is encoded as a whole, so
    when encoding fails nothing is written: the empty file stays and
    [UnicodeEncodeError] propagates. *)
Definition _write_temp_text (text : string) (fs : FsState) : res string * FsState :=
  match pick_tmp_name TMP_MAX (tmp_next fs) (fs_files fs) with
  | None => (Raise (exc "FileExistsError" "[Errno 17] No usable temporary file name found"),
             mkFs (fs_files fs) (tmp_next fs + TMP_MAX))
  | Some k =>
      let name := tmp_candidate penv k in
      match utf8_encode_error penv text with
      | None => (Ok name, mkFs (app (fs_files fs) [(name, text)]) (S k))
      | Some msg => (Raise (exc "UnicodeEncodeError" msg),
                     mkFs (app (fs_files fs) [(name, "")]) (S k))
      end
  end.

(** [_safe_remove]: [os.remove], any [OSError] ignored. *)
Definition _safe_remove (path : string) (fs : FsState) : FsState :=
  mkFs (filter (fun kv => negb (String.eqb (fst kv) path)) (fs_files fs)) (tmp_next fs).

Definition _parse_text_with_docling (path ext : string) (fs : FsState)
  : res (list ParsedChunk) * FsState :=
  match _read_text_payload path ext fs with
  | Raise e => (Raise e, fs)
  | Ok text =>
      if is_blank text then (Raise (exc "ValueError" ("File is empty: " ++ path)), fs)
      else
      match _write_temp_text text fs with
      | (Raise e, fs1) => (Raise e, fs1)
      | (Ok temp_path, fs1) =>
          (* try: return _parse_with_docling(...) finally: _safe_remove(temp_path) *)
          (_parse_with_docling temp_path path fs1, _safe_remove temp_path fs1)
      end
  end.

(** [parse_file]; the branches for ".txt/.json/.csv" and for the other
    allowed extensions make the same call. *)
Definition parse_file (path : string) (fs : FsState) : res (list ParsedChunk) * FsState :=
  if negb (isfile path fs)
  then (Raise (exc "ValueError" ("File does not exist: " ++ path)), fs)
  else
  let ext := py_lower (splitext_ext path) in
  if negb (existsb (String.eqb ext) ALLOWED_EXTENSIONS)
  then (Raise (exc "ValueError" ("Unsupported file type '" ++ ext ++ "'.")), fs)
  else if String.eqb ext ".pdf" || String.eqb ext ".docx"
  then (_parse_with_docling path path fs, fs)
  else _parse_text_with_docling path ext fs.

End ParserFns.

End Parser.

(* ------------------------------------------------------------------ *)
(** ** app/core/config.py *)

Module Config.

(** [os.environ]: name |-> value. *)
Definition Environ := list (string * string).

(** [os.getenv(name, default)] *)
Definition getenv (name default : string) (env : Environ) : string :=
  opt_default default (lookup name env).

Definition has_nul (s : string) : bool :=
  existsb (fun c => Nat.eqb (nat_of_ascii c) 0) (list_ascii_of_string s).

(** [os.environ[key] = value] (CPython 3.11, POSIX): a NUL byte in either
    argument and a "=" in the name raise [ValueError]; the C [setenv]
    refuses an empty name ([OSError], EINVAL). *)
Definition setenv (key value : string) (env : Environ) : res Environ :=
  if has_nul key || has_nul value then Raise (exc "ValueError" "embedded null byte")
  else if str_contains "=" key
  then Raise (exc "ValueError" "illegal environment variable name")
  else if String.eqb key "" then Raise (exc "OSError" "[Errno 22] Invalid argument")
  else Ok (kv_put String.eqb key value env).

(** [str.splitlines()] in ASCII: "\r\n" is one boundary, and a trailing
    boundary opens no empty last line. *)
Fixpoint splitlines_aux (l : list ascii) (cur : list ascii) : list string :=
  match l with
  | [] => match cur with [] => [] | _ => [string_of_list_ascii (rev cur)] end
  | c :: r =>
      if is_line_break c then
        string_of_list_ascii (rev cur) ::
        match r with
        | d :: r' => if Nat.eqb (nat_of_ascii c) 13 && Nat.eqb (nat_of_ascii d) 10
                     then splitlines_aux r' [] else splitlines_aux r []
        | [] => []
        end
      else splitlines_aux r (c :: cur)
  end.

Definition splitlines (s : string) : list string := splitlines_aux (list_ascii_of_string s) [].

Definition is_eq (c : ascii) : bool := Nat.eqb (nat_of_ascii c) 61.
Definition is_squote (c : ascii) : bool := Nat.eqb (nat_of_ascii c) 39.
Definition is_dquote (c : ascii) : bool := Nat.eqb (nat_of_ascii c) 34.

(** [line.split("=", 1)] on a line containing "=". *)
Definition split_eq (line : string) : string * string :=
  let l := list_ascii_of_string line in
  let k := take_while (fun c => negb (is_eq c)) l in
  (string_of_list_ascii k, string_of_list_ascii (skipn (S (length k)) l)).

(** One line of the loop of [load_env_file]: the (key, value) it would set. *)
Definition parse_env_line (raw_line : string) : option (string * string) :=
  let line := py_strip raw_line in
  if String.eqb line "" || String.prefix "#" line then None
  else if negb (str_contains "=" line) then None
  else let (key, value) := split_eq line in
       Some (py_strip key, strip_by is_dquote (strip_by is_squote (py_strip value))).

Fixpoint load_lines (override : bool) (lines : list string) (env : Environ) : res unit * Environ :=
  match lines with
  | [] => (Ok tt, env)
  | raw_line :: rest =>
      match parse_env_line raw_line with
      | None => load_lines override rest env
      | Some (key, value) =>
          if negb override && (match lookup key env with Some _ => true | None => false end)
          then load_lines override rest env
          else match setenv key value env with
               | Raise e => (Raise e, env)
               | Ok env' => load_lines override rest env'
               end
      end
  end.

(** [load_env_file(path, override=...)]; [files path] is [None] when the
    path does not exist, else the result of [read_text]. *)
Definition load_env_file (files : string -> option (res string)) (path : string)
  (override : bool) (env : Environ) : res unit * Environ :=
  match files path with
  | None => (Ok tt, env)
  | Some (Raise e) => (Raise e, env)
  | Some (Ok content) => load_lines override (splitlines content) env
  end.

(** The (key, value) pairs an env file defines, in file order. *)
Definition env_defs (content : string) : list (string * string) :=
  flat_map (fun l => match parse_env_line l with Some d => [d] | None => [] end)
           (splitlines content).

Record Settings := mkSettings {
  openai_api_key : string;
  openrouter_api_key : string;
  pinecone_api_key : string;
  pinecone_index : string;
  openrouter_base_url : string;
  openrouter_model : string;
  pinecone_host : option string;
  docling_tokenizer : string
}.

(** The module global [_SETTINGS] and the process environment. *)
Record CfgState := mkCfg { _SETTINGS : option Settings; environ : Environ }.

Definition reset_settings (st : CfgState) : CfgState := mkCfg None (environ st).

Definition _required_env (name : string) (env : Environ) : res string :=
  let value := py_strip (getenv name "" env) in
  if String.eqb value ""
  then Raise (exc "ValueError" ("Missing required environment variable: " ++ name))
  else Ok value.

(** [x.strip() or default] *)
Definition stripped_or (default s : string) : string :=
  let v := py_strip s in if String.eqb v "" then default else v.

Definition DEFAULT_BASE_URL : string := "https://openrouter.ai/api/v1".
Definition DEFAULT_MODEL : string := "meta-llama/llama-3.2-3b-instruct:free".

Definition get_settings (files : string -> option (res string)) (st : CfgState)
  : res Settings * CfgState :=
  match _SETTINGS st with
  | Some s => (Ok s, st)
  | None =>
  let env_file := getenv "MY_ENV_FILE" "my.env" (environ st) in
  match load_env_file files env_file false (environ st) with
  | (Raise e, env1) => (Raise e, mkCfg None env1)
  | (Ok _, env1) =>
  (* keyword arguments are evaluated in order *)
  match _required_env "OPENAI_API_KEY" env1 with
  | Raise e => (Raise e, mkCfg None env1)
  | Ok k1 =>
  match _required_env "OPENROUTER_API_KEY" env1 with
  | Raise e => (Raise e, mkCfg None env1)
  | Ok k2 =>
  let base_url := stripped_or DEFAULT_BASE_URL (getenv "OPENROUTER_BASE_URL" DEFAULT_BASE_URL env1) in
  let model := stripped_or DEFAULT_MODEL (getenv "OPENROUTER_MODEL" DEFAULT_MODEL env1) in
  match _required_env "PINECONE_API_KEY" env1 with
  | Raise e => (Raise e, mkCfg None env1)
  | Ok k3 =>
  match _required_env "PINECONE_INDEX" env1 with
  | Raise e => (Raise e, mkCfg None env1)
  | Ok k4 =>
  let host := let h := py_strip (getenv "PINECONE_HOST" "" env1) in
              if String.eqb h "" then None else Some h in
  let tokenizer := stripped_or "gpt2" (getenv "DOCLING_TOKENIZER" "gpt2" env1) in
  let s := mkSettings k1 k2 k3 k4 base_url model host tokenizer in
  (Ok s, mkCfg (Some s) env1)
  end end end end
  end
  end.

Definition ascii_upper (c : ascii) : ascii :=
  let n := nat_of_ascii c in
  if Nat.leb 97 n && Nat.leb n 122 then ascii_of_nat (n - 32) else c.

(** [s.upper()] *)
Definition py_upper (s : string) : string :=
  string_of_list_ascii (map ascii_upper (list_ascii_of_string s)).

Definition get_pinecone_host (files : string -> option (res string)) (index_name : string)
  (st : CfgState) : res string * CfgState :=
  match get_settings files st with
  | (Raise e, st1) => (Raise e, st1)
  | (Ok settings, st1) =>
      let env_key := "PINECONE_HOST_" ++ py_upper index_name in
      let per_index := py_strip (getenv env_key "" (environ st1)) in
      let host := if String.eqb per_index "" then pinecone_host settings else Some per_index in
      let missing := exc "ValueError" ("Missing Pinecone host. Set PINECONE_HOST or "
                                       ++ env_key ++ " for index '" ++ index_name ++ "'.") in
      match host with
      | Some h => if String.eqb h "" then (Raise missing, st1) else (Ok h, st1)
      | None => (Raise missing, st1)
      end
  end.

End Config.

(* ------------------------------------------------------------------ *)
(** ** Job ids: [validate_job_id] and [get_ingest_status] *)

(** [str.replace(old, "")]: remove the non-overlapping occurrences of a
    non-empty [old], left to right. *)
Fixpoint remove_all_aux (fuel : nat) (old s : string) : string :=
  match fuel with
  | 0 => s
  | S f =>
      match s with
      | EmptyString => EmptyString
      | String c r =>
          if String.prefix old s
          then remove_all_aux f old (substring (String.length old) (String.length s) s)
          else String c (remove_all_aux f old r)
      end
  end.

Definition remove_all (old s : string) : string := remove_all_aux (String.length s) old s.

Definition is_brace (c : ascii) : bool :=
  Nat.eqb (nat_of_ascii c) 123 || Nat.eqb (nat_of_ascii c) 125.

Definition is_hex_digit (c : ascii) : bool :=
  let n := nat_of_ascii c in
  (Nat.leb 48 n && Nat.leb n 57) || (Nat.leb 97 n && Nat.leb n 102) || (Nat.leb 65 n && Nat.leb n 70).

(** White space skipped around an integer literal by [int()]. *)
Definition is_c_space (c : ascii) : bool :=
  let n := nat_of_ascii c in Nat.eqb n 32 || (Nat.leb 9 n && Nat.leb n 13).

(** Digits with single underscores: [("_"? digit)*]. *)
Fixpoint underscored_digits (l : list ascii) : bool :=
  match l with
  | [] => true
  | c :: r =>
      if Nat.eqb (nat_of_ascii c) 95
      then match r with
           | d :: r' => is_hex_digit d && underscored_digits r'
           | [] => false
           end
      else is_hex_digit c && underscored_digits r
  end.

(** [int(s, 16)] succeeds (ASCII input). *)
Definition int16_parses (s : string) : bool :=
  let l := list_ascii_of_string (strip_by is_c_space s) in
  let unsigned := match l with
                  | c :: r => if Nat.eqb (nat_of_ascii c) 43 || Nat.eqb (nat_of_ascii c) 45
                              then r else l
                  | [] => l
                  end in
  match unsigned with
  | z :: x :: rest =>
      if Nat.eqb (nat_of_ascii z) 48 && (Nat.eqb (nat_of_ascii x) 120 || Nat.eqb (nat_of_ascii x) 88)
      then match rest with [] => false | _ => underscored_digits rest end
      else is_hex_digit z && underscored_digits (x :: rest)
  | [z] => is_hex_digit z
  | [] => false
  end.

(** [uuid.UUID(hex)] succeeds: after removing "urn:", "uuid:", the
    surrounding braces and every "-", 32 characters forming an integer
    literal in base 16 (with at most 32 digits it is below 2^128). *)
Definition uuid_parses (s : string) : bool :=
  let h := remove_all "-" (strip_by is_brace (remove_all "uuid:" (remove_all "urn:" s))) in
  Nat.eqb (String.length h) 32 && int16_parses h.

Definition validate_job_id (jid : string) : res unit :=
  if uuid_parses jid then Ok tt else Raise (exc "ValueError" "Invalid job id.").


(* ------------------------------------------------------------------ *)
(** ** Concrete scenarios used by the examples and counterexamples *)

Module Scenario.

Definition chunk_of (t h : string) : ParsedChunk :=
  mkChunk t (mkChunkMeta None (Some h) (Some "Doc") (Some 1) (Some 1)).

Definition three_chunks : list ParsedChunk :=
  [chunk_of "chunk-one" "H1"; chunk_of "chunk-two" "H2"; chunk_of "chunk-three" "H3"].

(** Class hierarchy of the exceptions of the scenarios (the pinecone
    client's and Python's built-in ones); any other class derives
    directly from [Exception]. *)
Definition scenario_mro (cls : string) : list string :=
  let base := ["Exception"; "BaseException"; "object"] in
  if String.eqb cls "PineconeApiException"
  then cls :: "OpenApiException" :: "PineconeException" :: base
  else if String.eqb cls "NotFoundException"
  then cls :: "PineconeApiException" :: "OpenApiException" :: "PineconeException" :: base
  else if String.eqb cls "ConnectionResetError" || String.eqb cls "ConnectionRefusedError"
  then cls :: "ConnectionError" :: "OSError" :: base
  else if String.eqb cls "PermissionError" || String.eqb cls "ConnectionError"
  then cls :: "OSError" :: base
  else cls :: base.

(** Every external service succeeds: the LLM answers by content, the
    embedding API returns one vector per text, Pinecone accepts every
    batch, and the upload directory is removed. *)
Definition env_ok (chunks : list ParsedChunk) : Env := {|
  openrouter_model := "meta-llama/llama-3.2-3b-instruct:free";
  openrouter_api_key := "sk-or-key";
  llm_post := fun _ prompt =>
    if str_contains "chunk-one" prompt then HttpOk (PayloadContent "projects")
    else if str_contains "chunk-two" prompt then HttpOk (PayloadContent "banana")
    else HttpOk (PayloadContent "Education.");
  embeddings_create := fun _ texts => EmbOk (map (fun t => [String.length t]) texts);
  pinecone_host_ok := fun _ => true;
  index_upsert := fun _ _ _ _ => StoreOk;
  jitter_ms := fun _ => 0;
  parse_file := fun _ => Ok chunks;
  rmtree_outcome := fun _ => CleanupOk;
  md5_hex := fun s => "md5:" ++ s;
  exc_mro := scenario_mro |}.

(** As [env_ok], but removing the upload directory raises [PermissionError]
    after the staged file itself was deleted (e.g. the parent directory is
    not writable, so [rmdir] of the job directory fails). *)
Definition env_rmtree_fails (chunks : list ParsedChunk) : Env := {|
  openrouter_model := openrouter_model (env_ok chunks);
  openrouter_api_key := openrouter_api_key (env_ok chunks);
  llm_post := llm_post (env_ok chunks);
  embeddings_create := embeddings_create (env_ok chunks);
  pinecone_host_ok := pinecone_host_ok (env_ok chunks);
  index_upsert := index_upsert (env_ok chunks);
  jitter_ms := jitter_ms (env_ok chunks);
  parse_file := parse_file (env_ok chunks);
  rmtree_outcome := fun _ =>
    CleanupRaise true (exc "PermissionError" "[Errno 13] Permission denied: '/tmp/rag-uploads/job-1'");
  md5_hex := md5_hex (env_ok chunks);
  exc_mro := exc_mro (env_ok chunks) |}.

(** As [env_ok], but removing the upload directory raises [PermissionError]
    before the staged file is deleted (the job directory is not writable,
    so unlinking its entry fails). *)
Definition env_rmtree_keeps (chunks : list ParsedChunk) : Env := {|
  openrouter_model := openrouter_model (env_ok chunks);
  openrouter_api_key := openrouter_api_key (env_ok chunks);
  llm_post := llm_post (env_ok chunks);
  embeddings_create := embeddings_create (env_ok chunks);
  pinecone_host_ok := pinecone_host_ok (env_ok chunks);
  index_upsert := index_upsert (env_ok chunks);
  jitter_ms := jitter_ms (env_ok chunks);
  parse_file := parse_file (env_ok chunks);
  rmtree_outcome := fun _ =>
    CleanupRaise false (exc "PermissionError" "[Errno 13] Permission denied: 'notes.txt'");
  md5_hex := md5_hex (env_ok chunks);
  exc_mro := exc_mro (env_ok chunks) |}.


Definition job_record (mode : string) (ns : option string) : IngestJobRecord :=
  {| job_id := "job-1"; filename := "notes.txt"; content_type := Some "text/plain";
     status := "queued";
     record_metadata := Some (mkRecordMeta (Some "portfolio") (Some mode) ns None);
     file_path := Some "/tmp/rag-uploads/job-1/notes.txt";
     error := None; chunks_processed := None |}.

(** A process that has just queued job-1 with its staged upload. *)
Definition world_with (r : IngestJobRecord) : World := {|
  JOB_STORE := [("job-1", r)]; last_call_used_fallback := false;
  router_client := false; staged_uploads := ["job-1"]; pinecone := [];
  status_log := []; sleep_log := [] |}.

Definition empty_world : World := {|
  JOB_STORE := []; last_call_used_fallback := false; router_client := false;
  staged_uploads := []; pinecone := []; status_log := []; sleep_log := [] |}.



End Scenario.

(* ------------------------------------------------------------------ *)
(** ** Scenarios and predicates of the further properties *)

(** The metadata [_parse_with_docling] gives a chunk of the file [title]. *)
Definition chunk_well_formed (title : string) (c : ParsedChunk) : Prop :=
  document_title (metadata c) = Some title /\
  (exists p, page_number (metadata c) = Some (S p)) /\
  (exists h, heading (metadata c) = Some h).

(** A character of the canonical UUID text form. *)
Definition hex_or_dash (c : ascii) : bool := is_hex_digit c || Ascii.eqb c "-".

(** [s] is [n] hexadecimal digits. *)
Definition hex_field (n : nat) (s : string) : Prop :=
  String.length s = n /\ forallb is_hex_digit (list_ascii_of_string s) = true.



(** As [Scenario.env_ok], but the embeddings API answers every request
    with [o]; tenacity draws a jitter of [100 * attempt] ms. *)
Definition env_embeddings (o : EmbOutcome) : Env := {|
  openrouter_model := openrouter_model (Scenario.env_ok []);
  openrouter_api_key := openrouter_api_key (Scenario.env_ok []);
  llm_post := llm_post (Scenario.env_ok []);
  embeddings_create := fun _ _ => o;
  pinecone_host_ok := pinecone_host_ok (Scenario.env_ok []);
  index_upsert := index_upsert (Scenario.env_ok []);
  jitter_ms := fun a => 100 * a;
  parse_file := parse_file (Scenario.env_ok []);
  rmtree_outcome := rmtree_outcome (Scenario.env_ok []);
  md5_hex := md5_hex (Scenario.env_ok []);
  exc_mro := exc_mro (Scenario.env_ok []) |}.

(** The vectors built, in chunk order, from the chunks routed to [ns]. *)
Definition routed_to (env : Env) (su ct ns : string) (chunks : list ParsedChunk)
  (embs : list Embedding) (nss : list string) : list Vector :=
  map (fun '(c, e, _) => build_vector env su ct c e)
      (filter (fun '(_, _, n) => String.eqb n ns) (zip3 chunks embs nss)).

(** The distinct elements of [l], in the order of their first occurrence. *)
Definition first_occurrences (l : list string) : list string :=
  fold_left (fun acc x => if existsb (String.eqb x) acc then acc else app acc [x]) l [].

(** A group after appending [l] to it ([None]: no group yet). *)
Definition add_opt {A} (o : option (list A)) (l : list A) : option (list A) :=
  match l with [] => o | _ => Some (app (opt_default [] o) l) end.

(** 2000 characters followed by [tail]. *)
Definition long_text (tail : string) : string :=
  string_of_list_ascii (repeat "a"%char 2000) ++ tail.

(** As [Scenario.env_ok], but the LLM answers every prompt with [s]. *)
Definition env_llm_answer (s : string) : Env := {|
  openrouter_model := openrouter_model (Scenario.env_ok []);
  openrouter_api_key := openrouter_api_key (Scenario.env_ok []);
  llm_post := fun _ _ => HttpOk (PayloadContent s);
  embeddings_create := embeddings_create (Scenario.env_ok []);
  pinecone_host_ok := pinecone_host_ok (Scenario.env_ok []);
  index_upsert := index_upsert (Scenario.env_ok []);
  jitter_ms := jitter_ms (Scenario.env_ok []);
  parse_file := parse_file (Scenario.env_ok []);
  rmtree_outcome := rmtree_outcome (Scenario.env_ok []);
  md5_hex := md5_hex (Scenario.env_ok []);
  exc_mro := exc_mro (Scenario.env_ok []) |}.

(** An LLM answer with decoration around the namespace and an explanation. *)
Definition chatty_answer : string :=
  "  `Projects`." ++ nl ++ "Because the text lists side projects.".

Section ConfigScenario.
Import Config.

(** The (key, value) pairs of the lines the loop of [load_env_file] acts on. *)
Definition line_defs (lines : list string) : list (string * string) :=
  flat_map (fun l => match parse_env_line l with Some d => [d] | None => [] end) lines.

(** The variables [get_settings] reads with [_required_env], in order. *)
Definition required_names : list string :=
  ["OPENAI_API_KEY"; "OPENROUTER_API_KEY"; "PINECONE_API_KEY"; "PINECONE_INDEX"].

(** Every setting is stripped and non-empty. *)
Definition settings_clean (s : Settings) : Prop :=
  Forall (fun v => v <> "" /\ py_strip v = v)
    [openai_api_key s; openrouter_api_key s; pinecone_api_key s; pinecone_index s;
     openrouter_base_url s; openrouter_model s; docling_tokenizer s] /\
  (forall h, pinecone_host s = Some h -> h <> "" /\ py_strip h = h).

(** The cache [_SETTINGS] is empty or holds clean settings; [get_settings]
    is the only writer of [_SETTINGS] and keeps this true. *)
Definition cfg_ok (st : CfgState) : Prop :=
  forall s, _SETTINGS st = Some s -> settings_clean s.

(** A file system holding only [my.env], with [content]. *)
Definition env_files (content : string) (p : string) : option (res string) :=
  if String.eqb p "my.env" then Some (Ok content) else None.

(** An env file with a comment, quotes, spaces, an empty value and a repeated key. *)
Definition sample_env : string :=
  "# keys" ++ nl ++ "OPENAI_API_KEY = 'sk-1' " ++ nl ++ "OPENROUTER_API_KEY=or-2" ++ nl
  ++ "PINECONE_API_KEY=pc-3" ++ nl ++ "PINECONE_INDEX=portfolio" ++ nl
  ++ "PINECONE_HOST=" ++ nl ++ "OPENAI_API_KEY=sk-override".

End ConfigScenario.

(* ================================================================== *)
(** Keys (index, namespace, id) of the stored vectors. *)
Definition store_keys (w : World) : list (string * string * string) := map fst (pinecone w).

(** [c] appends to the log of status writes and never rewrites it. *)
Definition grows {A} (c : M A) : Prop :=
  forall w, exists l, status_log (snd (c w)) = app (status_log w) l.

(** [c] leaves the log of status writes as it is. *)
Definition keeps_log {A} (c : M A) : Prop :=
  forall w, status_log (snd (c w)) = status_log w.

(** [v] is in the group of [ns]. *)
Definition in_group (ns : string) (v : Vector) (g : list (string * list Vector)) : Prop :=
  exists vs, In (ns, vs) g /\ In v vs.

(** * Theorems *)

Local Open Scope bool_scope.
Import Scenario.

(** Case analysis over every condition of a straight-line monadic
    computation, leaving pairs and results to reduction. *)
Ltac split_conditions :=
  repeat (cbn; try exact I; try reflexivity;
          match goal with
          | |- context [match ?x with _ => _ end] =>
              lazymatch type of x with
              | prod _ _ => fail
              | res _ => fail
              | _ => destruct x
              end
          end).

(** ** Namespace router *)

(** A normal return of [_call_llm_for_classification] never comes from a
    fallback branch: the flag it leaves is false. *)
Lemma call_llm_ok_no_fallback env text hs w :
  match fst (_call_llm_for_classification env text hs w) with
  | Ok _ => last_call_used_fallback (snd (_call_llm_for_classification env text hs w)) = false
  | Raise _ => True
  end.
Proof.
  unfold _call_llm_for_classification.
  set (model := _normalize_model _). set (prompt := _build_classification_prompt _ _).
  clearbody model prompt.
  unfold use_fallback, fallback_namespace, router_get_client, _extract_message_content,
    bind, catch, set_fallback, set_router_client, modify, lift, gets, ret, raise.
  split_conditions.
Qed.

(** C1 (evaluation at the failing inputs).  Every fallback branch of the
    router evaluates [Namespace.PROFESSIONAL_LIFE], which is not a member of
    [Namespace]: the routing operations raise [AttributeError] instead of
    returning a fallback namespace.  For all inputs a normal return carries
    a cleared fallback flag; classifying an empty document raises (without
    setting the flag); classifying empty text with no headings sets the flag
    and raises. *)
Theorem C1_router_fallback_raises :
  (forall env text hs w,
      match fst (_call_llm_for_classification env text hs w) with
      | Ok _ => last_call_used_fallback (snd (_call_llm_for_classification env text hs w)) = false
      | Raise _ => True
      end) /\
  (forall env w,
      classify_document env [] w =
      (Raise (exc "AttributeError" "type object 'Namespace' has no attribute 'PROFESSIONAL_LIFE'"), w)) /\
  (forall env w,
      _call_llm_for_classification env "" [] w =
      (Raise (exc "AttributeError" "type object 'Namespace' has no attribute 'PROFESSIONAL_LIFE'"),
       snd (set_fallback true w))).
Proof.
  split; [exact call_llm_ok_no_fallback|].
  split; intros; reflexivity.
Qed.

(** C2 (evaluation at the failing input).  Three chunks in per_chunk mode,
    the classifier answering "projects", "banana" (unrecognized) and
    "Education.": the job does not record a used fallback, it fails with the
    [AttributeError] of the missing fallback member right after routing. *)
Theorem C2_per_chunk_unrecognized_token_run :
  let w' := snd (process_job (env_ok three_chunks) "job-1"
                             (world_with (job_record "per_chunk" None))) in
  map (fun kv => (status (snd kv), error (snd kv))) (JOB_STORE w') =
    [("failed", Some "AttributeError: type object 'Namespace' has no attribute 'PROFESSIONAL_LIFE'")] /\
  status_log w' = [("job-1", "chunking"); ("job-1", "routing"); ("job-1", "failed")].
Proof. vm_compute. split; reflexivity. Qed.

(** ** Job runner: status history and cleanup *)

(** C3 (evaluation at the failing input).  When removing the upload
    directory raises after the status was set to completed, the handler
    overwrites completed with failed: completed is not terminal. *)
Theorem C3_completed_then_failed_run :
  status_log (snd (process_job (env_rmtree_fails three_chunks) "job-1"
                               (world_with (job_record "auto" None)))) =
  [("job-1", "chunking"); ("job-1", "routing"); ("job-1", "embedding");
   ("job-1", "upserting"); ("job-1", "completed"); ("job-1", "failed")].
Proof. vm_compute. reflexivity. Qed.

(** C5 (evaluation at the failing input).  Same run: the job ends failed
    although its staged file was removed by the cleanup that failed. *)
Theorem C5_failed_job_without_staged_file_run :
  let w' := snd (process_job (env_rmtree_fails three_chunks) "job-1"
                             (world_with (job_record "auto" None))) in
  map (fun kv => (status (snd kv), error (snd kv))) (JOB_STORE w') =
    [("failed", Some "PermissionError: [Errno 13] Permission denied: '/tmp/rag-uploads/job-1'")] /\
  staged_uploads w' = [].
Proof. vm_compute. split; reflexivity. Qed.

(** C4 (evaluation at the failing input).  A job in auto mode runs through
    the whole pipeline and reaches 'completed' with chunks_processed = 3
    and its three vectors stored; then [shutil.rmtree] raises
    [PermissionError] before the staged file is deleted.  The job has
    reached 'completed' while its staged input file still exists; it ends
    'failed'. *)
Theorem C4_completed_file_kept_run :
  let w' := snd (process_job (env_rmtree_keeps three_chunks) "job-1"
                             (world_with (job_record "auto" None))) in
  In ("job-1", "completed") (status_log w') /\
  In "job-1" (staged_uploads w') /\
  map (fun kv => (status (snd kv), chunks_processed (snd kv))) (JOB_STORE w') =
    [("failed", Some 3)] /\
  length (pinecone w') = 3.
Proof.
  vm_compute. split; [right; right; right; right; left; reflexivity|].
  split; [left; reflexivity|]. split; reflexivity.
Qed.

(** ** Vector upsert *)


(** ** Request validation *)

(** C8 counterexample.  A whitespace-only namespace passes validation in
    auto mode (it is stripped first), and a manual request with a valid
    namespace is still rejected when the index is blank. *)
Lemma C8_validation_counterexample :
  validate_ingest_request (Some "file.pdf") (Some "   ") "portfolio" AUTO = Ok tt /\
  validate_ingest_request (Some "file.pdf") (Some "projects") " " MANUAL =
    Raise (exc "ValueError" "Index is required.").
Proof. vm_compute. split; reflexivity. Qed.

(** ** The processing gate *)

Section GateFacts.
Import Gate.

Lemma filter_set_nth l i p q :
  nth_error l i = Some p ->
  length (filter is_running (set_nth l i q)) + (if is_running p then 1 else 0) =
  length (filter is_running l) + (if is_running q then 1 else 0).
Proof.
  revert i; induction l as [|x l IH]; intros [|i] H; cbn in *; try discriminate.
  - injection H as ->. destruct (is_running p), (is_running q); cbn; lia.
  - specialize (IH i H). destruct (is_running x); cbn; lia.
Qed.

Lemma gate_invariant s : reachable s -> sem s + running_count s = 1.
Proof.
  unfold running_count.
  induction 1 as [|s s' _ IH Hstep]; [reflexivity|].
  destruct Hstep as [s|s i Hpos Hi|s i Hi]; cbn.
  - rewrite filter_app, length_app. cbn. lia.
  - pose proof (filter_set_nth (jobs s) i Waiting Running Hi) as E. cbn in E. lia.
  - pose proof (filter_set_nth (jobs s) i Running Done Hi) as E. cbn in E. lia.
Qed.

Lemma two_running l i j :
  nth_error l i = Some Running -> nth_error l j = Some Running -> i <> j ->
  2 <= length (filter is_running l).
Proof.
  revert i j; induction l as [|x l IH]; intros [|i] [|j] Hi Hj Hij; cbn in *;
    try discriminate; try congruence.
  - injection Hi as ->. cbn.
    assert (1 <= length (filter is_running l)).
    { clear - Hj. revert j Hj. induction l as [|y l IHl]; intros [|j] Hj; cbn in *;
        try discriminate.
      - injection Hj as ->. cbn. lia.
      - specialize (IHl j Hj). destruct (is_running y); cbn; lia. }
    lia.
  - injection Hj as ->. cbn.
    assert (1 <= length (filter is_running l)).
    { clear - Hi. revert i Hi. induction l as [|y l IHl]; intros [|i] Hi; cbn in *;
        try discriminate.
      - injection Hi as ->. cbn. lia.
      - specialize (IHl i Hi). destruct (is_running y); cbn; lia. }
    lia.
  - assert (i <> j) by congruence.
    specialize (IH i j Hi Hj H). destruct (is_running x); cbn; lia.
Qed.

End GateFacts.

(** C9.  In every reachable state of any number of coroutines scheduled
    through [process_job_with_limit], at most one holds the semaphore and
    runs [process_job]: two distinct jobs are never running at once. *)
Theorem C9_single_flight (s : Gate.St) (Hreach : Gate.reachable s) :
  Gate.running_count s <= 1 /\
  (forall i j, nth_error (Gate.jobs s) i = Some Gate.Running ->
               nth_error (Gate.jobs s) j = Some Gate.Running -> i = j).
Proof.
  pose proof (gate_invariant s Hreach) as Hinv.
  split; [lia|].
  intros i j Hi Hj. destruct (Nat.eq_dec i j) as [|Hne]; [assumption|].
  pose proof (two_running _ i j Hi Hj Hne). unfold Gate.running_count in Hinv. lia.
Qed.

(** A witness for C9: two jobs scheduled, the first admitted. *)
Lemma C9_single_flight_witness :
  Gate.reachable (Gate.mkSt 0 [Gate.Running; Gate.Waiting]) /\
  Gate.running_count (Gate.mkSt 0 [Gate.Running; Gate.Waiting]) <= 1.
Proof.
  assert (H : Gate.reachable (Gate.mkSt 0 [Gate.Running; Gate.Waiting])).
  { change (Gate.mkSt 0 [Gate.Running; Gate.Waiting]) with
      (Gate.mkSt (Gate.sem (Gate.mkSt 1 [Gate.Waiting; Gate.Waiting]) - 1)
                 (Gate.set_nth (Gate.jobs (Gate.mkSt 1 [Gate.Waiting; Gate.Waiting])) 0 Gate.Running)).
    eapply Gate.reach_step; [|apply Gate.step_acquire; cbn; [lia|reflexivity]].
    change (Gate.mkSt 1 [Gate.Waiting; Gate.Waiting]) with
      (Gate.mkSt (Gate.sem (Gate.mkSt 1 [Gate.Waiting]))
                 (app (Gate.jobs (Gate.mkSt 1 [Gate.Waiting])) [Gate.Waiting])).
    eapply Gate.reach_step; [|apply Gate.step_schedule].
    change (Gate.mkSt 1 [Gate.Waiting]) with
      (Gate.mkSt (Gate.sem Gate.init) (app (Gate.jobs Gate.init) [Gate.Waiting])).
    eapply Gate.reach_step; [apply Gate.reach_init|apply Gate.step_schedule]. }
  split; [exact H|].
  exact (proj1 (C9_single_flight _ H)).
Defined.

(** ** Batching *)

Lemma concat_batches_aux {A} n fuel (l : list A) :
  0 < n -> length l <= fuel -> concat (batches_aux fuel n l) = l.
Proof.
  intros Hn. revert l; induction fuel as [|f IH]; intros l Hl.
  - destruct l; cbn in *; [reflexivity|lia].
  - destruct l as [|x r]; [reflexivity|].
    cbn [batches_aux concat]. rewrite IH; [apply firstn_skipn|].
    rewrite length_skipn. cbn [length] in Hl |- *. lia.
Qed.

Lemma concat_batches {A} n (l : list A) : 0 < n -> concat (batches n l) = l.
Proof. intros Hn. apply concat_batches_aux; auto. Qed.



(** ** Embedder *)

Section EmbedderFacts.
Variable env : Env.
Variable R : string -> Embedding -> Prop.
Hypothesis Hapi : forall attempt b, exists vs, embeddings_create env attempt b = EmbOk vs /\ Forall2 R b vs.

Lemma embed_texts_ok b w :
  existsb is_blank b = false ->
  exists vs w', embed_texts env b w = (Ok vs, w') /\ Forall2 R b vs.
Proof.
  intros Hb. unfold embed_texts. cbn [retrying]. unfold catch, embed_texts_attempt.
  destruct b as [|t r].
  - exists [], w. split; [reflexivity|constructor].
  - rewrite Hb. destruct (Hapi 1 (t :: r)) as (vs & Hvs & HR). rewrite Hvs.
    exists vs, w. split; [reflexivity|exact HR].
Qed.

Lemma embed_texts_blank b w :
  existsb is_blank b = true ->
  embed_texts env b w =
  (Raise (exc "ValueError" "All texts must be non-empty strings for embedding."), w).
Proof.
  intros Hb. unfold embed_texts. cbn [retrying]. unfold catch, embed_texts_attempt.
  destruct b as [|t r]; [discriminate|]. rewrite Hb. reflexivity.
Qed.

Lemma embed_batches_ok bs n m w :
  Forall (fun b => existsb is_blank b = false) bs ->
  exists vs w', embed_batches env bs n m w = (Ok vs, w') /\ Forall2 R (concat bs) vs.
Proof.
  revert n w; induction bs as [|b bs IH]; intros n w Hall.
  - exists [], w. split; [reflexivity|constructor].
  - inversion Hall as [|? ? Hb Hrest]; subst.
    destruct (embed_texts_ok b w Hb) as (vs & w1 & E & HR).
    cbn [embed_batches]. unfold bind at 1. rewrite E.
    set (w2 := snd ((if Nat.ltb n m then sleep INTER_BATCH_DELAY_MS else ret tt) w1)).
    destruct (IH (S n) w2 Hrest) as (vs' & w3 & E' & HR').
    exists (app vs vs'), w3. split.
    + unfold bind. destruct (Nat.ltb n m); cbn in w2 |- *; unfold w2 in E'; rewrite E'; reflexivity.
    + cbn. apply Forall2_app; assumption.
Qed.

Lemma embed_batches_blank bs n m w :
  existsb is_blank (concat bs) = true ->
  fst (embed_batches env bs n m w) =
  Raise (exc "ValueError" "All texts must be non-empty strings for embedding.").
Proof.
  revert n w; induction bs as [|b bs IH]; intros n w Hbl; [discriminate|].
  cbn [concat] in Hbl. rewrite existsb_app in Hbl.
  cbn [embed_batches]. unfold bind at 1.
  destruct (existsb is_blank b) eqn:Hb.
  - rewrite (embed_texts_blank b w Hb). reflexivity.
  - cbn in Hbl. destruct (embed_texts_ok b w Hb) as (vs & w1 & E & _). rewrite E.
    unfold bind. destruct (Nat.ltb n m); cbn;
      [ destruct (embed_batches env bs (S n) m _) as [[?|?] ?] eqn:E2
      | destruct (embed_batches env bs (S n) m w1) as [[?|?] ?] eqn:E2 ];
      cbn; (match type of E2 with embed_batches _ _ _ _ ?w' = _ =>
              pose proof (IH (S n) w' Hbl) as IHn end);
      rewrite E2 in IHn; cbn in IHn; try discriminate; exact IHn.
Qed.

End EmbedderFacts.

Lemma existsb_concat_false {A} (f : A -> bool) bs :
  existsb f (concat bs) = false -> Forall (fun b => existsb f b = false) bs.
Proof.
  induction bs as [|b bs IH]; intros H; [constructor|].
  cbn [concat] in H. rewrite existsb_app in H. apply orb_false_iff in H as [H1 H2].
  constructor; [exact H1|apply IH, H2].
Qed.

Lemma embed_api_lengths (R : string -> Embedding -> Prop) (texts : list string) vs :
  Forall2 R texts vs -> length vs = length texts.
Proof. intros H. symmetry. exact (Forall2_length H). Qed.

(** C7 (confirmed): assuming every call of the embeddings API answers a
    batch [b] with vectors [vs] related position by position to [b]
    (one vector per text, in order), [embed_texts_batched] on texts that
    are all non-blank returns exactly one vector per text, each related to
    the text at the same position, whatever the number of texts (zero, one,
    one full batch of 20, several batches); if some text is blank, it raises
    [ValueError: All texts must be non-empty strings for embedding.]. *)
Theorem C7_embed_texts_batched_order (env : Env) (R : string -> Embedding -> Prop)
  (Hapi : forall attempt b, exists vs,
            embeddings_create env attempt b = EmbOk vs /\ Forall2 R b vs)
  (texts : list string) (w : World) :
  (existsb is_blank texts = false ->
   exists vs w', embed_texts_batched env texts w = (Ok vs, w') /\
                 length vs = length texts /\ Forall2 R texts vs) /\
  (existsb is_blank texts = true ->
   fst (embed_texts_batched env texts w) =
   Raise (exc "ValueError" "All texts must be non-empty strings for embedding.")).
Proof.
  split.
  - intros Hnb. destruct texts as [|t r].
    + exists [], w. split; [reflexivity|]. split; [reflexivity|constructor].
    + unfold embed_texts_batched.
      assert (Hc : concat (batches EMBEDDING_BATCH_SIZE (t :: r)) = t :: r)
        by (apply concat_batches; unfold EMBEDDING_BATCH_SIZE; lia).
      assert (Hall : Forall (fun b => existsb is_blank b = false)
                            (batches EMBEDDING_BATCH_SIZE (t :: r)))
        by (apply existsb_concat_false; rewrite Hc; exact Hnb).
      destruct (embed_batches_ok env R Hapi _ 1
                  ((length (t :: r) + EMBEDDING_BATCH_SIZE - 1) / EMBEDDING_BATCH_SIZE) w Hall)
        as (vs & w' & E & HR).
      rewrite Hc in HR. exists vs, w'. split; [exact E|].
      split; [apply (embed_api_lengths R), HR|exact HR].
  - intros Hbl. destruct texts as [|t r]; [discriminate|].
    unfold embed_texts_batched. apply (embed_batches_blank env R Hapi).
    rewrite concat_batches; [exact Hbl|unfold EMBEDDING_BATCH_SIZE; lia].
Qed.

(** A witness for C7: the scenario's embeddings API (one vector [[length t]]
    per text) on 21 texts, i.e. two batches. *)
Lemma C7_embed_texts_batched_order_witness :
  (forall attempt b, exists vs,
     embeddings_create (env_ok []) attempt b = EmbOk vs /\
     Forall2 (fun t v => v = [String.length t]) b vs) /\
  (exists vs w', embed_texts_batched (env_ok []) (repeat "x" 21) empty_world = (Ok vs, w') /\
                 length vs = 21 /\
                 Forall2 (fun t v => v = [String.length t]) (repeat "x" 21) vs).
Proof.
  assert (Hapi : forall attempt b, exists vs,
     embeddings_create (env_ok []) attempt b = EmbOk vs /\
     Forall2 (fun t v => v = [String.length t]) b vs).
  { intros attempt b. exists (map (fun t => [String.length t]) b). split; [reflexivity|].
    induction b as [|t b IH]; constructor; [reflexivity|exact IH]. }
  split; [exact Hapi|].
  exact (proj1 (C7_embed_texts_batched_order (env_ok []) _ Hapi (repeat "x" 21) empty_world)
               eq_refl).
Defined.

(** ** Request validation *)

Lemma validate_all_raise files ns i mode fname ctype e :
  In (fname, ctype) files ->
  validate_ingest_request (Some (opt_default "" fname)) ns i mode = Raise e ->
  exists e', validate_all files ns i mode = Raise e'.
Proof.
  induction files as [|[fn ct] r IH]; intros Hin He; [destruct Hin|].
  cbn [validate_all]. destruct Hin as [Heq|Hin].
  - injection Heq as -> ->. rewrite He. eexists; reflexivity.
  - destruct (validate_ingest_request (Some (opt_default "" fn)) ns i mode);
      [apply IH; assumption|eexists; reflexivity].
Qed.

(** C8 (corrected): [validate_ingest_request] accepts a request exactly
    when the file name is not blank, its extension is one of the allowed
    ones, the namespace after [strip()] is a valid namespace value in manual
    mode and empty (so a missing or whitespace-only namespace passes) in the
    other modes, and the index is not blank.  A file name with a
    disallowed extension is rejected with a message citing that extension.
    In [ingest_documents], a request for which the validation of any of its
    files fails raises before anything is written: no file is staged and
    no job record is created. *)
Theorem C8_validation_amended :
  (forall f ns idx mode,
     validate_ingest_request (Some f) ns idx mode = Ok tt <->
     is_blank f = false /\
     existsb (String.eqb ("." ++ filename_ext f)) ALLOWED_EXTENSIONS = true /\
     (match mode with
      | MANUAL => (match ns with Some n => py_strip n | None => "" end) <> "" /\
                  is_valid_namespace (match ns with Some n => py_strip n | None => "" end) = true
      | _ => (match ns with Some n => py_strip n | None => "" end) = ""
      end) /\
     is_blank idx = false) /\
  (forall f ns idx mode,
     is_blank f = false ->
     existsb (String.eqb ("." ++ filename_ext f)) ALLOWED_EXTENSIONS = false ->
     validate_ingest_request (Some f) ns idx mode =
     Raise (exc "ValueError" ("Unsupported file type '." ++ filename_ext f ++ "'."))) /\
  (forall pidx loads uuids files index namespace mode meta i0 fname ctype e w,
     files <> [] ->
     (match index with
      | Some i => if String.eqb i "" || is_blank i then pidx else Ok i
      | None => pidx end) = Ok i0 ->
     In (fname, ctype) files ->
     validate_ingest_request (Some (opt_default "" fname))
       (match namespace with
        | Some n => if String.eqb (py_strip n) "" then None else Some (py_strip n)
        | None => None end)
       (py_strip i0) mode = Raise e ->
     exists e', ingest_documents pidx loads uuids files index namespace mode meta w =
                (Raise e', w)).
Proof.
  split; [|split].
  - intros f ns idx mode. unfold validate_ingest_request.
    assert (Hf : (String.eqb f "" || is_blank f) = is_blank f)
      by (destruct (String.eqb_spec f ""); [subst; reflexivity|reflexivity]).
    rewrite Hf.
    destruct (is_blank f); [split; [discriminate|intros (H & _); discriminate]|].
    destruct (existsb (String.eqb ("." ++ filename_ext f)) ALLOWED_EXTENSIONS);
      [|split; [discriminate|intros (_ & H & _); discriminate]].
    cbn [negb].
    destruct (match ns with Some n => py_strip n | None => "" end) as [|c s] eqn:Hn;
      destruct mode; cbn [String.eqb negb];
      try destruct (is_valid_namespace (String c s));
      destruct (is_blank idx);
      split; intros H; repeat match goal with H : _ /\ _ |- _ => destruct H end;
      try discriminate; intuition congruence.
  - intros f ns idx mode Hf Hext. unfold validate_ingest_request.
    assert (Hf' : (String.eqb f "" || is_blank f) = false)
      by (destruct (String.eqb_spec f ""); [subst; discriminate|exact Hf]).
    rewrite Hf', Hext. reflexivity.
  - intros pidx loads uuids files index namespace mode meta i0 fname ctype e w
           Hne Hidx Hin He.
    destruct (validate_all_raise _ _ _ _ _ _ _ Hin He) as [e' Hall].
    unfold ingest_documents, ingest_validation.
    destruct files as [|x r]; [congruence|]. rewrite Hidx, Hall.
    destruct (String.eqb (exc_kind e') "ValueError"); eexists; reflexivity.
Qed.

(** ** Retrying *)

Section RetryFacts.
Variable retryable : PyExc -> bool.
Variable wait_ms : nat -> nat.

Lemma retrying_unfold {A} (body : nat -> M A) a r w :
  retrying retryable wait_ms body a (S r) w =
  match body a w with
  | (Ok x, w1) => (Ok x, w1)
  | (Raise e, w1) =>
      if retryable e
      then retrying retryable wait_ms body (S a) r (snd (sleep (wait_ms a) w1))
      else (Raise e, w1)
  end.
Proof.
  cbn [retrying]. unfold catch. destruct (body a w) as [[x|e] w1]; [reflexivity|].
  destruct (retryable e); reflexivity.
Qed.

Lemma retrying_unfold0 {A} (body : nat -> M A) a w :
  retrying retryable wait_ms body a 0 w =
  match body a w with
  | (Ok x, w1) => (Ok x, w1)
  | (Raise e, w1) => (Raise e, w1)
  end.
Proof.
  cbn [retrying]. unfold catch. destruct (body a w) as [[x|e] w1]; [reflexivity|].
  destruct (retryable e); reflexivity.
Qed.

(** The delays slept between attempts: one per retry, the [k]-th attempt
    followed by [wait_ms k], and as many as allowed when the last
    exception is retryable. *)
Lemma retrying_sleeps {A} (body : nat -> M A)
  (Hbody : forall a w, sleep_log (snd (body a w)) = sleep_log w) :
  forall rem a w,
  exists sl, sleep_log (snd (retrying retryable wait_ms body a rem w)) = app (sleep_log w) sl /\
             length sl <= rem /\
             sl = map wait_ms (seq a (length sl)) /\
             (forall e, fst (retrying retryable wait_ms body a rem w) = Raise e ->
                        retryable e = true -> length sl = rem).
Proof.
  induction rem as [|r IH]; intros a w.
  - rewrite retrying_unfold0. specialize (Hbody a w).
    destruct (body a w) as [[x|e] w1]; cbn in Hbody |- *;
      exists []; rewrite app_nil_r; repeat split; auto.
  - rewrite retrying_unfold. specialize (Hbody a w).
    destruct (body a w) as [[x|e] w1] eqn:E; cbn in Hbody.
    + exists []. rewrite app_nil_r. cbn. repeat split; auto; [lia|discriminate].
    + destruct (retryable e) eqn:Hr.
      * destruct (IH (S a) (snd (sleep (wait_ms a) w1))) as (sl & H1 & H2 & H3 & H4).
        assert (Hs : sleep_log (snd (sleep (wait_ms a) w1)) = app (sleep_log w) [wait_ms a])
          by (cbn; rewrite Hbody; reflexivity).
        exists (wait_ms a :: sl). rewrite H1, Hs, <- app_assoc. repeat split.
        -- cbn [length]. lia.
        -- cbn [length seq map]. f_equal. exact H3.
        -- intros e' He' Hr'. cbn [length]. rewrite (H4 e' He' Hr'). reflexivity.
      * exists []. rewrite app_nil_r. cbn. repeat split; auto; [lia|].
        intros e' He' Hr'. injection He' as ->. congruence.
Qed.

(** A relation between worlds kept by every attempt and every sleep is
    kept by the whole retry loop. *)
Lemma retrying_preserves {A} (body : nat -> M A) (Rw : World -> World -> Prop)
  (Hrefl : forall w, Rw w w) (Htrans : forall u v w, Rw u v -> Rw v w -> Rw u w)
  (Hsleep : forall d w, Rw w (snd (sleep d w)))
  (Hbody : forall a w, Rw w (snd (body a w))) :
  forall rem a w, Rw w (snd (retrying retryable wait_ms body a rem w)).
Proof.
  induction rem as [|r IH]; intros a w.
  - rewrite retrying_unfold0. specialize (Hbody a w).
    destruct (body a w) as [[x|e] w1]; exact Hbody.
  - rewrite retrying_unfold. specialize (Hbody a w).
    destruct (body a w) as [[x|e] w1]; cbn in Hbody; [exact Hbody|].
    destruct (retryable e); [|exact Hbody].
    eapply Htrans; [exact Hbody|]. eapply Htrans; [apply Hsleep|apply IH].
Qed.

(** A returned value is the value returned by one of the attempts. *)
Lemma retrying_ok {A} (body : nat -> M A) (P : A -> World -> Prop)
  (Hbody : forall a w x w', body a w = (Ok x, w') -> P x w') :
  forall rem a w x w', retrying retryable wait_ms body a rem w = (Ok x, w') -> P x w'.
Proof.
  induction rem as [|r IH]; intros a w x w' E.
  - rewrite retrying_unfold0 in E. specialize (Hbody a w).
    destruct (body a w) as [[y|e] w1]; [injection E as -> ->; auto|discriminate].
  - rewrite retrying_unfold in E. specialize (Hbody a w).
    destruct (body a w) as [[y|e] w1]; [injection E as -> ->; auto|].
    destruct (retryable e); [eapply IH; exact E|discriminate].
Qed.

End RetryFacts.

(** ** The vector store *)

Lemma key_eqb_true a b : key_eqb a b = true -> a = b.
Proof.
  destruct a as [[a1 a2] a3], b as [[b1 b2] b3]. cbn.
  intros H. apply andb_true_iff in H as [H H3]. apply andb_true_iff in H as [H1 H2].
  apply String.eqb_eq in H1, H2, H3. subst. reflexivity.
Qed.

Lemma kv_put_keeps {V} k k' (v : V) l :
  In k (map fst l) -> In k (map fst (kv_put key_eqb k' v l)).
Proof.
  induction l as [|[k0 v0] r IH]; intros H; [destruct H|].
  cbn [kv_put]. destruct (key_eqb k' k0) eqn:E.
  - apply key_eqb_true in E. subst. exact H.
  - cbn in H |- *. destruct H as [H|H]; [left; exact H|right; apply IH, H].
Qed.

Lemma kv_put_adds {V} k (v : V) l : In k (map fst (kv_put key_eqb k v l)).
Proof.
  induction l as [|[k0 v0] r IH]; cbn [kv_put]; [left; reflexivity|].
  destruct (key_eqb k k0); [left; reflexivity|right; exact IH].
Qed.

Lemma fold_put_keeps index ns k (b : list Vector) p :
  In k (map fst p) ->
  In k (map fst (fold_left (fun p v => kv_put key_eqb (index, ns, vid v) v p) b p)).
Proof.
  revert p; induction b as [|v b IH]; intros p H; [exact H|].
  cbn [fold_left]. apply IH, kv_put_keeps, H.
Qed.

Lemma fold_put_adds index ns (b : list Vector) p v :
  In v b ->
  In (index, ns, vid v) (map fst (fold_left (fun p v => kv_put key_eqb (index, ns, vid v) v p) b p)).
Proof.
  revert p; induction b as [|v' b IH]; intros p H; [destruct H|].
  cbn [fold_left]. destruct H as [<-|H]; [apply fold_put_keeps, kv_put_adds|apply IH, H].
Qed.

Section StoreFacts.
Variable env : Env.
Variables (index ns : string).

Lemma upsert_batches_frame bs attempt n total w :
  sleep_log (snd (upsert_batches env index ns attempt bs n total w)) = sleep_log w /\
  forall k, In k (store_keys w) ->
            In k (store_keys (snd (upsert_batches env index ns attempt bs n total w))).
Proof.
  revert n total w; induction bs as [|b r IH]; intros n total w; [split; auto|].
  cbn [upsert_batches]. destruct (index_upsert env index ns attempt n); [|split; auto].
  unfold bind at 1. cbn [pinecone_write modify].
  destruct (IH (S n) (total + length b)
              (snd (pinecone_write index ns b w))) as [H1 H2].
  split; [exact H1|].
  intros k Hk. apply H2. unfold store_keys. cbn. apply fold_put_keeps, Hk.
Qed.

Lemma upsert_batches_ok bs attempt n total w m w' :
  upsert_batches env index ns attempt bs n total w = (Ok m, w') ->
  m = total + length (concat bs) /\
  forall v, In v (concat bs) -> In (index, ns, vid v) (store_keys w').
Proof.
  revert n total w; induction bs as [|b r IH]; intros n total w E.
  - injection E as <- <-. cbn. split; [lia|intros v []].
  - cbn [upsert_batches] in E. destruct (index_upsert env index ns attempt n); [|discriminate].
    unfold bind at 1 in E. cbn [pinecone_write modify] in E.
    pose proof (upsert_batches_frame r attempt (S n) (total + length b)
                  (snd (pinecone_write index ns b w))) as [_ Hkeep].
    cbn [snd pinecone_write modify] in Hkeep. rewrite E in Hkeep. cbn [snd] in Hkeep.
    destruct (IH _ _ _ E) as [Hm Hin]. split.
    + rewrite Hm. cbn [concat]. rewrite length_app. lia.
    + intros v Hv. cbn [concat] in Hv. apply in_app_or in Hv as [Hv|Hv]; [|apply Hin, Hv].
      apply Hkeep. unfold store_keys. cbn. apply fold_put_adds, Hv.
Qed.

Lemma upsert_attempt_frame vectors attempt w :
  sleep_log (snd (upsert_vectors_attempt env index ns vectors attempt w)) = sleep_log w /\
  forall k, In k (store_keys w) ->
            In k (store_keys (snd (upsert_vectors_attempt env index ns vectors attempt w))).
Proof.
  unfold upsert_vectors_attempt. destruct vectors; [split; auto|].
  destruct (pinecone_host_ok env index); [apply upsert_batches_frame|split; auto].
Qed.

Lemma upsert_attempt_ok vectors attempt w m w' :
  upsert_vectors_attempt env index ns vectors attempt w = (Ok m, w') ->
  m = length vectors /\ forall v, In v vectors -> In (index, ns, vid v) (store_keys w').
Proof.
  unfold upsert_vectors_attempt. destruct vectors as [|x r] eqn:Hv.
  - intros E. injection E as <- <-. split; [reflexivity|intros v []].
  - destruct (pinecone_host_ok env index); [|discriminate].
    intros E. apply upsert_batches_ok in E as [Hm Hin].
    rewrite concat_batches in Hm, Hin by (unfold UPSERT_BATCH_SIZE; lia).
    split; [exact Hm|exact Hin].
Qed.

End StoreFacts.

Lemma upsert_vectors_keeps env index ns vectors w :
  forall k, In k (store_keys w) ->
            In k (store_keys (snd (upsert_vectors env index ns vectors w))).
Proof.
  intros k Hk.
  apply (retrying_preserves (is_store_transient env) (wait_exponential_jitter env 1000 30000 1000)
           (upsert_vectors_attempt env index ns vectors)
           (fun u v => forall k, In k (store_keys u) -> In k (store_keys v)));
    auto.
  intros a w0. apply upsert_attempt_frame.
Qed.

Lemma upsert_vectors_ok env index ns vectors w m w' :
  upsert_vectors env index ns vectors w = (Ok m, w') ->
  m = length vectors /\
  forall v, In v vectors -> In (index, ns, vid v) (store_keys w').
Proof.
  unfold upsert_vectors. intros E.
  exact (retrying_ok _ _ _ (fun x w1 => x = length vectors /\
                               forall v, In v vectors -> In (index, ns, vid v) (store_keys w1))
           (fun a w0 x w1 Ex => upsert_attempt_ok env index ns vectors a w0 x w1 Ex)
           4 1 w m w' E).
Qed.


(** ** The status log only grows *)

Create HintDb grows_db.

Lemma grows_ret {A} (a : A) : grows (ret a).
Proof. intros w. exists []. symmetry. apply app_nil_r. Qed.

Lemma grows_raise {A} e : grows (@raise A e).
Proof. intros w. exists []. symmetry. apply app_nil_r. Qed.

Lemma grows_lift {A} (r : res A) : grows (lift r).
Proof. intros w. exists []. symmetry. apply app_nil_r. Qed.

Lemma grows_gets {A} (f : World -> A) : grows (gets f).
Proof. intros w. exists []. symmetry. apply app_nil_r. Qed.

Lemma grows_bind {A B} (c : M A) (k : A -> M B) :
  grows c -> (forall a, grows (k a)) -> grows (bind c k).
Proof.
  intros Hc Hk w. unfold bind. destruct (Hc w) as [l1 H1].
  destruct (c w) as [[a|e] w1]; cbn in H1; [|exists l1; exact H1].
  destruct (Hk a w1) as [l2 H2]. exists (app l1 l2). rewrite H2, H1, app_assoc. reflexivity.
Qed.

Lemma grows_catch {A} (c : M A) (h : PyExc -> M A) :
  grows c -> (forall e, grows (h e)) -> grows (catch c h).
Proof.
  intros Hc Hh w. unfold catch. destruct (Hc w) as [l1 H1].
  destruct (c w) as [[a|e] w1]; cbn in H1; [exists l1; exact H1|].
  destruct (Hh e w1) as [l2 H2]. exists (app l1 l2). rewrite H2, H1, app_assoc. reflexivity.
Qed.

Lemma grows_same {A} (c : M A) :
  (forall w, status_log (snd (c w)) = status_log w) -> grows c.
Proof. intros H w. exists []. rewrite H. symmetry. apply app_nil_r. Qed.

Lemma grows_mapM {A B} (f : A -> M B) l : (forall x, grows (f x)) -> grows (mapM f l).
Proof.
  intros Hf. induction l as [|x r IH]; cbn [mapM]; [apply grows_ret|].
  apply grows_bind; [apply Hf|intros y]. apply grows_bind; [exact IH|intros; apply grows_ret].
Qed.

Lemma grows_mapM_ {A} (f : A -> M unit) l : (forall x, grows (f x)) -> grows (mapM_ f l).
Proof.
  intros Hf. induction l as [|x r IH]; cbn [mapM_]; [apply grows_ret|].
  apply grows_bind; [apply Hf|intros; exact IH].
Qed.

Lemma grows_retrying {A} retryable wait_ms (body : nat -> M A) :
  (forall a, grows (body a)) -> forall rem a, grows (retrying retryable wait_ms body a rem).
Proof.
  intros Hb. induction rem as [|r IH]; intros a; cbn [retrying];
    apply grows_catch; auto; intros e; destruct (retryable e); try apply grows_raise.
  apply grows_bind; [apply grows_same; reflexivity|intros; apply IH].
Qed.

#[export] Hint Resolve grows_ret grows_raise grows_lift grows_gets : grows_db.

Ltac grows_tac :=
  repeat first
    [ progress eauto with grows_db
    | apply grows_bind; [|intros ?]
    | apply grows_catch; [|intros ?]
    | apply grows_mapM; intros ?
    | apply grows_mapM_; intros ?
    | apply grows_same; reflexivity
    | match goal with
      | |- grows (match ?x with _ => _ end) => destruct x
      end ].

Lemma grows_set_fallback b : grows (set_fallback b).
Proof. apply grows_same; reflexivity. Qed.
Lemma grows_set_router_client : grows set_router_client.
Proof. apply grows_same; reflexivity. Qed.
Lemma grows_sleep d : grows (sleep d).
Proof. apply grows_same; reflexivity. Qed.
Lemma grows_update_record jid f : grows (update_record jid f).
Proof. apply grows_same; reflexivity. Qed.
Lemma grows_remove_upload jid : grows (remove_upload jid).
Proof. apply grows_same; reflexivity. Qed.
Lemma grows_pinecone_write index ns b : grows (pinecone_write index ns b).
Proof. apply grows_same; reflexivity. Qed.
#[export] Hint Resolve grows_set_fallback grows_set_router_client grows_sleep
  grows_update_record grows_remove_upload grows_pinecone_write : grows_db.

Lemma grows_write_status jid s : grows (write_status jid s).
Proof.
  unfold write_status. apply grows_bind; [apply grows_gets|intros [r|]]; [|apply grows_ret].
  apply grows_bind; [apply grows_update_record|intros _].
  intros w. exists [(jid, s)]. reflexivity.
Qed.
#[export] Hint Resolve grows_write_status : grows_db.

Lemma grows_call_llm env text hs : grows (_call_llm_for_classification env text hs).
Proof.
  unfold _call_llm_for_classification, use_fallback, fallback_namespace,
    router_get_client, _extract_message_content. grows_tac.
Qed.
#[export] Hint Resolve grows_call_llm : grows_db.

Lemma grows_route_chunks env m mn chunks : grows (route_chunks env m mn chunks).
Proof.
  unfold route_chunks, classify_chunks_individually, classify_chunk, classify_document,
    did_last_call_use_fallback, fallback_namespace. grows_tac.
Qed.

Lemma grows_embed_batches env bs n m : grows (embed_batches env bs n m).
Proof.
  revert n; induction bs as [|b bs IH]; intros n; cbn [embed_batches]; [apply grows_ret|].
  apply grows_bind;
    [|intros; apply grows_bind; [grows_tac|intros; apply grows_bind; [apply IH|intros; apply grows_ret]]].
  unfold embed_texts. apply grows_retrying. intros a. unfold embed_texts_attempt. grows_tac.
Qed.

Lemma grows_embed_texts_batched env texts : grows (embed_texts_batched env texts).
Proof.
  unfold embed_texts_batched. destruct texts; [apply grows_ret|apply grows_embed_batches].
Qed.

Lemma grows_upsert_batches env index ns a bs n t : grows (upsert_batches env index ns a bs n t).
Proof.
  revert n t; induction bs as [|b bs IH]; intros n t; cbn [upsert_batches]; [apply grows_ret|].
  destruct (index_upsert env index ns a n); [|apply grows_raise].
  apply grows_bind; [apply grows_pinecone_write|intros; apply IH].
Qed.

Lemma grows_upsert_vectors env index ns vs : grows (upsert_vectors env index ns vs).
Proof.
  unfold upsert_vectors. apply grows_retrying. intros a. unfold upsert_vectors_attempt.
  destruct vs; [apply grows_ret|]. destruct (pinecone_host_ok env index); [|apply grows_raise].
  apply grows_upsert_batches.
Qed.

Lemma grows_cleanup env jid : grows (cleanup_job_files env jid).
Proof. unfold cleanup_job_files. grows_tac. Qed.

Lemma grows_process_job_failure jid e : grows (process_job_failure jid e).
Proof. unfold process_job_failure. grows_tac. Qed.
#[export] Hint Resolve grows_route_chunks grows_embed_texts_batched grows_upsert_vectors
  grows_cleanup grows_process_job_failure : grows_db.

(** ** Status writes *)

Lemma lookup_update jid f (l : list (string * IngestJobRecord)) :
  lookup jid (map (fun kv => if String.eqb (fst kv) jid then (fst kv, f (snd kv)) else kv) l) =
  option_map f (lookup jid l).
Proof.
  induction l as [|[k v] r IH]; [reflexivity|]. cbn [map lookup fst snd].
  rewrite String.eqb_sym. destruct (String.eqb jid k) eqn:E; cbn [lookup fst snd option_map];
    rewrite E; [reflexivity|exact IH].
Qed.

Lemma write_status_found jid s w r :
  lookup jid (JOB_STORE w) = Some r ->
  write_status jid s w =
  (Ok tt, log_status jid s (with_store (map (fun kv => if String.eqb (fst kv) jid
                                             then (fst kv, set_status s (snd kv)) else kv)
                                   (JOB_STORE w)) w)).
Proof. intros H. unfold write_status, bind, get_job_record, gets. rewrite H. reflexivity. Qed.

Lemma write_status_lookup jid s w :
  lookup jid (JOB_STORE (snd (write_status jid s w))) =
  option_map (set_status s) (lookup jid (JOB_STORE w)).
Proof.
  destruct (lookup jid (JOB_STORE w)) as [r|] eqn:E.
  - rewrite (write_status_found _ _ _ _ E). cbn. rewrite lookup_update, E. reflexivity.
  - unfold write_status, bind, get_job_record, gets. rewrite E. exact E.
Qed.

(** Once [process_job] has found the record of [jid], has a file path and
    an index, and reads a valid routing mode, its first status write is
    ["chunking"]: the status log gains that entry before any other. *)
Lemma process_job_writes_chunking env jid w r fp m :
  lookup jid (JOB_STORE w) = Some r ->
  file_path r = Some fp -> fp <> "" ->
  RoutingMode_of (opt_default "auto" (rm_routing_mode (opt_default empty_meta (record_metadata r))))
    = Ok m ->
  opt_default "" (rm_index (opt_default empty_meta (record_metadata r))) <> "" ->
  exists l, status_log (snd (process_job env jid w)) = app (status_log w) ((jid, "chunking") :: l).
Proof.
  intros Hl Hfp Hne Hm Hidx.
  unfold process_job. unfold bind at 1, get_job_record, gets. rewrite Hl.
  unfold catch.
  assert (Hb : exists l, status_log (snd (process_job_body env jid r w)) =
                         app (status_log w) ((jid, "chunking") :: l)).
  { unfold process_job_body. rewrite Hfp.
    apply String.eqb_neq in Hne. rewrite Hne.
    unfold bind at 1, lift. rewrite Hm.
    apply String.eqb_neq in Hidx. rewrite Hidx.
    unfold bind at 1. unfold _update_status at 1. rewrite (write_status_found _ _ _ _ Hl).
    match goal with |- exists l, status_log (snd (?k ?w1)) = _ =>
      assert (Hk : grows k) by grows_tac; destruct (Hk w1) as [l Hl1] end.
    exists l. rewrite Hl1. cbn. rewrite <- app_assoc. reflexivity. }
  destruct Hb as [l1 Hb].
  destruct (process_job_body env jid r w) as [[u|e] w1]; cbn in Hb |- *; [exists l1; exact Hb|].
  destruct (grows_process_job_failure jid e w1) as [l2 H2].
  exists (app l1 l2). rewrite H2, Hb, <- app_assoc. reflexivity.
Qed.

(** C10 (confirmed): the stage names ['chunking'], ['routing'],
    ['embedding'] and ['upserting'] are outside the declared status values
    of [IngestJobRecord]; after [_update_status(job_id, s)] a status query
    ([get_job_record]) returns the record with status [s], whatever [s];
    every job that gets past the checks on its record (file path, index,
    routing mode) has ['chunking'] as its first status write; and a run of
    the pipeline writes all four stage names in turn, so membership in the
    declared values is not kept by the pipeline's status updates. *)
Theorem C10_stage_status_observable :
  (forall s, In s ["chunking"; "routing"; "embedding"; "upserting"] ->
             ~ In s declared_statuses) /\
  (forall jid s w r, lookup jid (JOB_STORE w) = Some r ->
     fst (get_job_record jid (snd (_update_status jid s w))) = Ok (Some (set_status s r))) /\
  (forall env jid w r fp m,
     lookup jid (JOB_STORE w) = Some r ->
     file_path r = Some fp -> fp <> "" ->
     RoutingMode_of (opt_default "auto"
                       (rm_routing_mode (opt_default empty_meta (record_metadata r)))) = Ok m ->
     opt_default "" (rm_index (opt_default empty_meta (record_metadata r))) <> "" ->
     exists l, status_log (snd (process_job env jid w)) =
               app (status_log w) ((jid, "chunking") :: l)) /\
  map snd (status_log (snd (process_job (env_ok three_chunks) "job-1"
                                        (world_with (job_record "auto" None))))) =
    ["chunking"; "routing"; "embedding"; "upserting"; "completed"].
Proof.
  split; [|split; [|split]].
  - intros s Hs. cbn in Hs |- *.
    repeat (destruct Hs as [<-|Hs]; [intuition discriminate|]). destruct Hs.
  - intros jid s w r H. unfold _update_status. cbn [fst get_job_record gets].
    rewrite write_status_lookup, H. reflexivity.
  - intros env jid w r fp m Hl Hfp Hne Hm Hidx.
    exact (process_job_writes_chunking env jid w r fp m Hl Hfp Hne Hm Hidx).
  - vm_compute. reflexivity.
Qed.

(** ** Completed jobs *)

Lemma bind_ok_inv {A B} (c : M A) (k : A -> M B) w x w' :
  bind c k w = (Ok x, w') -> exists a w1, c w = (Ok a, w1) /\ k a w1 = (Ok x, w').
Proof.
  unfold bind. destruct (c w) as [[a|e] w1]; [|discriminate]. intros H. exists a, w1. auto.
Qed.

Lemma zip3_in {A B C} (a : list A) (b : list B) (c : list C) x :
  length b = length a -> length c = length a -> In x a ->
  exists y z, In (x, y, z) (zip3 a b c).
Proof.
  revert b c; induction a as [|x0 a IH]; intros b c Hb Hc Hin; [destruct Hin|].
  destruct b as [|y b]; [discriminate|]. destruct c as [|z c]; [discriminate|].
  cbn in Hb, Hc. destruct Hin as [<-|Hin].
  - exists y, z. left. reflexivity.
  - destruct (IH b c ltac:(lia) ltac:(lia) Hin) as (y' & z' & H). exists y', z'. right. exact H.
Qed.

Lemma group_insert_keeps ns v g k u :
  in_group k u g -> in_group k u (group_insert ns v g).
Proof.
  intros (vs & Hin & Hu). induction g as [|[k0 vs0] r IH]; [destruct Hin|].
  cbn [group_insert]. destruct (String.eqb k0 ns).
  - destruct Hin as [Heq|Hin].
    + injection Heq as -> ->. exists (app vs [v]). split; [left; reflexivity|apply in_or_app; left; exact Hu].
    + exists vs. split; [right; exact Hin|exact Hu].
  - destruct Hin as [Heq|Hin].
    + exists vs. split; [left; exact Heq|exact Hu].
    + destruct (IH Hin) as (vs' & H1 & H2). exists vs'. split; [right; exact H1|exact H2].
Qed.

Lemma group_insert_adds ns v g : in_group ns v (group_insert ns v g).
Proof.
  induction g as [|[k0 vs0] r IH]; cbn [group_insert].
  - exists [v]. split; left; reflexivity.
  - destruct (String.eqb k0 ns) eqn:E.
    + apply String.eqb_eq in E. subst. exists (app vs0 [v]).
      split; [left; reflexivity|apply in_or_app; right; left; reflexivity].
    + destruct IH as (vs & H1 & H2). exists vs. split; [right; exact H1|exact H2].
Qed.

Lemma vectors_by_namespace_in env su ct chunks embs nss c e ns :
  In (c, e, ns) (zip3 chunks embs nss) ->
  in_group ns (build_vector env su ct c e) (vectors_by_namespace env su ct chunks embs nss).
Proof.
  unfold vectors_by_namespace. generalize (zip3 chunks embs nss) as L. intros L.
  assert (Hkeep : forall L' g k u, in_group k u g ->
            in_group k u (fold_left (fun g '(c, e, ns) =>
                              group_insert ns (build_vector env su ct c e) g) L' g)).
  { induction L' as [|[[c' e'] ns'] L' IH]; intros g k u H; [exact H|].
    cbn [fold_left]. apply IH, group_insert_keeps, H. }
  generalize (@nil (string * list Vector)) as g.
  induction L as [|[[c' e'] ns'] L IH]; intros g Hin; [destruct Hin|].
  cbn [fold_left]. destruct Hin as [Heq|Hin].
  - injection Heq as -> -> ->. apply Hkeep, group_insert_adds.
  - apply IH, Hin.
Qed.

Lemma mapM_upsert_ok env idx gs w u w' :
  mapM_ (fun g => _ <- upsert_vectors env idx (fst g) (snd g) ;; ret tt) gs w = (Ok u, w') ->
  (forall k, In k (store_keys w) -> In k (store_keys w')) /\
  forall ns v, in_group ns v gs -> In (idx, ns, vid v) (store_keys w').
Proof.
  revert w; induction gs as [|g gs IH]; intros w E.
  - cbn in E. injection E as _ <-. split; [auto|]. intros ns v (vs & [] & _).
  - cbn [mapM_] in E. apply bind_ok_inv in E as (a & w1 & E1 & E2).
    apply bind_ok_inv in E1 as (m & w2 & E3 & E4). injection E4 as _ <-.
    destruct (IH _ E2) as [Hkeep Hin].
    pose proof (upsert_vectors_keeps env idx (fst g) (snd g) w) as Hk0. rewrite E3 in Hk0.
    apply upsert_vectors_ok in E3 as [_ Hv].
    split; [intros k Hk; apply Hkeep, Hk0, Hk|].
    intros ns v (vs & [Heq|Hg] & Hvs).
    + subst g. apply Hkeep, Hv, Hvs.
    + apply Hin. exists vs. auto.
Qed.

Lemma mapM_length {A B} (f : A -> M B) l w ys w' :
  mapM f l w = (Ok ys, w') -> length ys = length l.
Proof.
  revert w ys w'; induction l as [|x l IH]; intros w ys w' E.
  - injection E as <- _. reflexivity.
  - cbn [mapM] in E. apply bind_ok_inv in E as (y & w1 & _ & E).
    apply bind_ok_inv in E as (zs & w2 & E1 & E2). injection E2 as <- _.
    cbn. f_equal. eapply IH; exact E1.
Qed.

Lemma route_chunks_length env m mn chunks w nss fb w' :
  route_chunks env m mn chunks w = (Ok (nss, fb), w') -> length nss = length chunks.
Proof.
  unfold route_chunks. destruct m.
  - intros E. apply bind_ok_inv in E as (d & w1 & _ & E).
    apply bind_ok_inv in E as (b & w2 & _ & E). injection E as <- _. apply repeat_length.
  - intros E. injection E as <- _. apply repeat_length.
  - intros E. apply bind_ok_inv in E as (d & w1 & E1 & E).
    apply bind_ok_inv in E as (b & w2 & _ & E). injection E as <- _.
    rewrite length_map. eapply mapM_length; exact E1.
Qed.

Lemma write_status_pinecone jid s w : pinecone (snd (write_status jid s w)) = pinecone w.
Proof.
  unfold write_status, bind, get_job_record, gets.
  destruct (lookup jid (JOB_STORE w)); reflexivity.
Qed.

Lemma cleanup_frame env jid w :
  pinecone (snd (cleanup_job_files env jid w)) = pinecone w /\
  JOB_STORE (snd (cleanup_job_files env jid w)) = JOB_STORE w.
Proof.
  unfold cleanup_job_files, bind, gets.
  destruct (existsb (String.eqb jid) (staged_uploads w)); [|split; reflexivity].
  destruct (rmtree_outcome env jid) as [|[|] e]; split; reflexivity.
Qed.

Lemma cleanup_ok_removed env jid w u w' :
  cleanup_job_files env jid w = (Ok u, w') -> ~ In jid (staged_uploads w').
Proof.
  unfold cleanup_job_files, bind, gets.
  destruct (existsb (String.eqb jid) (staged_uploads w)) eqn:Ex.
  - destruct (rmtree_outcome env jid) as [|[|] e].
    + intros E. injection E as _ <-. cbn. intros Hin. apply filter_In in Hin as [_ H].
      rewrite String.eqb_refl in H. discriminate.
    + discriminate.
    + discriminate.
  - intros E. injection E as _ <-. intros Hin.
    assert (existsb (String.eqb jid) (staged_uploads w) = true)
      by (apply existsb_exists; exists jid; split; [exact Hin|apply String.eqb_refl]).
    congruence.
Qed.

Lemma process_job_failure_lookup jid e w :
  lookup jid (JOB_STORE (snd (process_job_failure jid e w))) =
  option_map (set_error (exc_kind (match e with mkExc _ _ (Some inner) => inner | _ => e end)
                         ++ ": " ++ exc_msg (match e with mkExc _ _ (Some inner) => inner | _ => e end)))
             (option_map (set_status "failed") (lookup jid (JOB_STORE w))).
Proof.
  unfold process_job_failure. unfold bind at 1.
  destruct (write_status jid "failed" w) as [[u|e'] w1] eqn:E.
  - cbn [snd update_record modify with_store JOB_STORE]. rewrite lookup_update.
    pose proof (write_status_lookup jid "failed" w) as H. rewrite E in H. cbn in H. rewrite H.
    reflexivity.
  - unfold write_status, bind, get_job_record, gets in E.
    destruct (lookup jid (JOB_STORE w)); discriminate.
Qed.

(** ** Steps that leave the status log as it is *)

Create HintDb keeps_db.

Lemma keeps_ret {A} (a : A) : keeps_log (ret a).
Proof. intros w. reflexivity. Qed.
Lemma keeps_raise {A} e : keeps_log (@raise A e).
Proof. intros w. reflexivity. Qed.
Lemma keeps_lift {A} (r : res A) : keeps_log (lift r).
Proof. intros w. reflexivity. Qed.
Lemma keeps_gets {A} (f : World -> A) : keeps_log (gets f).
Proof. intros w. reflexivity. Qed.

Lemma keeps_bind {A B} (c : M A) (k : A -> M B) :
  keeps_log c -> (forall a, keeps_log (k a)) -> keeps_log (bind c k).
Proof.
  intros Hc Hk w. unfold bind. specialize (Hc w).
  destruct (c w) as [[a|e] w1]; cbn in Hc |- *; [rewrite Hk; exact Hc|exact Hc].
Qed.

Lemma keeps_catch {A} (c : M A) (h : PyExc -> M A) :
  keeps_log c -> (forall e, keeps_log (h e)) -> keeps_log (catch c h).
Proof.
  intros Hc Hh w. unfold catch. specialize (Hc w).
  destruct (c w) as [[a|e] w1]; cbn in Hc |- *; [exact Hc|rewrite Hh; exact Hc].
Qed.

Lemma keeps_mapM {A B} (f : A -> M B) l : (forall x, keeps_log (f x)) -> keeps_log (mapM f l).
Proof.
  intros Hf. induction l as [|x r IH]; cbn [mapM]; [apply keeps_ret|].
  apply keeps_bind; [apply Hf|intros y]. apply keeps_bind; [exact IH|intros; apply keeps_ret].
Qed.

Lemma keeps_mapM_ {A} (f : A -> M unit) l : (forall x, keeps_log (f x)) -> keeps_log (mapM_ f l).
Proof.
  intros Hf. induction l as [|x r IH]; cbn [mapM_]; [apply keeps_ret|].
  apply keeps_bind; [apply Hf|intros; exact IH].
Qed.

Lemma keeps_retrying {A} retryable wait_ms (body : nat -> M A) :
  (forall a, keeps_log (body a)) -> forall rem a, keeps_log (retrying retryable wait_ms body a rem).
Proof.
  intros Hb. induction rem as [|r IH]; intros a; cbn [retrying];
    apply keeps_catch; auto; intros e; destruct (retryable e); try apply keeps_raise.
  apply keeps_bind; [intros w; reflexivity|intros; apply IH].
Qed.

#[export] Hint Resolve keeps_ret keeps_raise keeps_lift keeps_gets : keeps_db.

Ltac keeps_tac :=
  repeat first
    [ progress eauto with keeps_db
    | apply keeps_bind; [|intros ?]
    | apply keeps_catch; [|intros ?]
    | apply keeps_mapM; intros ?
    | apply keeps_mapM_; intros ?
    | match goal with
      | |- keeps_log (match ?x with _ => _ end) => destruct x
      | |- keeps_log (modify _) => intros ?; reflexivity
      | |- keeps_log (sleep _) => intros ?; reflexivity
      | |- keeps_log (set_fallback _) => intros ?; reflexivity
      | |- keeps_log set_router_client => intros ?; reflexivity
      | |- keeps_log (update_record _ _) => intros ?; reflexivity
      | |- keeps_log (pinecone_write _ _ _) => intros ?; reflexivity
      end ].

Lemma keeps_call_llm env text hs : keeps_log (_call_llm_for_classification env text hs).
Proof.
  unfold _call_llm_for_classification, use_fallback, fallback_namespace,
    router_get_client, _extract_message_content. keeps_tac.
Qed.
#[export] Hint Resolve keeps_call_llm : keeps_db.

Lemma keeps_route_chunks env m mn chunks : keeps_log (route_chunks env m mn chunks).
Proof.
  unfold route_chunks, classify_chunks_individually, classify_chunk, classify_document,
    did_last_call_use_fallback, fallback_namespace. keeps_tac.
Qed.

Lemma keeps_embed_batches env bs n m : keeps_log (embed_batches env bs n m).
Proof.
  revert n; induction bs as [|b bs IH]; intros n; cbn [embed_batches]; [apply keeps_ret|].
  apply keeps_bind;
    [|intros; apply keeps_bind; [keeps_tac|intros; apply keeps_bind; [apply IH|intros; apply keeps_ret]]].
  unfold embed_texts. apply keeps_retrying. intros a. unfold embed_texts_attempt. keeps_tac.
Qed.

Lemma keeps_embed_texts_batched env texts : keeps_log (embed_texts_batched env texts).
Proof.
  unfold embed_texts_batched. destruct texts; [apply keeps_ret|apply keeps_embed_batches].
Qed.

Lemma keeps_upsert_vectors env index ns vs : keeps_log (upsert_vectors env index ns vs).
Proof.
  unfold upsert_vectors. apply keeps_retrying. intros a. unfold upsert_vectors_attempt.
  destruct vs; [apply keeps_ret|]. destruct (pinecone_host_ok env index); [|apply keeps_raise].
  generalize (batches UPSERT_BATCH_SIZE (v :: vs)) as bs. intros bs. generalize 1 as n. generalize 0 as t.
  induction bs as [|b bs IH]; intros t n; cbn [upsert_batches]; [apply keeps_ret|].
  destruct (index_upsert env index ns a n); [|apply keeps_raise].
  apply keeps_bind; [intros ?; reflexivity|intros; apply IH].
Qed.

Lemma cleanup_keeps_log env jid : keeps_log (cleanup_job_files env jid).
Proof. unfold cleanup_job_files, remove_upload. keeps_tac. Qed.

(** ** The status log of a run *)

Lemma bind_inv {A B} (c : M A) (k : A -> M B) w r w' :
  bind c k w = (r, w') ->
  (exists e, c w = (Raise e, w') /\ r = Raise e) \/
  (exists a w1, c w = (Ok a, w1) /\ k a w1 = (r, w')).
Proof.
  unfold bind. destruct (c w) as [[a|e] w1]; intros H.
  - right. exists a, w1. auto.
  - left. injection H as <- <-. exists e. auto.
Qed.

Lemma absent_keeps {A} (c : M A) x w r w1 :
  keeps_log c -> c w = (r, w1) -> ~ In x (status_log w) -> ~ In x (status_log w1).
Proof. intros Hk Hc. specialize (Hk w). rewrite Hc in Hk. cbn in Hk. rewrite Hk. auto. Qed.

Lemma absent_write_status jid s j w r w1 :
  write_status jid s w = (r, w1) -> s <> "completed" ->
  ~ In (j, "completed") (status_log w) -> ~ In (j, "completed") (status_log w1).
Proof.
  unfold write_status, bind, get_job_record, gets.
  destruct (lookup jid (JOB_STORE w)); intros Hc Hs Hn; injection Hc as _ <-; [|exact Hn].
  cbn. rewrite in_app_iff. intros [H|[H|[]]]; [exact (Hn H)|].
  injection H as _ E. exact (Hs E).
Qed.

Lemma process_job_failure_log jid e w x :
  In x (status_log (snd (process_job_failure jid e w))) ->
  In x (status_log w) \/ x = (jid, "failed").
Proof.
  unfold process_job_failure, write_status, bind, get_job_record, gets.
  destruct (lookup jid (JOB_STORE w)); cbn; [|auto].
  rewrite in_app_iff. intros [H|[H|[]]]; auto.
Qed.

Lemma write_status_never_raises jid s w e w1 : write_status jid s w <> (Raise e, w1).
Proof.
  unfold write_status, bind, get_job_record, gets.
  destruct (lookup jid (JOB_STORE w)); discriminate.
Qed.

Lemma process_job_failure_pinecone jid e w :
  pinecone (snd (process_job_failure jid e w)) = pinecone w.
Proof.
  unfold process_job_failure, write_status, bind, get_job_record, gets.
  destruct (lookup jid (JOB_STORE w)); reflexivity.
Qed.

Lemma write_status_log_found jid s w :
  In (jid, s) (status_log (snd (write_status jid s w))) ->
  In (jid, s) (status_log w) \/ exists r, lookup jid (JOB_STORE w) = Some r.
Proof.
  unfold write_status, bind, get_job_record, gets.
  destruct (lookup jid (JOB_STORE w)) as [r|]; cbn; [right; exists r; reflexivity|auto].
Qed.

Lemma group_insert_total ns v g :
  list_sum (map (fun g => length (snd g)) (group_insert ns v g)) =
  S (list_sum (map (fun g => length (snd g)) g)).
Proof.
  unfold list_sum.
  induction g as [|[k vs] r IH]; cbn [group_insert]; [reflexivity|].
  destruct (String.eqb k ns); cbn [map fold_right snd]; [rewrite length_app; cbn; lia|].
  rewrite IH. lia.
Qed.

Lemma vectors_by_namespace_total env su ct chunks embs nss :
  list_sum (map (fun g => length (snd g)) (vectors_by_namespace env su ct chunks embs nss)) =
  length (zip3 chunks embs nss).
Proof.
  unfold vectors_by_namespace.
  assert (H : forall L g,
    list_sum (map (fun g => length (snd g))
      (fold_left (fun g '(c, e, ns) => group_insert ns (build_vector env su ct c e) g) L g)) =
    length L + list_sum (map (fun g => length (snd g)) g)).
  { induction L as [|[[c e] ns] L IH]; intros g; [reflexivity|].
    cbn [fold_left]. rewrite IH, group_insert_total. cbn [length]. lia. }
  rewrite H. cbn. lia.
Qed.

Lemma zip3_length {A B C} (a : list A) (b : list B) (c : list C) :
  length b = length a -> length c = length a -> length (zip3 a b c) = length a.
Proof.
  revert b c; induction a as [|x a IH]; intros [|y b] [|z c] Hb Hc; cbn in *; try lia.
  rewrite IH; lia.
Qed.

Lemma zip3_nth {A B C} (a : list A) (b : list B) (c : list C) i x y z :
  nth_error a i = Some x -> nth_error b i = Some y -> nth_error c i = Some z ->
  In (x, y, z) (zip3 a b c).
Proof.
  revert b c i; induction a as [|x0 a IH]; intros [|y0 b] [|z0 c] [|i]; cbn;
    try discriminate.
  - intros H1 H2 H3. injection H1 as ->. injection H2 as ->. injection H3 as ->. now left.
  - intros H1 H2 H3. right. eapply IH; eassumption.
Qed.

Ltac absent_tac Hc :=
  first
    [ refine (absent_write_status _ _ _ _ _ _ Hc _ _); [discriminate|assumption]
    | refine (absent_keeps _ _ _ _ _ _ Hc _); [|assumption];
      first [ apply keeps_route_chunks | apply keeps_embed_texts_batched
            | apply keeps_mapM_; intros ?; apply keeps_bind;
              [apply keeps_upsert_vectors|intros; apply keeps_ret]
            | keeps_tac ] ].

(** One statement of the body: it either raised, ending the body in a
    world whose log lacks the completed entry, or it returned. *)
Ltac body_step Hb a w1 Hc Hn :=
  apply bind_inv in Hb; destruct Hb as [(?e & Hc & _)|(a & w1 & Hc & Hb)];
  [ exfalso; unfold _update_status in Hc;
    match goal with Hwb : In ?x (status_log ?wb) |- _ =>
      assert (Hx : ~ In x (status_log wb)) by absent_tac Hc; exact (Hx Hwb) end
  | match goal with Hwb : In ?x (status_log _) |- _ =>
      assert (Hn : ~ In x (status_log w1)) by (unfold _update_status in Hc; absent_tac Hc) end ].

(** A job that reaches status 'completed' (the write of 'completed' is in
    the status log of the run, and was not before) has, whatever happens
    after it: chunks_processed equal to the number of parsed chunks, which
    is also the number of vectors of all namespace groups; the vector of
    every chunk stored under the job's index, in the namespace the routing
    step of the run gave that chunk, with id md5(chunk text); and, when the
    job ends in 'completed', its staged upload removed. *)
Theorem process_job_completed_records env jid w r fp chunks :
  lookup jid (JOB_STORE w) = Some r ->
  file_path r = Some fp ->
  parse_file env fp = Ok chunks ->
  ~ In (jid, "completed") (status_log w) ->
  In (jid, "completed") (status_log (snd (process_job env jid w))) ->
  let meta := opt_default empty_meta (record_metadata r) in
  let idx := opt_default "" (rm_index meta) in
  let w' := snd (process_job env jid w) in
  exists mode nss embs,
    RoutingMode_of (opt_default "auto" (rm_routing_mode meta)) = Ok mode /\
    fst (route_chunks env mode (opt_default "" (rm_namespace meta)) chunks
           (snd (_update_status jid "routing" (snd (_update_status jid "chunking" w)))))
      = Ok (nss, false) /\
    length nss = length chunks /\ length embs = length chunks /\
    list_sum (map (fun g => length (snd g))
      (vectors_by_namespace env (opt_default "" (lookup "source_url" (opt_default [] (rm_user_metadata meta))))
         (get_content_type fp) chunks embs nss)) = length chunks /\
    (forall ns v, in_group ns v
       (vectors_by_namespace env (opt_default "" (lookup "source_url" (opt_default [] (rm_user_metadata meta))))
          (get_content_type fp) chunks embs nss) ->
       In (idx, ns, vid v) (store_keys w')) /\
    (forall i c ns, nth_error chunks i = Some c -> nth_error nss i = Some ns ->
       In (idx, ns, md5_hex env (text c)) (store_keys w')) /\
    exists r', lookup jid (JOB_STORE w') = Some r' /\
      chunks_processed r' = Some (length chunks) /\
      (status r' = "completed" -> ~ In jid (staged_uploads w')).
Proof.
  intros Hl Hfp Hparse Hn0 Hin. cbv zeta.
  assert (Hpj : process_job env jid w =
                match process_job_body env jid r w with
                | (Ok a, w1) => (Ok a, w1)
                | (Raise e, w1) => process_job_failure jid e w1
                end)
    by (unfold process_job, bind, get_job_record, gets, catch; rewrite Hl; reflexivity).
  rewrite Hpj in *. clear Hpj.
  destruct (process_job_body env jid r w) as [res wb] eqn:Hb.
  assert (Hwb : In (jid, "completed") (status_log wb)).
  { destruct res as [u|e]; [exact Hin|].
    destruct (process_job_failure_log jid e wb _ Hin) as [H|H]; [exact H|discriminate]. }
  unfold process_job_body in Hb. rewrite Hfp in Hb.
  destruct (String.eqb fp "");
    [injection Hb as _ <-; contradiction|].
  body_step Hb mode w0 Hc0 Hn0'. injection Hc0 as Hmode <-.
  destruct (String.eqb _ "");
    [injection Hb as _ <-; contradiction|].
  body_step Hb u1 w1 Hc1 Hn1.
  body_step Hb chunks' w2 Hc2 Hn2. unfold lift in Hc2. rewrite Hparse in Hc2. injection Hc2 as <- <-.
  body_step Hb u2 w3 Hc3 Hn3.
  body_step Hb routed w4 Hc4 Hn4. destruct routed as [nss fb].
  pose proof (route_chunks_length _ _ _ _ _ _ _ _ Hc4) as Hlen_nss.
  body_step Hb u3 w5 Hc5 Hn5. destruct fb; [discriminate|]. injection Hc5 as _ <-.
  body_step Hb u4 w6 Hc6 Hn6.
  body_step Hb embs w7 Hc7 Hn7.
  body_step Hb u5 w8 Hc8 Hn8.
  destruct (negb (Nat.eqb (length embs) (length chunks))) eqn:Hlen; [discriminate|].
  injection Hc8 as _ <-. apply negb_false_iff, PeanoNat.Nat.eqb_eq in Hlen.
  body_step Hb u6 w9 Hc9 Hn9.
  body_step Hb u7 w10 Hc10 Hn10.
  apply mapM_upsert_ok in Hc10 as [_ Hstore].
  body_step Hb u8 w11 Hc11 Hn11.
  assert (Hl11 : lookup jid (JOB_STORE w11) =
                 option_map (set_chunks_processed (length chunks)) (lookup jid (JOB_STORE w10)) /\
                 pinecone w11 = pinecone w10)
    by (unfold update_record, modify in Hc11; injection Hc11 as _ <-; cbn [with_store JOB_STORE pinecone];
        rewrite lookup_update; split; reflexivity).
  destruct Hl11 as [Hl11 Hp11].
  apply bind_inv in Hb. destruct Hb as [(e & Hc12 & _)|(u9 & w12 & Hc12 & Hb)].
  { exfalso. exact (write_status_never_raises _ _ _ _ _ Hc12). }

  (* the record is found when 'completed' is written *)
  pose proof (cleanup_keeps_log env jid w12) as Hlog. rewrite Hb in Hlog. cbn [snd] in Hlog.
  rewrite Hlog in Hwb.
  unfold _update_status in Hc12.
  pose proof (write_status_log_found jid "completed" w11) as Hf.
  rewrite Hc12 in Hf. cbn [snd] in Hf. destruct (Hf Hwb) as [Hx|[r11 Hr11]]; [contradiction|].
  clear Hf.
  pose proof (write_status_lookup jid "completed" w11) as Hl12.
  pose proof (write_status_pinecone jid "completed" w11) as Hp12.
  rewrite Hc12 in Hl12, Hp12. cbn [snd] in Hl12, Hp12. rewrite Hr11 in Hl12.
  rewrite Hl11 in Hr11.
  destruct (lookup jid (JOB_STORE w10)) as [r10|]; [|discriminate].
  injection Hr11 as <-.
  pose proof (cleanup_frame env jid w12) as [Hpc Hjc]. rewrite Hb in Hpc, Hjc. cbn [snd] in Hpc, Hjc.
  assert (Hkeys : forall k, In k (store_keys w10) ->
            In k (store_keys (snd (match res with
                                   | Ok a => (Ok a, wb)
                                   | Raise e => process_job_failure jid e wb
                                   end)))).
  { intros k Hk. unfold store_keys.
    destruct res as [a|e]; cbn [snd];
      [|rewrite process_job_failure_pinecone]; rewrite Hpc, Hp12, Hp11; exact Hk. }
  exists mode, nss, embs.
  split; [exact Hmode|].
  split; [rewrite Hc1; cbn [snd]; rewrite Hc3; cbn [snd]; rewrite Hc4; reflexivity|].
  split; [exact Hlen_nss|]. split; [exact Hlen|].
  split; [rewrite vectors_by_namespace_total; apply zip3_length; lia|].
  split; [intros ns v Hg; apply Hkeys, Hstore, Hg|].
  split.
  - intros i c ns Hc Hns.
    assert (Hi : i < length embs)
      by (rewrite Hlen; apply nth_error_Some; rewrite Hc; discriminate).
    apply nth_error_Some in Hi. destruct (nth_error embs i) as [e|] eqn:He; [|contradiction].
    apply Hkeys.
    exact (Hstore ns _ (vectors_by_namespace_in env _ _ _ _ _ c e ns (zip3_nth _ _ _ i _ _ _ Hc He Hns))).
  - destruct res as [a|e]; cbn [snd].
    + eexists. split; [rewrite Hjc; exact Hl12|]. split; [reflexivity|].
      intros _. eapply cleanup_ok_removed. exact Hb.
    + rewrite process_job_failure_lookup, Hjc, Hl12. eexists. split; [reflexivity|].
      split; [reflexivity|]. cbn. discriminate.
Qed.

Lemma process_job_completed_records_witness :
  lookup "job-1" (JOB_STORE (world_with (job_record "auto" None))) = Some (job_record "auto" None) /\
  file_path (job_record "auto" None) = Some "/tmp/rag-uploads/job-1/notes.txt" /\
  parse_file (env_rmtree_keeps three_chunks) "/tmp/rag-uploads/job-1/notes.txt" = Ok three_chunks /\
  ~ In ("job-1", "completed") (status_log (world_with (job_record "auto" None))) /\
  In ("job-1", "completed") (status_log (snd (process_job (env_rmtree_keeps three_chunks) "job-1"
                                               (world_with (job_record "auto" None))))) /\
  exists mode nss embs,
    RoutingMode_of "auto" = Ok mode /\
    fst (route_chunks (env_rmtree_keeps three_chunks) mode "" three_chunks
           (snd (_update_status "job-1" "routing" (snd (_update_status "job-1" "chunking"
                                                    (world_with (job_record "auto" None)))))))
      = Ok (nss, false) /\
    length nss = 3 /\ length embs = 3 /\
    list_sum (map (fun g => length (snd g))
      (vectors_by_namespace (env_rmtree_keeps three_chunks) "" (get_content_type "/tmp/rag-uploads/job-1/notes.txt")
         three_chunks embs nss)) = 3 /\
    (forall ns v, in_group ns v
       (vectors_by_namespace (env_rmtree_keeps three_chunks) "" (get_content_type "/tmp/rag-uploads/job-1/notes.txt")
          three_chunks embs nss) ->
       In ("portfolio", ns, vid v) (store_keys (snd (process_job (env_rmtree_keeps three_chunks) "job-1"
                                               (world_with (job_record "auto" None)))))) /\
    (forall i c ns, nth_error three_chunks i = Some c -> nth_error nss i = Some ns ->
       In ("portfolio", ns, md5_hex (env_rmtree_keeps three_chunks) (text c))
          (store_keys (snd (process_job (env_rmtree_keeps three_chunks) "job-1"
                                        (world_with (job_record "auto" None)))))) /\
    exists r', lookup "job-1" (JOB_STORE (snd (process_job (env_rmtree_keeps three_chunks) "job-1"
                                              (world_with (job_record "auto" None))))) = Some r' /\
      chunks_processed r' = Some 3 /\
      (status r' = "completed" -> ~ In "job-1" (staged_uploads (snd (process_job (env_rmtree_keeps three_chunks) "job-1"
                                                               (world_with (job_record "auto" None)))))).
Proof.
  assert (H1 : lookup "job-1" (JOB_STORE (world_with (job_record "auto" None)))
               = Some (job_record "auto" None)) by reflexivity.
  assert (H2 : file_path (job_record "auto" None) = Some "/tmp/rag-uploads/job-1/notes.txt")
    by reflexivity.
  assert (H3 : parse_file (env_rmtree_keeps three_chunks) "/tmp/rag-uploads/job-1/notes.txt"
               = Ok three_chunks) by reflexivity.
  assert (H4 : ~ In ("job-1", "completed") (status_log (world_with (job_record "auto" None))))
    by (intros []).
  assert (H5 : In ("job-1", "completed")
                 (status_log (snd (process_job (env_rmtree_keeps three_chunks) "job-1"
                                               (world_with (job_record "auto" None))))))
    by (vm_compute; right; right; right; right; left; reflexivity).
  split; [exact H1|split; [exact H2|split; [exact H3|split; [exact H4|split; [exact H5|]]]]].
  exact (process_job_completed_records (env_rmtree_keeps three_chunks) "job-1"
           (world_with (job_record "auto" None)) (job_record "auto" None)
           "/tmp/rag-uploads/job-1/notes.txt" three_chunks H1 H2 H3 H4 H5).
Defined.



(* ================================================================== *)

(** * Further properties of the code *)



(** ** String lemmas *)

Lemma list_ascii_app (a b : string) :
  list_ascii_of_string (a ++ b) = app (list_ascii_of_string a) (list_ascii_of_string b).
Proof. induction a as [|c a IH]; cbn; [reflexivity|now rewrite IH]. Qed.

Lemma string_of_list_app (l1 l2 : list ascii) :
  string_of_list_ascii (app l1 l2) = string_of_list_ascii l1 ++ string_of_list_ascii l2.
Proof. induction l1 as [|c l IH]; cbn; [reflexivity|now rewrite IH]. Qed.

Lemma lstrip_all (p : ascii -> bool) l x :
  forallb p l = true -> lstrip_by p (app l x) = lstrip_by p x.
Proof.
  induction l as [|c l IH]; cbn; [reflexivity|].
  intros H. apply andb_prop in H as [H1 H2]. rewrite H1. exact (IH H2).
Qed.

Lemma lstrip_head (p : ascii -> bool) l c r :
  lstrip_by p l = c :: r -> p c = false.
Proof.
  induction l as [|d l IH]; cbn; [discriminate|].
  destruct (p d) eqn:E; [exact IH|]. intros H; injection H as -> ->. exact E.
Qed.

Lemma lstrip_suffix (p : ascii -> bool) l : exists pre, l = app pre (lstrip_by p l).
Proof.
  induction l as [|d l IH]; cbn; [exists []; reflexivity|].
  destruct (p d); [destruct IH as [pre H]; exists (d :: pre); cbn; now rewrite <- H|].
  exists []; reflexivity.
Qed.

Lemma lstrip_keep (p : ascii -> bool) c l : p c = false -> lstrip_by p (c :: l) = c :: l.
Proof. intros H; cbn; now rewrite H. Qed.

Lemma lstrip_last_nonempty (p : ascii -> bool) l c :
  p c = false -> lstrip_by p (app l [c]) <> [].
Proof.
  intros Hc. induction l as [|d l IH]; cbn; [rewrite Hc; discriminate|].
  destruct (p d); [exact IH|discriminate].
Qed.

(** [strip] leaves a string alone when neither end is to be stripped. *)
Lemma strip_by_id (p : ascii -> bool) l :
  (forall c r, l = c :: r -> p c = false) ->
  (forall c r, rev l = c :: r -> p c = false) ->
  strip_by p (string_of_list_ascii l) = string_of_list_ascii l.
Proof.
  intros H1 H2. unfold strip_by. rewrite list_ascii_of_string_of_list_ascii.
  assert (E1 : lstrip_by p l = l) by (destruct l as [|c r]; [reflexivity|apply lstrip_keep; eapply H1; reflexivity]).
  rewrite E1.
  assert (E2 : lstrip_by p (rev l) = rev l)
    by (remember (rev l) as rl eqn:E; destruct rl as [|c r];
        [reflexivity|apply lstrip_keep; exact (H2 c r eq_refl)]).
  rewrite E2, rev_involutive. reflexivity.
Qed.

(** Both ends of a stripped string are kept characters. *)
Lemma strip_by_ends (p : ascii -> bool) s :
  let l := list_ascii_of_string (strip_by p s) in
  (forall c r, l = c :: r -> p c = false) /\ (forall c r, rev l = c :: r -> p c = false).
Proof.
  cbn zeta. unfold strip_by. rewrite list_ascii_of_string_of_list_ascii, rev_involutive.
  set (y := lstrip_by p (list_ascii_of_string s)).
  set (x := lstrip_by p (rev y)).
  split.
  - intros c r H. destruct (lstrip_suffix p (rev y)) as [pre Hpre]. fold x in Hpre.
    assert (Hy : y = app (rev x) (rev pre)) by (rewrite <- rev_app_distr, <- Hpre, rev_involutive; reflexivity).
    rewrite H in Hy. destruct y as [|d y'] eqn:Ey; [destruct (rev pre); discriminate|].
    injection Hy as -> _. eapply lstrip_head. unfold y in Ey. exact Ey.
  - intros c r H. eapply lstrip_head. exact H.
Qed.

Lemma strip_by_idem (p : ascii -> bool) s : strip_by p (strip_by p s) = strip_by p s.
Proof.
  destruct (strip_by_ends p s) as [H1 H2].
  set (t := strip_by p s) in *. rewrite <- (string_of_list_ascii_of_string t).
  now apply strip_by_id.
Qed.

Lemma strip_by_keeps_nonempty (p : ascii -> bool) c s : p c = false -> strip_by p (String c s) <> "".
Proof.
  intros Hc. unfold strip_by. cbn [list_ascii_of_string]. rewrite lstrip_keep by exact Hc.
  cbn [rev]. intros H. apply (lstrip_last_nonempty p (rev (list_ascii_of_string s)) c Hc).
  apply (f_equal list_ascii_of_string) in H. rewrite list_ascii_of_string_of_list_ascii in H.
  cbn in H. apply (f_equal (@rev _)) in H. rewrite rev_involutive in H. exact H.
Qed.

Lemma str_contains_app_r pat t s :
  str_contains pat s = true -> str_contains pat (t ++ s) = true.
Proof.
  unfold str_contains. intros H. induction t as [|c t IH]; [exact H|].
  cbn [append index]. destruct (String.prefix pat (String c (t ++ s))); [reflexivity|].
  destruct (String.index 0 pat (t ++ s)); [reflexivity|discriminate].
Qed.

Lemma append_nonempty (a b : string) : a <> "" -> a ++ b <> "".
Proof. destruct a; [congruence|discriminate]. Qed.

(** ** [_normalize_model] *)

Lemma normalize_model_spec model :
  (is_blank model = true -> _normalize_model model = "") /\
  (is_blank model = false ->
     _normalize_model model <> "" /\
     str_contains ":free" (_normalize_model model) = true /\
     _normalize_model (_normalize_model model) = _normalize_model model).
Proof.
  unfold is_blank, _normalize_model. set (n := py_strip model).
  split; intros Hb; rewrite Hb; [reflexivity|].
  apply String.eqb_neq in Hb.
  assert (Hn : py_strip n = n) by apply strip_by_idem.
  destruct (str_contains ":free" n) eqn:Hc.
  - rewrite Hn. apply String.eqb_neq in Hb as Hb'. rewrite Hb', Hc. auto.
  - assert (Hs : py_strip (n ++ ":free") = n ++ ":free").
    { destruct (strip_by_ends is_space model) as [H1 _]. fold n in H1.
      unfold py_strip. rewrite <- (string_of_list_ascii_of_string (n ++ ":free")).
      apply strip_by_id.
      - rewrite list_ascii_app. intros c r E.
        destruct (list_ascii_of_string n) as [|d l] eqn:En.
        + exfalso. apply Hb. rewrite <- (string_of_list_ascii_of_string n), En. reflexivity.
        + injection E as -> _. exact (H1 _ _ En).
      - rewrite list_ascii_app, rev_app_distr. cbn. intros c r E. injection E as <- _.
        reflexivity. }
    assert (Hne : n ++ ":free" <> "") by (apply append_nonempty; exact Hb).
    assert (Hcf : str_contains ":free" (n ++ ":free") = true)
      by (apply str_contains_app_r; reflexivity).
    apply String.eqb_neq in Hne as Hne'. rewrite Hs, Hne', Hcf. auto.
Qed.

(** _normalize_model maps a blank model name to the empty string. Any other
    name gives a non-empty name that contains ':free', and normalizing again
    does not change it. *)
Theorem normalize_model_free model :
  (is_blank model = true -> _normalize_model model = "") /\
  (is_blank model = false ->
     _normalize_model model <> "" /\
     str_contains ":free" (_normalize_model model) = true /\
     _normalize_model (_normalize_model model) = _normalize_model model).
Proof. exact (normalize_model_spec model). Qed.

(** ** Namespaces *)

(** The router's namespace_map lookup returns a namespace exactly for that
    namespace's value string. is_valid_namespace accepts exactly the strings
    that namespace_map maps to a namespace. *)
Theorem namespace_lookup_value v n :
  (namespace_lookup v = Some n <-> ns_value n = v) /\
  (is_valid_namespace v = true <-> namespace_lookup v <> None).
Proof.
  split.
  - split.
    + unfold namespace_lookup. intros H. apply find_some in H as [_ H].
      apply String.eqb_eq in H. exact H.
    + intros <-. destruct n; reflexivity.
  - unfold is_valid_namespace, namespace_lookup. split.
    + intros H. apply existsb_exists in H as [m [Hm Heq]].
      destruct (find (fun ns => String.eqb (ns_value ns) v) all_namespaces) eqn:E; [discriminate|].
      eapply find_none in E; [|exact Hm]. congruence.
    + intros H. destruct (find (fun ns => String.eqb (ns_value ns) v) all_namespaces) eqn:E;
        [|congruence].
      apply find_some in E as [Hin Heq]. apply existsb_exists. eauto.
Qed.

(** ** The router on a clean answer *)

Lemma punct_char c : is_ns_punct c = true -> is_space c = false /\ is_line_break c = false.
Proof. destruct c as [[] [] [] [] [] [] [] []]; vm_compute; intros H; try discriminate; auto. Qed.

Lemma line_break_space c : is_line_break c = true -> is_space c = true.
Proof. destruct c as [[] [] [] [] [] [] [] []]; vm_compute; intros H; try discriminate; auto. Qed.

Lemma ns_value_chars n :
  forallb (fun c => negb (is_space c) && negb (is_line_break c) && negb (is_ns_punct c))
          (list_ascii_of_string (ns_value n)) = true.
Proof. destruct n; vm_compute; reflexivity. Qed.

Lemma take_while_app_all (p : ascii -> bool) l1 l2 :
  forallb p l1 = true -> take_while p (app l1 l2) = app l1 (take_while p l2).
Proof.
  induction l1 as [|c l IH]; cbn; [reflexivity|].
  intros H. apply andb_prop in H as [H1 H2]. rewrite H1, (IH H2). reflexivity.
Qed.

Lemma forallb_impl (p q : ascii -> bool) l :
  (forall c, p c = true -> q c = true) -> forallb p l = true -> forallb q l = true.
Proof.
  intros Hpq. induction l as [|c l IH]; cbn; [reflexivity|].
  intros H. apply andb_prop in H as [H1 H2]. rewrite (Hpq c H1), (IH H2). reflexivity.
Qed.

Lemma forallb_app' (p : ascii -> bool) l1 l2 :
  forallb p l1 = true -> forallb p l2 = true -> forallb p (app l1 l2) = true.
Proof. intros H1 H2. rewrite forallb_app, H1, H2. reflexivity. Qed.

Lemma forallb_rev' (p : ascii -> bool) l : forallb p l = true -> forallb p (rev l) = true.
Proof.
  induction l as [|c l IH]; cbn; [reflexivity|].
  intros H. apply andb_prop in H as [H1 H2]. apply forallb_app'; [exact (IH H2)|cbn; now rewrite H1].
Qed.

Lemma ns_value_ends n :
  exists c r c' r', list_ascii_of_string (ns_value n) = c :: r /\
    rev (list_ascii_of_string (ns_value n)) = c' :: r' /\
    is_space c = false /\ is_ns_punct c = false /\ is_ns_punct c' = false.
Proof. destruct n; vm_compute; do 4 eexists; repeat split. Qed.

(** How the router reads an answer made of a namespace value wrapped in
    stripped punctuation and followed by nothing or by white space. *)
Lemma answer_token n pre post sfx :
  forallb is_ns_punct (list_ascii_of_string pre) = true ->
  forallb is_ns_punct (list_ascii_of_string post) = true ->
  (sfx = "" \/ exists c r, sfx = String c r /\ is_space c = true) ->
  String.eqb (first_line (pre ++ ns_value n ++ post ++ sfx)) "" = false /\
  first_word (first_line (pre ++ ns_value n ++ post ++ sfx)) = Some (pre ++ ns_value n ++ post) /\
  strip_by is_ns_punct (pre ++ ns_value n ++ post) = ns_value n.
Proof.
  intros Hpre Hpost Hsfx.
  set (core := app (list_ascii_of_string pre)
                   (app (list_ascii_of_string (ns_value n)) (list_ascii_of_string post))).
  assert (Hcore_lb : forallb (fun c => negb (is_line_break c)) core = true).
  { unfold core. repeat apply forallb_app'.
    - refine (forallb_impl _ _ _ _ Hpre). intros c Hc. now rewrite (proj2 (punct_char c Hc)).
    - refine (forallb_impl _ _ _ _ (ns_value_chars n)). intros c Hc.
      destruct (is_line_break c); [|reflexivity]. now rewrite !andb_false_r in Hc.
    - refine (forallb_impl _ _ _ _ Hpost). intros c Hc. now rewrite (proj2 (punct_char c Hc)). }
  assert (Hcore_sp : forallb (fun c => negb (is_space c)) core = true).
  { unfold core. repeat apply forallb_app'.
    - refine (forallb_impl _ _ _ _ Hpre). intros c Hc. now rewrite (proj1 (punct_char c Hc)).
    - refine (forallb_impl _ _ _ _ (ns_value_chars n)). intros c Hc.
      destruct (is_space c); [|reflexivity]. discriminate.
    - refine (forallb_impl _ _ _ _ Hpost). intros c Hc. now rewrite (proj1 (punct_char c Hc)). }
  assert (Hlist : list_ascii_of_string (pre ++ ns_value n ++ post ++ sfx) =
                  app core (list_ascii_of_string sfx))
    by (unfold core; rewrite !list_ascii_app, !app_assoc; reflexivity).
  assert (Hfl : first_line (pre ++ ns_value n ++ post ++ sfx) =
                string_of_list_ascii (app core (take_while (fun c => negb (is_line_break c))
                                                            (list_ascii_of_string sfx)))).
  { unfold first_line. rewrite Hlist, take_while_app_all by exact Hcore_lb. reflexivity. }
  destruct (ns_value_ends n) as (c0 & r0 & c1 & r1 & E0 & E1 & Hc0 & Hp0 & Hp1).
  assert (Hhead : exists r, core = c0 :: r /\ is_space c0 = false \/
                            exists d, core = d :: r /\ is_ns_punct d = true).
  { unfold core. destruct (list_ascii_of_string pre) as [|d r] eqn:Ep.
    - cbn. rewrite E0. exists (app r0 (list_ascii_of_string post)). left. auto.
    - cbn in Hpre |- *. apply andb_prop in Hpre as [Hd _]. eexists. right. eauto. }
  assert (Hstart : exists d r, core = d :: r /\ is_space d = false).
  { destruct Hhead as [r [[E Hs]|[d [E Hd]]]]; [eauto|].
    exists d, r. split; [exact E|exact (proj1 (punct_char d Hd))]. }
  destruct Hstart as (d & rc & Ecore & Hd).
  assert (Htail : take_while (fun c => negb (is_space c))
                    (take_while (fun c => negb (is_line_break c)) (list_ascii_of_string sfx)) = []).
  { destruct Hsfx as [->|(c & r & -> & Hc)]; [reflexivity|].
    cbn. destruct (is_line_break c); [reflexivity|]. cbn. now rewrite Hc. }
  split; [|split].
  - rewrite Hfl, Ecore. reflexivity.
  - rewrite Hfl. unfold first_word. rewrite list_ascii_of_string_of_list_ascii, Ecore.
    cbn [app lstrip_by]. rewrite Hd.
    change (d :: app rc ?x) with (app (d :: rc) x). rewrite <- Ecore.
    rewrite take_while_app_all by exact Hcore_sp. rewrite Htail, app_nil_r.
    unfold core. rewrite !string_of_list_app, !string_of_list_ascii_of_string. reflexivity.
  - unfold strip_by. rewrite !list_ascii_app, lstrip_all by exact Hpre.
    rewrite E0. cbn [app]. rewrite lstrip_keep by exact Hp0.
    change (c0 :: app r0 ?x) with (app (c0 :: r0) x). rewrite <- E0.
    rewrite rev_app_distr, lstrip_all by (apply forallb_rev'; exact Hpost).
    rewrite E1, lstrip_keep by exact Hp1. rewrite <- E1, rev_involutive.
    apply string_of_list_ascii_of_string.
Qed.

Lemma prompt_not_blank text hs : is_blank (_build_classification_prompt text hs) = false.
Proof.
  assert (E : exists r, _build_classification_prompt text hs = String "Y"%char r)
    by (eexists; reflexivity).
  destruct E as [r E]. rewrite E. unfold is_blank, py_strip.
  apply String.eqb_neq, strip_by_keeps_nonempty. reflexivity.
Qed.

Lemma normalize_nonblank m : is_blank m = false -> String.eqb (_normalize_model m) "" = false.
Proof. intros H. apply String.eqb_neq. exact (proj1 (proj2 (normalize_model_spec m) H)). Qed.

(** Take a non-empty request, a non-blank configured model, and a usable
    client. If the LLM's stripped, lower-cased answer is a namespace value,
    optionally wrapped in the stripped punctuation and followed by a space
    or line break and anything else, _call_llm_for_classification returns
    that namespace and leaves the fallback flag false. *)
Theorem call_llm_clean_answer env text hs w s n pre post sfx :
  (is_blank text = false \/ hs <> []) ->
  is_blank (openrouter_model env) = false ->
  (router_client w = true \/ is_blank (openrouter_api_key env) = false) ->
  llm_post env (_normalize_model (openrouter_model env)) (_build_classification_prompt text hs)
    = HttpOk (PayloadContent s) ->
  py_lower (py_strip s) = pre ++ ns_value n ++ post ++ sfx ->
  forallb is_ns_punct (list_ascii_of_string pre) = true ->
  forallb is_ns_punct (list_ascii_of_string post) = true ->
  (sfx = "" \/ exists c r, sfx = String c r /\ is_space c = true) ->
  fst (_call_llm_for_classification env text hs w) = Ok n /\
  last_call_used_fallback (snd (_call_llm_for_classification env text hs w)) = false.
Proof.
  intros Htext Hmodel Hclient Hpost Hans Hpre Hpost' Hsfx.
  destruct (answer_token n pre post sfx Hpre Hpost' Hsfx) as (Hfl & Hfw & Hst).
  assert (Ht : is_blank text && match hs with [] => true | _ => false end = false)
    by (destruct Htext as [->|H]; [reflexivity|destruct hs; [congruence|apply andb_false_r]]).
  assert (Hne : String.eqb (pre ++ ns_value n ++ post ++ sfx) "" = false).
  { apply String.eqb_neq. destruct pre; [|discriminate]. destruct n; discriminate. }
  assert (Hlk : namespace_lookup (ns_value n) = Some n) by (destruct n; reflexivity).
  enough (E : exists w', _call_llm_for_classification env text hs w = (Ok n, w') /\
                        last_call_used_fallback w' = false)
    by (destruct E as (w' & -> & Hf); auto).
  unfold _call_llm_for_classification.
  unfold bind at 1. cbn [set_fallback modify].
  rewrite Ht. cbv zeta.
  rewrite (normalize_nonblank _ Hmodel), prompt_not_blank. cbn [orb].
  unfold bind at 1. unfold catch at 1. unfold bind at 1. unfold router_get_client.
  unfold bind at 1. cbn [gets router_client].
  destruct (router_client w) eqn:Hrc;
    [|destruct Hclient as [Hc|Hc]; [discriminate|rewrite Hc]];
    cbn -[_normalize_model _build_classification_prompt py_lower py_strip first_line
          first_word strip_by namespace_lookup];
    rewrite Hpost; cbn -[py_lower py_strip first_line first_word strip_by namespace_lookup];
    rewrite Hans, Hne; cbn -[first_line first_word strip_by namespace_lookup];
    rewrite Hfl; cbn -[first_line first_word strip_by namespace_lookup];
    rewrite Hfw; cbn -[first_line first_word strip_by namespace_lookup];
    rewrite Hst, Hlk; unfold ret; eexists; split; reflexivity.
Qed.

Lemma string_of_list_length (l : list ascii) :
  String.length (string_of_list_ascii l) = List.length l.
Proof. induction l as [|c l IH]; cbn; congruence. Qed.

Lemma list_ascii_length (s : string) :
  List.length (list_ascii_of_string s) = String.length s.
Proof. induction s as [|c s IH]; cbn; congruence. Qed.

Lemma lstrip_length (p : ascii -> bool) l : List.length (lstrip_by p l) <= List.length l.
Proof. induction l as [|c l IH]; cbn; [lia|destruct (p c); cbn; lia]. Qed.

Lemma strip_by_length (p : ascii -> bool) s : String.length (strip_by p s) <= String.length s.
Proof.
  unfold strip_by. rewrite string_of_list_length, length_rev.
  rewrite <- list_ascii_length.
  pose proof (lstrip_length p (list_ascii_of_string s)).
  pose proof (lstrip_length p (rev (lstrip_by p (list_ascii_of_string s)))).
  rewrite length_rev in H0. lia.
Qed.

Lemma substring_length n m s : String.length (substring n m s) <= m.
Proof.
  revert n m. induction s as [|c s IH]; intros [|n] [|m]; cbn; try lia;
    [specialize (IH 0 m); lia|apply IH|apply IH].
Qed.

Lemma chunk_windows_spec fuel text m step start :
  0 < step -> String.length text <= start + fuel * step ->
  List.length (chunk_windows fuel text m step start)
    = (String.length text - start + step - 1) / step /\
  (forall i, i < List.length (chunk_windows fuel text m step start) ->
     nth i (chunk_windows fuel text m step start) ""
       = py_strip (substring (start + i * step) m text)).
Proof.
  intros Hs. revert start. induction fuel as [|f IH]; intros start Hf; cbn [chunk_windows].
  - split; [|intros i Hi; cbn [List.length] in Hi; lia]. cbn [List.length]. rewrite Nat.div_small; lia.
  - destruct (Nat.ltb start (String.length text)) eqn:Hlt.
    + apply Nat.ltb_lt in Hlt.
      destruct (IH (start + step)) as [IHl IHn]; [lia|].
      split.
      * cbn [List.length]. rewrite IHl.
        replace (String.length text - start + step - 1)
          with (1 * step + (String.length text - start - 1)) by lia.
        rewrite Nat.div_add_l by lia.
        destruct (Nat.le_gt_cases step (String.length text - start)).
        -- replace (String.length text - (start + step) + step - 1)
             with (String.length text - start - 1) by lia. reflexivity.
        -- rewrite (Nat.div_small (String.length text - start - 1)) by lia.
           rewrite Nat.div_small by lia. reflexivity.
      * intros [|i] Hi; cbn [nth].
        -- f_equal. f_equal. lia.
        -- cbn [List.length] in Hi. rewrite IHn by lia. f_equal. f_equal. lia.
    + apply Nat.ltb_ge in Hlt. split; [|intros i Hi; cbn [List.length] in Hi; lia].
      cbn [List.length]. rewrite Nat.div_small; lia.
Qed.

Lemma Forall_nth_string (P : string -> Prop) (l : list string) :
  (forall i, i < List.length l -> P (nth i l "")) -> Forall P l.
Proof.
  induction l as [|x l IH]; intros H; constructor.
  - apply (H 0). cbn; lia.
  - apply IH. intros i Hi. apply (H (S i)). cbn; lia.
Qed.

(** When 0 <= overlap < max_chars, _chunk_text returns ceil(len(text) /
    step) chunks, where step = max_chars - overlap. Chunk i is text[i*step :
    i*step + max_chars].strip(), so no chunk is longer than max_chars. *)
Theorem chunk_text_windows text max_chars overlap :
  (0 <= overlap < max_chars)%Z ->
  let step := Z.to_nat (max_chars - overlap) in
  exists chunks, _chunk_text text max_chars overlap = Ok chunks /\
    List.length chunks = (String.length text + step - 1) / step /\
    (forall i, i < List.length chunks ->
       nth i chunks "" = py_strip (substring (i * step) (Z.to_nat max_chars) text)) /\
    Forall (fun c => String.length c <= Z.to_nat max_chars) chunks.
Proof.
  intros H step. unfold _chunk_text.
  replace (max_chars <=? 0)%Z with false by (symmetry; apply Z.leb_gt; lia).
  replace (overlap <? 0)%Z with false by (symmetry; apply Z.ltb_ge; lia).
  replace (max_chars <=? overlap)%Z with false by (symmetry; apply Z.leb_gt; lia).
  fold step. assert (Hs : 0 < step) by (unfold step; lia).
  destruct (chunk_windows_spec (String.length text) text (Z.to_nat max_chars) step 0 Hs)
    as [Hl Hn]; [nia|].
  eexists; split; [reflexivity|]. rewrite Nat.sub_0_r in Hl. split; [exact Hl|].
  split; [exact Hn|].
  apply Forall_nth_string. intros i Hi. rewrite Hn by exact Hi.
  eapply Nat.le_trans; [apply strip_by_length|apply substring_length].
Qed.

Lemma chunk_text_windows_witness :
  (0 <= 2 < 5)%Z /\
  exists chunks, _chunk_text "abcdefgh" 5 2 = Ok chunks /\
    List.length chunks = (String.length "abcdefgh" + Z.to_nat (5 - 2) - 1) / Z.to_nat (5 - 2) /\
    (forall i, i < List.length chunks ->
       nth i chunks "" = py_strip (substring (i * Z.to_nat (5 - 2)) (Z.to_nat 5) "abcdefgh")) /\
    Forall (fun c => String.length c <= Z.to_nat 5) chunks.
Proof. split; [lia|]. exact (chunk_text_windows "abcdefgh" 5 2 ltac:(lia)). Defined.

(** ** gather_headings *)

Lemma gather_fold_spec chunks acc :
  NoDup acc -> ~ In "" acc ->
  let r := fold_left (fun hs c =>
               let h := chunk_heading c in
               if negb (String.eqb h "") && negb (existsb (String.eqb h) hs)
               then app hs [h] else hs) chunks acc in
  NoDup r /\ (forall h, In h r <-> In h acc \/ (h <> "" /\ exists c, In c chunks /\ chunk_heading c = h)).
Proof.
  revert acc. induction chunks as [|c cs IH]; intros acc Hnd Hne; cbn zeta; cbn [fold_left].
  - split; [exact Hnd|]. intros h. split; [now left|]. intros [H|(_ & c & [] & _)]; exact H.
  - destruct (negb (String.eqb (chunk_heading c) "") && negb (existsb (String.eqb (chunk_heading c)) acc)) eqn:E.
    + apply andb_prop in E as [E1 E2]. apply negb_true_iff in E1, E2.
      apply String.eqb_neq in E1.
      assert (Hnin : ~ In (chunk_heading c) acc).
      { intros Hin. assert (existsb (String.eqb (chunk_heading c)) acc = true)
          by (apply existsb_exists; exists (chunk_heading c); split; [exact Hin|apply String.eqb_refl]).
        congruence. }
      destruct (IH (app acc [chunk_heading c])) as [IH1 IH2].
      * apply NoDup_app; [exact Hnd|constructor; [intros []|constructor]|].
        intros x Hx [<-|[]]. exact (Hnin Hx).
      * rewrite in_app_iff. intros [H|[H|[]]]; [exact (Hne H)|exact (E1 H)].
      * split; [exact IH1|]. intros h. rewrite IH2, in_app_iff. split.
        -- intros [[H|[<-|[]]]|(Hh & d & Hd & <-)]; [now left| |].
           ++ right. split; [exact E1|]. exists c. split; [now left|reflexivity].
           ++ right. split; [exact Hh|]. exists d. split; [now right|reflexivity].
        -- intros [H|(Hh & d & [<-|Hd] & <-)]; [now left; left|now left; right; left|].
           right. split; [exact Hh|]. exists d. split; [exact Hd|reflexivity].
    + destruct (IH acc Hnd Hne) as [IH1 IH2]. split; [exact IH1|]. intros h. rewrite IH2. split.
      * intros [H|(Hh & d & Hd & <-)]; [now left|]. right. split; [exact Hh|].
        exists d. split; [now right|reflexivity].
      * intros [H|(Hh & d & [<-|Hd] & <-)]; [now left| |].
        -- apply andb_false_iff in E as [E|E]; apply negb_false_iff in E.
           ++ apply String.eqb_eq in E. contradiction.
           ++ left. apply existsb_exists in E as [x [Hx Hxe]]. apply String.eqb_eq in Hxe.
              now subst.
        -- right. split; [exact Hh|]. exists d. split; [exact Hd|reflexivity].
Qed.

(** The headings classify_document gathers have no duplicates. They are
    exactly the non-empty headings of the chunks. *)
Theorem gather_headings_distinct chunks :
  NoDup (gather_headings chunks) /\
  (forall h, In h (gather_headings chunks) <->
             h <> "" /\ exists c, In c chunks /\ chunk_heading c = h).
Proof.
  destruct (gather_fold_spec chunks [] (NoDup_nil _) (fun H => H)) as [H1 H2].
  split; [exact H1|]. intros h. unfold gather_headings. rewrite H2. split.
  - intros [[]|H]; exact H.
  - intros H; now right.
Qed.

Section ParserFacts.
Import Parser.





(** A .json upload whose normalised text cannot be encoded leaves an empty
    temporary file behind. *)
Lemma parse_file_leaves_temp_example :
  let penv := mkParserEnv true (fun _ _ => Ok (mkDoclingDoc [] "# Notes")) Ok Ok Ok
                (fun k => "/tmp/tmp" ++ str_of_nat k ++ ".md")
                (fun t => if str_contains "ud800" t
                          then Some "'utf-8' codec can't encode character '\ud800' in position 10: surrogates not allowed"
                          else None) in
  let fs := mkFs [("/tmp/rag-uploads/j1/data.json", "{ ud800 }")] 0 in
  parse_file penv "/tmp/rag-uploads/j1/data.json" fs =
    (Raise (exc "UnicodeEncodeError"
              "'utf-8' codec can't encode character '\ud800' in position 10: surrogates not allowed"),
     mkFs [("/tmp/rag-uploads/j1/data.json", "{ ud800 }"); ("/tmp/tmp0.md", "")] 1).
Proof. vm_compute. reflexivity. Qed.

(** parse_file always refuses an existing file with a .md extension. It
    raises ValueError "Unsupported text file type '.md'.", although .md is
    in ALLOWED_EXTENSIONS. *)
Theorem parse_file_md_rejected penv path fs :
  isfile path fs = true -> py_lower (splitext_ext path) = ".md" ->
  parse_file penv path fs = (Raise (exc "ValueError" "Unsupported text file type '.md'."), fs).
Proof.
  intros Hf Hext. unfold parse_file. rewrite Hf, Hext. reflexivity.
Qed.

Lemma parse_file_md_rejected_witness :
  isfile "/tmp/rag-uploads/j1/Notes.MD" (mkFs [("/tmp/rag-uploads/j1/Notes.MD", "# Notes")] 0) = true /\
  py_lower (splitext_ext "/tmp/rag-uploads/j1/Notes.MD") = ".md" /\
  parse_file (mkParserEnv true (fun _ _ => Ok (mkDoclingDoc [] "# Notes")) Ok Ok Ok
                (fun k => "/tmp/tmp" ++ str_of_nat k ++ ".md") (fun _ => None))
    "/tmp/rag-uploads/j1/Notes.MD" (mkFs [("/tmp/rag-uploads/j1/Notes.MD", "# Notes")] 0)
  = (Raise (exc "ValueError" "Unsupported text file type '.md'."),
     mkFs [("/tmp/rag-uploads/j1/Notes.MD", "# Notes")] 0).
Proof.
  assert (H1 : isfile "/tmp/rag-uploads/j1/Notes.MD"
                 (mkFs [("/tmp/rag-uploads/j1/Notes.MD", "# Notes")] 0) = true) by reflexivity.
  assert (H2 : py_lower (splitext_ext "/tmp/rag-uploads/j1/Notes.MD") = ".md") by reflexivity.
  split; [exact H1|split; [exact H2|]].
  exact (parse_file_md_rejected _ _ _ H1 H2).
Defined.


Lemma docling_chunks_meta title (l : list DoclingChunk) s :
  let cs := map (fun ich => mkChunk (dc_text (snd ich)) (docling_metadata title (fst ich) (snd ich)))
                (combine (seq s (List.length l)) l) in
  List.length cs = List.length l /\
  map (fun c => chunk_index (metadata c)) cs = map Some (seq (S s) (List.length l)) /\
  Forall (chunk_well_formed title) cs.
Proof.
  revert s. induction l as [|d l IH]; intros s; cbn zeta; cbn [List.length seq combine map].
  - repeat split; constructor.
  - destruct (IH (S s)) as (H1 & H2 & H3). cbn zeta in H1, H2, H3.
    split; [cbn; now rewrite H1|]. split; [cbn; now rewrite H2|].
    constructor; [|exact H3].
    unfold chunk_well_formed. cbn. split; [reflexivity|]. split; [|eexists; reflexivity].
    destruct (dc_page_no d) as [[|k]|]; eexists; reflexivity.
Qed.

Lemma parse_with_docling_ok penv p sp fs chunks :
  _parse_with_docling penv p sp fs = Ok chunks ->
  chunks <> [] /\
  map (fun c => chunk_index (metadata c)) chunks = map Some (seq 1 (List.length chunks)) /\
  Forall (chunk_well_formed (basename sp)) chunks.
Proof.
  unfold _parse_with_docling.
  destruct (negb (docling_available penv)); [discriminate|].
  destruct (docling_convert penv p (lookup p (fs_files fs))) as [doc|e]; [|discriminate].
  destruct (docling_chunks_meta (basename sp) (dd_chunks doc) 0) as (H1 & H2 & H3).
  cbn zeta in H1, H2, H3.
  destruct (map _ (combine (seq 0 (List.length (dd_chunks doc))) (dd_chunks doc))) as [|c cs] eqn:E.
  - destruct (is_blank (dd_markdown doc)); [discriminate|]. intros H; injection H as <-.
    split; [discriminate|]. split; [reflexivity|].
    constructor; [|constructor]. unfold chunk_well_formed; cbn.
    split; [reflexivity|]. split; eexists; reflexivity.
  - intros H; injection H as <-. split; [discriminate|]. rewrite <- H1 in H2. split; assumption.
Qed.

(** When parse_file returns chunks, the list is non-empty and chunk_index
    runs 1, 2, ..., n. Every chunk has the file's base name as
    document_title, a page_number of at least 1, and a heading. *)
Theorem parse_file_chunks penv path fs chunks :
  fst (parse_file penv path fs) = Ok chunks ->
  chunks <> [] /\
  map (fun c => chunk_index (metadata c)) chunks = map Some (seq 1 (List.length chunks)) /\
  Forall (chunk_well_formed (basename path)) chunks.
Proof.
  unfold parse_file.
  destruct (negb (isfile path fs)); [discriminate|].
  destruct (negb (existsb (String.eqb (py_lower (splitext_ext path))) ALLOWED_EXTENSIONS));
    [discriminate|].
  destruct (_ || _); [apply parse_with_docling_ok|].
  unfold _parse_text_with_docling.
  destruct (_read_text_payload penv path (py_lower (splitext_ext path)) fs); [|discriminate].
  destruct (is_blank a); [discriminate|].
  unfold _write_temp_text.
  destruct (pick_tmp_name penv TMP_MAX (tmp_next fs) (fs_files fs)); [|discriminate].
  cbv zeta. destruct (utf8_encode_error penv a); [discriminate|].
  apply parse_with_docling_ok.
Qed.

Lemma parse_file_chunks_witness :
  let penv := mkParserEnv true
      (fun _ _ => Ok (mkDoclingDoc [mkDoclingChunk "Intro" ["About"] None "About: Intro";
                                    mkDoclingChunk "Body" [] (Some 3) "Body"] ""))
      Ok Ok Ok (fun k => "/tmp/tmp" ++ str_of_nat k ++ ".md") (fun _ => None) in
  let fs := mkFs [("/tmp/rag-uploads/j1/cv.pdf", "%PDF")] 0 in
  exists chunks, fst (parse_file penv "/tmp/rag-uploads/j1/cv.pdf" fs) = Ok chunks /\
  chunks <> [] /\
  map (fun c => chunk_index (metadata c)) chunks = map Some (seq 1 (List.length chunks)) /\
  Forall (chunk_well_formed (basename "/tmp/rag-uploads/j1/cv.pdf")) chunks.
Proof.
  intros penv fs. eexists. split; [reflexivity|].
  exact (parse_file_chunks penv "/tmp/rag-uploads/j1/cv.pdf" fs _ eq_refl).
Defined.

Lemma take_while_stop (p : ascii -> bool) l1 c l2 :
  forallb p l1 = true -> p c = false -> take_while p (app l1 (c :: l2)) = l1.
Proof.
  intros H Hc. rewrite take_while_app_all by exact H. cbn. rewrite Hc. apply app_nil_r.
Qed.

Lemma existsb_rev {A} (f : A -> bool) l : existsb f (rev l) = existsb f l.
Proof.
  induction l as [|x l IH]; cbn; [reflexivity|].
  rewrite existsb_app, IH. cbn. rewrite orb_false_r. apply orb_comm.
Qed.

(** For an upload saved as /tmp/rag-uploads/<job_id>/<stem>.<e> (no '/' in
    the name, no '.' in e), the extension parse_file computes is '.' plus
    the extension validate_ingest_request checked, if the stem has a
    character other than '.'. Otherwise it is empty, e.g. for a file named
    '.pdf'. *)
Theorem staged_upload_extension jid stem e :
  forallb (fun c => negb (is_slash c)) (list_ascii_of_string (stem ++ "." ++ e)) = true ->
  forallb (fun c => negb (is_dot c)) (list_ascii_of_string e) = true ->
  py_lower (splitext_ext ("/tmp/rag-uploads/" ++ jid ++ "/" ++ stem ++ "." ++ e)) =
  if existsb (fun c => negb (is_dot c)) (list_ascii_of_string stem)
  then "." ++ filename_ext (stem ++ "." ++ e) else "".
Proof.
  intros Hsl He.
  assert (Hsl' : forallb (fun c => negb (is_slash c))
                   (rev (app (list_ascii_of_string stem) ("."%char :: list_ascii_of_string e))) = true).
  { apply forallb_rev'. rewrite list_ascii_app in Hsl. exact Hsl. }
  assert (Hrev : exists rest,
     rev (list_ascii_of_string ("/tmp/rag-uploads/" ++ jid ++ "/" ++ stem ++ "." ++ e))
     = app (rev (app (list_ascii_of_string stem) ("."%char :: list_ascii_of_string e)))
           ("/"%char :: rest)).
  { rewrite !list_ascii_app. cbn [list_ascii_of_string].
    exists (rev (app (list_ascii_of_string "/tmp/rag-uploads/") (list_ascii_of_string jid))).
    rewrite !rev_app_distr. cbn [rev app]. rewrite <- !app_assoc. reflexivity. }
  destruct Hrev as [rest Hrev].
  unfold splitext_ext. rewrite Hrev, take_while_stop by (exact Hsl' || reflexivity).
  rewrite rev_app_distr. cbn [rev app].
  rewrite <- app_assoc. cbn [app].
  rewrite take_while_stop by first [apply forallb_rev'; exact He | reflexivity].
  rewrite skipn_app, Nat.sub_diag, skipn_all. cbn [app skipn].
  rewrite existsb_rev.
  destruct (existsb (fun c => negb (is_dot c)) (list_ascii_of_string stem)); [|reflexivity].
  rewrite rev_involutive.
  rewrite string_of_list_ascii_of_string.
  unfold filename_ext. rewrite list_ascii_app. cbn [list_ascii_of_string append].
  rewrite existsb_app. cbn [existsb]. rewrite orb_true_r.
  rewrite rev_app_distr. cbn [rev app]. rewrite <- app_assoc. cbn [app].
  rewrite take_while_stop by first [apply forallb_rev'; exact He | reflexivity].
  rewrite rev_involutive, string_of_list_ascii_of_string. reflexivity.
Qed.

Lemma staged_upload_extension_witness :
  forallb (fun c => negb (is_slash c)) (list_ascii_of_string ("" ++ "." ++ "pdf")) = true /\
  forallb (fun c => negb (is_dot c)) (list_ascii_of_string "pdf") = true /\
  py_lower (splitext_ext ("/tmp/rag-uploads/" ++ "j1" ++ "/" ++ "" ++ "." ++ "pdf")) =
  (if existsb (fun c => negb (is_dot c)) (list_ascii_of_string "")
   then "." ++ filename_ext ("" ++ "." ++ "pdf") else "").
Proof.
  split; [reflexivity|split; [reflexivity|]].
  exact (staged_upload_extension "j1" "" "pdf" eq_refl eq_refl).
Defined.

End ParserFacts.

Section ConfigFacts.
Import Config.

Lemma lookup_kv_put {V} k k' (v : V) (env : list (string * V)) :
  lookup k (kv_put String.eqb k' v env) = if String.eqb k k' then Some v else lookup k env.
Proof.
  induction env as [|[k0 v0] r IH]; cbn [kv_put lookup].
  - destruct (String.eqb k k'); reflexivity.
  - destruct (String.eqb k' k0) eqn:E0; cbn [lookup].
    + apply String.eqb_eq in E0. subst k0. destruct (String.eqb k k'); reflexivity.
    + rewrite IH. destruct (String.eqb k k') eqn:E1; [|reflexivity].
      apply String.eqb_eq in E1. subst k'. rewrite E0. reflexivity.
Qed.

Lemma setenv_ok key value env env' :
  setenv key value env = Ok env' -> env' = kv_put String.eqb key value env.
Proof.
  unfold setenv. destruct (_ || _); [discriminate|].
  destruct (str_contains "=" key); [discriminate|].
  destruct (String.eqb key ""); [discriminate|]. congruence.
Qed.


Lemma find_app {A} (f : A -> bool) l1 l2 :
  find f (app l1 l2) = match find f l1 with Some x => Some x | None => find f l2 end.
Proof. induction l1 as [|x l IH]; cbn; [reflexivity|]. destruct (f x); [reflexivity|exact IH]. Qed.

Lemma load_lines_keep lines env :
  (forall k v, lookup k env = Some v -> lookup k (snd (load_lines false lines env)) = Some v) /\
  (fst (load_lines false lines env) = Ok tt -> forall k,
     lookup k (snd (load_lines false lines env)) =
     match lookup k env with
     | Some v => Some v
     | None => option_map snd (find (fun d => String.eqb (fst d) k) (line_defs lines))
     end).
Proof.
  revert env. induction lines as [|l lines IH]; intros env; cbn [load_lines line_defs flat_map].
  - cbn [fst snd]. split; [auto|]. intros _ k. destruct (lookup k env); reflexivity.
  - destruct (parse_env_line l) as [[key value]|]; [|exact (IH env)].
    cbn [app find fst snd]. cbn [negb andb].
    destruct (lookup key env) as [v0|] eqn:Hkey.
    + destruct (IH env) as [IH1 IH2]. split; [exact IH1|]. intros Hok k.
      rewrite (IH2 Hok k). destruct (String.eqb key k) eqn:E; [|reflexivity].
      apply String.eqb_eq in E. subst k. rewrite Hkey. reflexivity.
    + destruct (setenv key value env) as [env'|e] eqn:Hs; [|split; [auto|discriminate]].
      apply setenv_ok in Hs. subst env'.
      destruct (IH (kv_put String.eqb key value env)) as [IH1 IH2]. split.
      * intros k v Hk. apply IH1. rewrite lookup_kv_put.
        destruct (String.eqb k key) eqn:E; [|exact Hk].
        apply String.eqb_eq in E. subst. congruence.
      * intros Hok k. rewrite (IH2 Hok k), lookup_kv_put.
        rewrite (String.eqb_sym key k).
        destruct (String.eqb k key) eqn:E; [|reflexivity].
        apply String.eqb_eq in E. subst k. rewrite Hkey. reflexivity.
Qed.

Lemma load_lines_override lines env :
  fst (load_lines true lines env) = Ok tt -> forall k,
  lookup k (snd (load_lines true lines env)) =
  match find (fun d => String.eqb (fst d) k) (rev (line_defs lines)) with
  | Some d => Some (snd d)
  | None => lookup k env
  end.
Proof.
  revert env. induction lines as [|l lines IH]; intros env; cbn [load_lines line_defs flat_map].
  - intros _ k. reflexivity.
  - destruct (parse_env_line l) as [[key value]|]; [|exact (IH env)].
    cbn [app negb andb].
    destruct (setenv key value env) as [env'|e] eqn:Hs; [|discriminate].
    apply setenv_ok in Hs. subst env'. intros Hok k.
    rewrite (IH _ Hok k). fold (line_defs lines). cbn [rev]. rewrite find_app. cbn [find fst snd].
    destruct (find (fun d => String.eqb (fst d) k) (rev (line_defs lines))); [reflexivity|].
    rewrite lookup_kv_put, (String.eqb_sym key k).
    destruct (String.eqb k key); reflexivity.
Qed.

(** When load_env_file reads a file and returns normally: with override,
    each variable takes its last definition in the file, if any. Without
    override, a variable already set keeps its value and an unset one takes
    its first definition in the file. *)
Theorem load_env_file_values files path content override env env' :
  files path = Some (Ok content) ->
  load_env_file files path override env = (Ok tt, env') ->
  forall k, lookup k env' =
    if override
    then match find (fun d => String.eqb (fst d) k) (rev (env_defs content)) with
         | Some d => Some (snd d)
         | None => lookup k env
         end
    else match lookup k env with
         | Some v => Some v
         | None => option_map snd (find (fun d => String.eqb (fst d) k) (env_defs content))
         end.
Proof.
  intros Hf Hl k. unfold load_env_file in Hl. rewrite Hf in Hl.
  change (env_defs content) with (line_defs (splitlines content)).
  destruct override.
  - pose proof (load_lines_override (splitlines content) env) as H.
    rewrite Hl in H. exact (H eq_refl k).
  - pose proof (proj2 (load_lines_keep (splitlines content) env)) as H.
    rewrite Hl in H. exact (H eq_refl k).
Qed.

(** Without override, load_env_file never changes a variable that is already
    set, even when it raises part-way. *)
Theorem load_env_file_keeps_set files path env k v :
  lookup k env = Some v ->
  lookup k (snd (load_env_file files path false env)) = Some v.
Proof.
  intros H. unfold load_env_file.
  destruct (files path) as [[content|e]|]; [|exact H|exact H].
  exact (proj1 (load_lines_keep (splitlines content) env) k v H).
Qed.

Lemma setenv_ok_key key value env env' : setenv key value env = Ok env' -> key <> "".
Proof.
  unfold setenv. destruct (_ || _); [discriminate|].
  destruct (str_contains "=" key); [discriminate|].
  destruct (String.eqb key "") eqn:E; [discriminate|]. intros _. now apply String.eqb_neq.
Qed.

Lemma load_lines_empty_key override lines env v :
  In ("", v) (line_defs lines) -> lookup "" env = None ->
  exists e, fst (load_lines override lines env) = Raise e.
Proof.
  revert env. induction lines as [|l lines IH]; intros env; cbn [load_lines line_defs flat_map].
  - intros [].
  - destruct (parse_env_line l) as [[key value]|]; [|exact (IH env)].
    cbn [app]. intros Hin Hnone.
    destruct (String.eqb key "") eqn:Ek.
    + apply String.eqb_eq in Ek. subst key. rewrite Hnone, andb_false_r.
      destruct (setenv "" value env) as [env'|e] eqn:Hs.
      * apply setenv_ok_key in Hs. congruence.
      * exists e. reflexivity.
    + assert (Hin' : In ("", v) (line_defs lines)).
      { destruct Hin as [Heq|Hin]; [|exact Hin].
        injection Heq as Heq _. subst key. discriminate. }
      destruct (negb override && _); [exact (IH env Hin' Hnone)|].
      destruct (setenv key value env) as [env'|e] eqn:Hs; [|exists e; reflexivity].
      apply setenv_ok in Hs. subst env'. apply (IH _ Hin').
      rewrite lookup_kv_put, String.eqb_sym, Ek. exact Hnone.
Qed.

(** If the env file has a line defining the empty key (e.g. '=x'),
    get_settings raises on first use and leaves _SETTINGS unset. This is the
    OSError from os.environ[''] = value. *)
Theorem get_settings_empty_key_raises files st content v :
  _SETTINGS st = None ->
  files (getenv "MY_ENV_FILE" "my.env" (environ st)) = Some (Ok content) ->
  In ("", v) (env_defs content) ->
  lookup "" (environ st) = None ->
  exists e, fst (get_settings files st) = Raise e /\ _SETTINGS (snd (get_settings files st)) = None.
Proof.
  intros Hs Hf Hin Hnone. unfold get_settings. rewrite Hs.
  unfold load_env_file. rewrite Hf.
  destruct (load_lines_empty_key false (splitlines content) (environ st) v Hin Hnone) as [e He].
  destruct (load_lines false (splitlines content) (environ st)) as [r env1].
  cbn in He. subst r. exists e. split; reflexivity.
Qed.


(** After the env file is loaded, get_settings raises ValueError 'Missing
    required environment variable: NAME' for the first blank variable among
    OPENAI_API_KEY, OPENROUTER_API_KEY, PINECONE_API_KEY and PINECONE_INDEX,
    and caches nothing. *)
Theorem get_settings_missing files st env1 name :
  _SETTINGS st = None ->
  load_env_file files (getenv "MY_ENV_FILE" "my.env" (environ st)) false (environ st) = (Ok tt, env1) ->
  find (fun n => is_blank (getenv n "" env1)) required_names = Some name ->
  get_settings files st =
    (Raise (exc "ValueError" ("Missing required environment variable: " ++ name)), mkCfg None env1).
Proof.
  intros Hs Hl Hfind. unfold get_settings. rewrite Hs. cbv zeta. rewrite Hl.
  unfold required_names in Hfind. cbn [find] in Hfind.
  unfold _required_env. unfold is_blank in Hfind.
  destruct (String.eqb (py_strip (getenv "OPENAI_API_KEY" "" env1)) "");
    [injection Hfind as <-; reflexivity|].
  destruct (String.eqb (py_strip (getenv "OPENROUTER_API_KEY" "" env1)) "");
    [injection Hfind as <-; reflexivity|].
  destruct (String.eqb (py_strip (getenv "PINECONE_API_KEY" "" env1)) "");
    [injection Hfind as <-; reflexivity|].
  destruct (String.eqb (py_strip (getenv "PINECONE_INDEX" "" env1)) "");
    [injection Hfind as <-; reflexivity|discriminate].
Qed.


Lemma required_env_clean name env v :
  _required_env name env = Ok v -> v <> "" /\ py_strip v = v.
Proof.
  unfold _required_env. destruct (String.eqb (py_strip (getenv name "" env)) "") eqn:E;
    [discriminate|]. intros H; injection H as <-.
  split; [now apply String.eqb_neq|apply strip_by_idem].
Qed.

Lemma stripped_or_clean d s : d <> "" -> py_strip d = d ->
  stripped_or d s <> "" /\ py_strip (stripped_or d s) = stripped_or d s.
Proof.
  intros Hd Hs. unfold stripped_or.
  destruct (String.eqb (py_strip s) "") eqn:E; [auto|].
  split; [now apply String.eqb_neq|apply strip_by_idem].
Qed.

(** get_settings: a loaded configuration is clean and cached *)
Lemma get_settings_ok_spec files st s st' :
  _SETTINGS st = None ->
  get_settings files st = (Ok s, st') ->
  settings_clean s /\ _SETTINGS st' = Some s /\ get_settings files st' = (Ok s, st').
Proof.
  intros Hs. unfold get_settings at 1. rewrite Hs. cbv zeta.
  destruct (load_env_file _ _ _ _) as [[[]|e] env1]; [|discriminate].
  destruct (_required_env "OPENAI_API_KEY" env1) as [k1|] eqn:E1; [|discriminate].
  destruct (_required_env "OPENROUTER_API_KEY" env1) as [k2|] eqn:E2; [|discriminate].
  destruct (_required_env "PINECONE_API_KEY" env1) as [k3|] eqn:E3; [|discriminate].
  destruct (_required_env "PINECONE_INDEX" env1) as [k4|] eqn:E4; [|discriminate].
  intros H. injection H as <- <-.
  split; [|split; reflexivity].
  apply required_env_clean in E1, E2, E3, E4.
  split.
  - repeat constructor; cbn [openai_api_key openrouter_api_key pinecone_api_key pinecone_index
                            openrouter_base_url openrouter_model docling_tokenizer];
      try apply E1; try apply E2; try apply E3; try apply E4;
      try (apply stripped_or_clean; [discriminate|vm_compute; reflexivity]).
  - cbn [pinecone_host]. intros h.
    destruct (String.eqb (py_strip (getenv "PINECONE_HOST" "" env1)) "") eqn:E; [discriminate|].
    intros Hh; injection Hh as <-.
    split; [now apply String.eqb_neq|apply strip_by_idem].
Qed.

(** When get_settings succeeds, every string setting is non-empty and has no
    surrounding white space, as is pinecone_host when set. The settings are
    cached, and the next call returns them unchanged. *)
Theorem get_settings_ok files st s st' :
  _SETTINGS st = None ->
  get_settings files st = (Ok s, st') ->
  settings_clean s /\ _SETTINGS st' = Some s /\ get_settings files st' = (Ok s, st').
Proof. exact (get_settings_ok_spec files st s st'). Qed.

(** get_settings succeeds with clean settings from any state whose cache is
    empty or holds clean settings, and leaves such a state. *)
Lemma get_settings_cfg_ok files st s st' :
  cfg_ok st -> get_settings files st = (Ok s, st') -> settings_clean s /\ cfg_ok st'.
Proof.
  intros Hok Hg. destruct (_SETTINGS st) as [s0|] eqn:Hs.
  - unfold get_settings in Hg. rewrite Hs in Hg. injection Hg as <- <-.
    split; [exact (Hok s0 Hs)|exact Hok].
  - destruct (get_settings_ok_spec files st s st' Hs Hg) as (Hc & Hs' & _).
    split; [exact Hc|]. intros s1 H1. rewrite Hs' in H1. injection H1 as <-. exact Hc.
Qed.

(** get_pinecone_host returns the stripped PINECONE_HOST_<INDEX upper-cased>
    variable when it is non-blank. Otherwise it returns the PINECONE_HOST
    setting, and raises 'Missing Pinecone host...' when that is unset.  This
    holds on every call, the first one and those served from the cache,
    from any state whose cache is empty or filled by get_settings; such a
    state is left. *)
Theorem get_pinecone_host_resolution files idx st s st1 :
  cfg_ok st ->
  get_settings files st = (Ok s, st1) ->
  get_pinecone_host files idx st =
    (let env_key := "PINECONE_HOST_" ++ py_upper idx in
     let per_index := py_strip (getenv env_key "" (environ st1)) in
     if String.eqb per_index "" then
       match pinecone_host s with
       | Some h => Ok h
       | None => Raise (exc "ValueError" ("Missing Pinecone host. Set PINECONE_HOST or "
                                         ++ env_key ++ " for index '" ++ idx ++ "'."))
       end
     else Ok per_index, st1) /\
  cfg_ok st1.
Proof.
  intros Hok Hg. destruct (get_settings_cfg_ok files st s st1 Hok Hg) as [[_ Hh] Hok1].
  split; [|exact Hok1].
  unfold get_pinecone_host. rewrite Hg. cbv zeta.
  destruct (String.eqb (py_strip (getenv ("PINECONE_HOST_" ++ py_upper idx) "" (environ st1))) "")
    eqn:E.
  - destruct (pinecone_host s) as [h|] eqn:Eh; [|reflexivity].
    destruct (Hh h eq_refl) as [Hne _]. apply String.eqb_neq in Hne. rewrite Hne. reflexivity.
  - rewrite E. reflexivity.
Qed.



Lemma load_env_file_values_witness :
  env_files sample_env "my.env" = Some (Ok sample_env) /\
  load_env_file (env_files sample_env) "my.env" false [("PINECONE_INDEX", "docs")]
    = (Ok tt, snd (load_env_file (env_files sample_env) "my.env" false [("PINECONE_INDEX", "docs")])) /\
  lookup "OPENAI_API_KEY"
    (snd (load_env_file (env_files sample_env) "my.env" false [("PINECONE_INDEX", "docs")]))
  = match lookup "OPENAI_API_KEY" [("PINECONE_INDEX", "docs")] with
    | Some v => Some v
    | None => option_map snd (find (fun d => String.eqb (fst d) "OPENAI_API_KEY")
                                   (env_defs sample_env))
    end.
Proof.
  assert (H1 : env_files sample_env "my.env" = Some (Ok sample_env)) by reflexivity.
  assert (H2 : load_env_file (env_files sample_env) "my.env" false [("PINECONE_INDEX", "docs")]
    = (Ok tt, snd (load_env_file (env_files sample_env) "my.env" false [("PINECONE_INDEX", "docs")])))
    by (vm_compute; reflexivity).
  split; [exact H1|split; [exact H2|]].
  exact (load_env_file_values (env_files sample_env) "my.env" sample_env false
           [("PINECONE_INDEX", "docs")] _ H1 H2 "OPENAI_API_KEY").
Defined.

Lemma load_env_file_keeps_set_witness :
  lookup "PINECONE_INDEX" [("PINECONE_INDEX", "docs")] = Some "docs" /\
  lookup "PINECONE_INDEX"
    (snd (load_env_file (env_files sample_env) "my.env" false [("PINECONE_INDEX", "docs")]))
  = Some "docs".
Proof.
  assert (H : lookup "PINECONE_INDEX" [("PINECONE_INDEX", "docs")] = Some "docs") by reflexivity.
  split; [exact H|]. exact (load_env_file_keeps_set _ _ _ _ _ H).
Defined.

Lemma get_settings_empty_key_raises_witness :
  let content := "OPENAI_API_KEY=sk-1" ++ nl ++ "=oops" in
  _SETTINGS (mkCfg None []) = None /\
  env_files content (getenv "MY_ENV_FILE" "my.env" (environ (mkCfg None []))) = Some (Ok content) /\
  In ("", "oops") (env_defs content) /\
  lookup "" (environ (mkCfg None [])) = None /\
  exists e, fst (get_settings (env_files content) (mkCfg None [])) = Raise e /\
            _SETTINGS (snd (get_settings (env_files content) (mkCfg None []))) = None.
Proof.
  intros content.
  assert (H3 : In ("", "oops") (env_defs content)) by (vm_compute; auto).
  split; [reflexivity|split; [reflexivity|split; [exact H3|split; [reflexivity|]]]].
  exact (get_settings_empty_key_raises (env_files content) (mkCfg None []) content "oops"
           eq_refl eq_refl H3 eq_refl).
Defined.

Lemma get_settings_missing_witness :
  let content := "OPENAI_API_KEY=sk-1" ++ nl ++ "OPENROUTER_API_KEY=   " in
  let env1 := snd (load_env_file (env_files content) "my.env" false []) in
  load_env_file (env_files content) (getenv "MY_ENV_FILE" "my.env" []) false [] = (Ok tt, env1) /\
  find (fun n => is_blank (getenv n "" env1)) required_names = Some "OPENROUTER_API_KEY" /\
  get_settings (env_files content) (mkCfg None []) =
    (Raise (exc "ValueError" ("Missing required environment variable: " ++ "OPENROUTER_API_KEY")),
     mkCfg None env1).
Proof.
  intros content env1.
  assert (H1 : load_env_file (env_files content) (getenv "MY_ENV_FILE" "my.env" []) false []
               = (Ok tt, env1)) by (vm_compute; reflexivity).
  assert (H2 : find (fun n => is_blank (getenv n "" env1)) required_names
               = Some "OPENROUTER_API_KEY") by (vm_compute; reflexivity).
  split; [exact H1|split; [exact H2|]].
  exact (get_settings_missing (env_files content) (mkCfg None []) env1 _ eq_refl H1 H2).
Defined.

Lemma get_settings_ok_witness :
  let st' := snd (get_settings (env_files sample_env) (mkCfg None [])) in
  exists s, get_settings (env_files sample_env) (mkCfg None []) = (Ok s, st') /\
  settings_clean s /\ _SETTINGS st' = Some s /\ get_settings (env_files sample_env) st' = (Ok s, st').
Proof.
  intros st'. eexists.
  assert (H : get_settings (env_files sample_env) (mkCfg None []) = (Ok _, st'))
    by (vm_compute; reflexivity).
  split; [exact H|]. exact (get_settings_ok (env_files sample_env) (mkCfg None []) _ _ eq_refl H).
Defined.

Lemma get_pinecone_host_resolution_witness :
  let st0 := mkCfg None [("PINECONE_HOST_PORTFOLIO", " https://idx.example ")] in
  let st := snd (get_settings (env_files sample_env) st0) in
  cfg_ok st /\
  exists s, get_settings (env_files sample_env) st = (Ok s, st) /\
  get_pinecone_host (env_files sample_env) "portfolio" st =
    (let env_key := "PINECONE_HOST_" ++ py_upper "portfolio" in
     let per_index := py_strip (getenv env_key "" (environ st)) in
     if String.eqb per_index "" then
       match pinecone_host s with
       | Some h => Ok h
       | None => Raise (exc "ValueError" ("Missing Pinecone host. Set PINECONE_HOST or "
                                         ++ env_key ++ " for index '" ++ "portfolio" ++ "'."))
       end
     else Ok per_index, st) /\
  cfg_ok st.
Proof.
  intros st0 st.
  assert (Hok : cfg_ok st).
  { intros s0 Hs0. vm_compute in Hs0. injection Hs0 as <-.
    split; [repeat constructor; try discriminate; vm_compute; reflexivity|].
    intros h Hh. discriminate Hh. }
  split; [exact Hok|]. eexists.
  assert (H : get_settings (env_files sample_env) st = (Ok _, st)) by (vm_compute; reflexivity).
  split; [exact H|].
  exact (get_pinecone_host_resolution (env_files sample_env) "portfolio" st _ _ Hok H).
Defined.

End ConfigFacts.

Lemma remove_all_nomatch fuel o rest s :
  forallb (fun c => negb (Ascii.eqb c o)) (list_ascii_of_string s) = true ->
  remove_all_aux fuel (String o rest) s = s.
Proof.
  revert s. induction fuel as [|f IH]; intros s H; [reflexivity|].
  destruct s as [|c r]; [reflexivity|].
  cbn [list_ascii_of_string forallb] in H. apply andb_prop in H as [H1 H2].
  cbn [remove_all_aux]. cbn [String.prefix].
  destruct (ascii_dec o c) as [->|Hne]; [rewrite Ascii.eqb_refl in H1; discriminate|].
  rewrite (IH r H2). reflexivity.
Qed.

Lemma substring_all s n : String.length s <= n -> substring 0 n s = s.
Proof.
  revert n. induction s as [|c s IH]; intros n H.
  - destruct n; reflexivity.
  - destruct n as [|n]; cbn in H; [lia|]. cbn. rewrite IH by lia. reflexivity.
Qed.

Lemma remove_all_dash fuel s :
  String.length s <= fuel ->
  remove_all_aux fuel "-" s =
  string_of_list_ascii (filter (fun c => negb (Ascii.eqb c "-")) (list_ascii_of_string s)).
Proof.
  revert s. induction fuel as [|f IH]; intros s H.
  - destruct s; [reflexivity|cbn in H; lia].
  - destruct s as [|c r]; [reflexivity|]. cbn [String.length] in H.
    cbn [remove_all_aux list_ascii_of_string filter]. cbn [String.prefix].
    destruct (ascii_dec "-" c) as [<-|Hne].
    + cbn [String.prefix String.length substring]. rewrite substring_all by lia.
      rewrite IH by lia. destruct r; reflexivity.
    + replace (Ascii.eqb c "-") with false by (symmetry; apply Ascii.eqb_neq; congruence).
      cbn [negb]. rewrite IH by lia. reflexivity.
Qed.

Lemma hex_not (o : ascii) c : is_hex_digit o = false -> is_hex_digit c = true -> Ascii.eqb c o = false.
Proof.
  intros Ho Hc. destruct (Ascii.eqb c o) eqn:E; [|reflexivity].
  apply Ascii.eqb_eq in E. subst. congruence.
Qed.

Lemma forallb_hex_not (o : ascii) l :
  is_hex_digit o = false -> forallb is_hex_digit l = true ->
  forallb (fun c => negb (Ascii.eqb c o)) l = true.
Proof.
  intros Ho. apply forallb_impl. intros c Hc. now rewrite (hex_not o c Ho Hc).
Qed.

Lemma filter_all {A} (f : A -> bool) l : forallb f l = true -> filter f l = l.
Proof.
  induction l as [|x l IH]; cbn; [reflexivity|].
  intros H. apply andb_prop in H as [H1 H2]. rewrite H1, (IH H2). reflexivity.
Qed.

Lemma underscored_hex l : forallb is_hex_digit l = true -> underscored_digits l = true.
Proof.
  induction l as [|c l IH]; cbn; [reflexivity|].
  intros H. apply andb_prop in H as [H1 H2].
  destruct (Nat.eqb (nat_of_ascii c) 95) eqn:E.
  - apply Nat.eqb_eq in E. rewrite <- (ascii_nat_embedding c), E in H1. discriminate.
  - rewrite H1, (IH H2). reflexivity.
Qed.

Lemma int16_parses_hex l :
  forallb is_hex_digit l = true -> l <> [] -> int16_parses (string_of_list_ascii l) = true.
Proof.
  intros H Hne. unfold int16_parses.
  rewrite <- (string_of_list_ascii_of_string (string_of_list_ascii l)) at 1.
  rewrite list_ascii_of_string_of_list_ascii.
  assert (Hsp : forall c, is_hex_digit c = true -> is_c_space c = false).
  { intros c Hc. destruct (is_c_space c) eqn:E; [|reflexivity].
    destruct c as [[] [] [] [] [] [] [] []]; vm_compute in Hc, E; congruence. }
  rewrite strip_by_id.
  2: { intros c r E. subst l. cbn in H. apply andb_prop in H as [H _]. exact (Hsp c H). }
  2: { intros c r E. assert (In c l) by (apply in_rev; rewrite E; left; reflexivity).
       rewrite forallb_forall in H. exact (Hsp c (H c H0)). }
  rewrite list_ascii_of_string_of_list_ascii.
  destruct l as [|z r]; [congruence|]. cbn in H. apply andb_prop in H as [Hz Hr].
  assert (Hzs : Nat.eqb (nat_of_ascii z) 43 || Nat.eqb (nat_of_ascii z) 45 = false).
  { destruct z as [[] [] [] [] [] [] [] []]; vm_compute in Hz; vm_compute; congruence. }
  rewrite Hzs.
  destruct r as [|x rest]; [exact Hz|].
  cbn in Hr. apply andb_prop in Hr as [Hx Hrest].
  assert (Hxx : Nat.eqb (nat_of_ascii x) 120 || Nat.eqb (nat_of_ascii x) 88 = false).
  { destruct x as [[] [] [] [] [] [] [] []]; vm_compute in Hx; vm_compute; congruence. }
  rewrite Hxx, andb_false_r, Hz. cbn [andb]. apply underscored_hex. cbn. rewrite Hx, Hrest. reflexivity.
Qed.

Lemma strip_by_none (p : ascii -> bool) s :
  forallb (fun c => negb (p c)) (list_ascii_of_string s) = true -> strip_by p s = s.
Proof.
  intros H. rewrite <- (string_of_list_ascii_of_string s). apply strip_by_id.
  - intros c r E. rewrite E in H. cbn in H. apply andb_prop in H as [H _].
    now apply negb_true_iff in H.
  - intros c r E. assert (Hin : In c (list_ascii_of_string s)) by (apply in_rev; rewrite E; left; reflexivity).
    rewrite forallb_forall in H. apply H in Hin. now apply negb_true_iff in Hin.
Qed.


Lemma hex_or_dash_not_brace c : hex_or_dash c = true -> negb (is_brace c) = true.
Proof. destruct c as [[] [] [] [] [] [] [] []]; vm_compute; congruence. Qed.

Lemma hex_or_dash_not_u c : hex_or_dash c = true -> negb (Ascii.eqb c "u") = true.
Proof. destruct c as [[] [] [] [] [] [] [] []]; vm_compute; congruence. Qed.

Lemma hex_not_dash c : is_hex_digit c = true -> negb (Ascii.eqb c "-") = true.
Proof. destruct c as [[] [] [] [] [] [] [] []]; vm_compute; congruence. Qed.

Lemma hex_is_hex_or_dash c : is_hex_digit c = true -> hex_or_dash c = true.
Proof. unfold hex_or_dash. intros ->. reflexivity. Qed.


(** validate_job_id accepts every id in the canonical 8-4-4-4-12 hexadecimal
    form that str(uuid.uuid4()) produces. *)
Theorem validate_job_id_canonical a b c d e :
  hex_field 8 a -> hex_field 4 b -> hex_field 4 c -> hex_field 4 d -> hex_field 12 e ->
  validate_job_id (a ++ "-" ++ b ++ "-" ++ c ++ "-" ++ d ++ "-" ++ e) = Ok tt.
Proof.
  intros [La Ha] [Lb Hb] [Lc Hc] [Ld Hd] [Le He].
  set (s := a ++ "-" ++ b ++ "-" ++ c ++ "-" ++ d ++ "-" ++ e).
  set (L := app (list_ascii_of_string a) (app (list_ascii_of_string b)
              (app (list_ascii_of_string c) (app (list_ascii_of_string d) (list_ascii_of_string e))))).
  assert (HL : forallb is_hex_digit L = true)
    by (unfold L; rewrite !forallb_app, Ha, Hb, Hc, Hd, He; reflexivity).
  assert (Hs : list_ascii_of_string s = app (list_ascii_of_string a) ("-"%char ::
      app (list_ascii_of_string b) ("-"%char :: app (list_ascii_of_string c) ("-"%char ::
      app (list_ascii_of_string d) ("-"%char :: list_ascii_of_string e))))).
  { unfold s. rewrite !list_ascii_app. reflexivity. }
  assert (Hhd : forallb hex_or_dash (list_ascii_of_string s) = true).
  { rewrite Hs. repeat (rewrite forallb_app; cbn [forallb]).
    rewrite !(forallb_impl is_hex_digit hex_or_dash _ hex_is_hex_or_dash) by assumption.
    reflexivity. }
  assert (Hfl : filter (fun c => negb (Ascii.eqb c "-")) (list_ascii_of_string s) = L).
  { rewrite Hs. repeat (rewrite filter_app; cbn [filter]).
    replace (negb (Ascii.eqb "-" "-")) with false by reflexivity.
    rewrite !filter_all by (apply (forallb_impl is_hex_digit); [exact hex_not_dash|assumption]).
    reflexivity. }
  unfold validate_job_id, uuid_parses, remove_all.
  rewrite (remove_all_nomatch _ "u" "rn:" s)
    by exact (forallb_impl _ _ _ hex_or_dash_not_u Hhd).
  rewrite (remove_all_nomatch _ "u" "uid:" s)
    by exact (forallb_impl _ _ _ hex_or_dash_not_u Hhd).
  rewrite strip_by_none by exact (forallb_impl _ _ _ hex_or_dash_not_brace Hhd).
  rewrite remove_all_dash, Hfl by lia.
  assert (Hne : L <> []).
  { unfold L. destruct a as [|ca ra]; [cbn in La; discriminate|]. discriminate. }
  rewrite string_of_list_length, (int16_parses_hex L HL Hne).
  unfold L. rewrite !length_app, !list_ascii_length, La, Lb, Lc, Ld, Le. reflexivity.
Qed.

Lemma validate_job_id_canonical_witness :
  hex_field 8 "3f2b9c1e" /\ hex_field 4 "7a4d" /\ hex_field 4 "4c2b" /\ hex_field 4 "9e01" /\
  hex_field 12 "b5d6a7c8e9f0" /\
  validate_job_id ("3f2b9c1e" ++ "-" ++ "7a4d" ++ "-" ++ "4c2b" ++ "-" ++ "9e01" ++ "-" ++ "b5d6a7c8e9f0")
  = Ok tt.
Proof.
  assert (H1 : hex_field 8 "3f2b9c1e") by (split; reflexivity).
  assert (H2 : hex_field 4 "7a4d") by (split; reflexivity).
  assert (H3 : hex_field 4 "4c2b") by (split; reflexivity).
  assert (H4 : hex_field 4 "9e01") by (split; reflexivity).
  assert (H5 : hex_field 12 "b5d6a7c8e9f0") by (split; reflexivity).
  repeat (split; [assumption|]).
  exact (validate_job_id_canonical _ _ _ _ _ H1 H2 H3 H4 H5).
Defined.






Lemma embed_attempt_world env texts a w :
  snd (embed_texts_attempt env texts a w) = w.
Proof.
  unfold embed_texts_attempt. destruct texts; [reflexivity|].
  destruct (existsb is_blank _); [reflexivity|].
  destruct (embeddings_create env a _); reflexivity.
Qed.

Lemma wait_jitter_bounds env a :
  1 <= a -> 5000 <= wait_exponential_jitter env 5000 120000 5000 a <= 120000.
Proof.
  intros Ha. unfold wait_exponential_jitter.
  assert (Hp : 1 <= 2 ^ (a - 1)) by (apply Nat.le_succ_l, Nat.neq_0_lt_0, Nat.pow_nonzero; lia).
  split; [|apply Nat.le_min_r].
  apply Nat.min_glb; [|apply Nat.leb_le; reflexivity].
  eapply Nat.le_trans; [|apply Nat.le_add_r].
  rewrite <- (Nat.mul_1_r 5000) at 1. apply Nat.mul_le_mono_l. exact Hp.
Qed.

Lemma retrying_always_raise (retryable : PyExc -> bool) (wait_ms : nat -> nat) {A}
  (body : nat -> M A) e
  (He : retryable e = true) (Hb : forall a w, body a w = (Raise e, w)) :
  forall rem a w,
  retrying retryable wait_ms body a rem w =
  (Raise e, {| JOB_STORE := JOB_STORE w; last_call_used_fallback := last_call_used_fallback w;
               router_client := router_client w; staged_uploads := staged_uploads w;
               pinecone := pinecone w; status_log := status_log w;
               sleep_log := app (sleep_log w) (map wait_ms (seq a rem)) |}).
Proof.
  induction rem as [|r IH]; intros a w.
  - rewrite retrying_unfold0, Hb. destruct w; cbn. rewrite app_nil_r. reflexivity.
  - rewrite retrying_unfold, Hb, He, IH. destruct w; cbn. rewrite <- app_assoc. reflexivity.
Qed.

Lemma batches_aux_length {A} n fuel (l : list A) :
  0 < n -> length l <= fuel -> length (batches_aux fuel n l) = (length l + n - 1) / n.
Proof.
  intros Hn. revert l; induction fuel as [|f IH]; intros l Hl.
  - destruct l; cbn in *; [|lia]. rewrite Nat.div_small; lia.
  - destruct l as [|x r].
    + cbn. rewrite Nat.div_small; lia.
    + cbn [batches_aux length]. rewrite IH by (rewrite length_skipn; cbn [length] in *; lia).
      rewrite length_skipn. cbn [length].
      destruct (Nat.le_gt_cases n (S (length r))) as [Hle|Hgt].
      * replace (S (length r) + n - 1) with (1 * n + (S (length r) - n + n - 1)) by lia.
        rewrite Nat.div_add_l by lia. reflexivity.
      * replace (S (length r) - n) with 0 by lia.
        replace (S (length r) + n - 1) with (1 * n + length r) by lia.
        rewrite Nat.div_add_l by lia. rewrite (Nat.div_small (0 + n - 1)), Nat.div_small; lia.
Qed.

Lemma batches_length {A} n (l : list A) :
  0 < n -> length (batches n l) = (length l + n - 1) / n.
Proof. intros Hn. apply batches_aux_length; auto. Qed.

Lemma embed_texts_ok_world env b w :
  (forall a, exists vs, embeddings_create env a b = EmbOk vs) ->
  existsb is_blank b = false ->
  exists vs, embed_texts env b w = (Ok vs, w).
Proof.
  intros Hapi Hb. unfold embed_texts. cbn [retrying]. unfold catch, embed_texts_attempt.
  destruct b as [|t r]; [exists []; reflexivity|].
  rewrite Hb. destruct (Hapi 1) as (vs & Hvs). rewrite Hvs. exists vs. reflexivity.
Qed.

Lemma embed_batches_sleeps env bs n m w :
  (forall a b, exists vs, embeddings_create env a b = EmbOk vs) ->
  Forall (fun b => existsb is_blank b = false) bs ->
  bs <> [] -> n + length bs = S m ->
  exists vs w', embed_batches env bs n m w = (Ok vs, w') /\
    sleep_log w' = app (sleep_log w) (repeat INTER_BATCH_DELAY_MS (length bs - 1)).
Proof.
  intros Hapi. revert n w; induction bs as [|b bs IH]; intros n w Hall Hne Hlen; [congruence|].
  inversion Hall as [|? ? Hb Hrest]; subst.
  destruct (embed_texts_ok_world env b w (fun a => Hapi a b) Hb) as (vs & E).
  cbn [embed_batches]. unfold bind at 1. rewrite E.
  destruct bs as [|b' bs'].
  - cbn [length] in Hlen. replace (Nat.ltb n m) with false by (symmetry; apply Nat.ltb_ge; lia).
    exists (app vs []), w. cbn. split; [reflexivity|]. rewrite app_nil_r. reflexivity.
  - cbn [length] in Hlen. replace (Nat.ltb n m) with true by (symmetry; apply Nat.ltb_lt; lia).
    destruct (IH (S n) (snd (sleep INTER_BATCH_DELAY_MS w)) Hrest ltac:(discriminate)
                 ltac:(cbn [length]; lia)) as (vs' & w' & E' & Hs).
    exists (app vs vs'), w'. unfold bind.
    change (sleep INTER_BATCH_DELAY_MS w) with (Ok tt, snd (sleep INTER_BATCH_DELAY_MS w)).
    cbv iota beta. rewrite E'.
    split; [reflexivity|]. rewrite Hs. unfold sleep, modify. cbn [sleep_log snd].
    cbn [length]. replace (S (length bs') - 1) with (length bs') by lia.
    rewrite <- app_assoc. reflexivity.
Qed.

(** One call of embed_texts sleeps at most 9 times, because tenacity stops
    after 10 attempts. Each sleep lasts between 5 and 120 seconds. *)
Theorem embed_texts_sleep_bounds env texts w :
  exists sl, sleep_log (snd (embed_texts env texts w)) = app (sleep_log w) sl /\
             length sl <= 9 /\ Forall (fun d => 5000 <= d <= 120000) sl.
Proof.
  destruct (retrying_sleeps is_rate_limit (wait_exponential_jitter env 5000 120000 5000)
              (embed_texts_attempt env texts)
              (fun a w => f_equal sleep_log (embed_attempt_world env texts a w)) 9 1 w)
    as (sl & H1 & H2 & H3 & _).
  exists sl. split; [exact H1|]. split; [exact H2|].
  rewrite H3. apply Forall_forall. intros d Hd. apply in_map_iff in Hd as (a & <- & Ha).
  apply in_seq in Ha. apply wait_jitter_bounds. lia.
Qed.

(** If the embeddings API always answers with RateLimitError, embed_texts
    makes 10 attempts. It sleeps wait_exponential_jitter(5, 120, 5) after
    attempts 1 to 9, then re-raises the RateLimitError. *)
Theorem embed_texts_rate_limited env texts w :
  texts <> [] -> existsb is_blank texts = false ->
  (forall a, embeddings_create env a texts = EmbRateLimited) ->
  fst (embed_texts env texts w) = Raise (exc "RateLimitError" "Rate limit reached") /\
  sleep_log (snd (embed_texts env texts w)) =
  app (sleep_log w) (map (wait_exponential_jitter env 5000 120000 5000) (seq 1 9)).
Proof.
  intros Hne Hb Hrl. unfold embed_texts.
  rewrite (retrying_always_raise _ _ _ (exc "RateLimitError" "Rate limit reached")).
  - split; reflexivity.
  - reflexivity.
  - intros a w'. unfold embed_texts_attempt. destruct texts as [|t r]; [congruence|].
    rewrite Hb, Hrl. reflexivity.
Qed.

Lemma embed_texts_rate_limited_witness :
  fst (embed_texts (env_embeddings EmbRateLimited) ["hello"] Scenario.empty_world) =
    Raise (exc "RateLimitError" "Rate limit reached") /\
  sleep_log (snd (embed_texts (env_embeddings EmbRateLimited) ["hello"] Scenario.empty_world)) =
    map (wait_exponential_jitter (env_embeddings EmbRateLimited) 5000 120000 5000) (seq 1 9).
Proof.
  exact (embed_texts_rate_limited (env_embeddings EmbRateLimited) ["hello"] Scenario.empty_world
           ltac:(discriminate) eq_refl (fun a => eq_refl)).
Defined.

(** An embeddings API error other than RateLimitError on the first attempt
    is raised at once by embed_texts, with no retry and no sleep. *)
Theorem embed_texts_other_error env texts e w :
  texts <> [] -> existsb is_blank texts = false ->
  embeddings_create env 1 texts = EmbError e -> exc_kind e <> "RateLimitError" ->
  embed_texts env texts w = (Raise e, w).
Proof.
  intros Hne Hb He Hk. unfold embed_texts. rewrite retrying_unfold.
  unfold embed_texts_attempt. destruct texts as [|t r]; [congruence|].
  rewrite Hb, He. cbn [raise]. unfold is_rate_limit.
  destruct (String.eqb_spec (exc_kind e) "RateLimitError"); [congruence|reflexivity].
Qed.

Lemma embed_texts_other_error_witness :
  embed_texts (env_embeddings (EmbError (exc "AuthenticationError" "Incorrect API key provided")))
              ["hello"] Scenario.empty_world =
  (Raise (exc "AuthenticationError" "Incorrect API key provided"), Scenario.empty_world).
Proof.
  apply embed_texts_other_error; [discriminate|reflexivity|reflexivity|discriminate].
Defined.

(** When every embeddings call succeeds and no text is blank,
    embed_texts_batched sleeps INTER_BATCH_DELAY (1 s) exactly between
    consecutive batches. That is ceil(len(texts) / 20) - 1 times, and never
    after the last batch. *)
Theorem embed_texts_batched_sleeps env texts w :
  (forall a b, exists vs, embeddings_create env a b = EmbOk vs) ->
  existsb is_blank texts = false ->
  exists vs w', embed_texts_batched env texts w = (Ok vs, w') /\
    sleep_log w' = app (sleep_log w)
                       (repeat INTER_BATCH_DELAY_MS ((length texts + 19) / 20 - 1)).
Proof.
  intros Hapi Hb. destruct texts as [|t r].
  - exists [], w. split; [reflexivity|]. cbn. rewrite app_nil_r. reflexivity.
  - unfold embed_texts_batched.
    assert (Hc : concat (batches EMBEDDING_BATCH_SIZE (t :: r)) = t :: r)
      by (apply concat_batches; unfold EMBEDDING_BATCH_SIZE; lia).
    assert (Hall : Forall (fun b => existsb is_blank b = false)
                          (batches EMBEDDING_BATCH_SIZE (t :: r)))
      by (apply existsb_concat_false; rewrite Hc; exact Hb).
    assert (Hl : length (batches EMBEDDING_BATCH_SIZE (t :: r)) =
                 (length (t :: r) + EMBEDDING_BATCH_SIZE - 1) / EMBEDDING_BATCH_SIZE)
      by (apply batches_length; unfold EMBEDDING_BATCH_SIZE; lia).
    destruct (embed_batches_sleeps env (batches EMBEDDING_BATCH_SIZE (t :: r)) 1
                ((length (t :: r) + EMBEDDING_BATCH_SIZE - 1) / EMBEDDING_BATCH_SIZE) w
                Hapi Hall) as (vs & w' & E & Hs).
    + intros Hnil. apply (f_equal (@concat string)) in Hnil. rewrite Hc in Hnil. discriminate.
    + rewrite Hl. reflexivity.
    + exists vs, w'. split; [exact E|]. rewrite Hs, Hl.
      replace (length (t :: r) + 19) with (length (t :: r) + EMBEDDING_BATCH_SIZE - 1)
        by (unfold EMBEDDING_BATCH_SIZE; lia).
      reflexivity.
Qed.

Lemma embed_texts_batched_sleeps_witness :
  exists vs w', embed_texts_batched (Scenario.env_ok []) (repeat "x" 41) Scenario.empty_world
                = (Ok vs, w') /\ sleep_log w' = [1000; 1000].
Proof.
  destruct (embed_texts_batched_sleeps (Scenario.env_ok []) (repeat "x" 41) Scenario.empty_world
              (fun a b => ex_intro _ _ eq_refl) eq_refl) as (vs & w' & E & Hs).
  exists vs, w'. split; [exact E|]. rewrite Hs. reflexivity.
Defined.

Lemma add_opt_app {A} (o : option (list A)) l1 l2 :
  add_opt (add_opt o l1) l2 = add_opt o (app l1 l2).
Proof.
  destruct l1 as [|x l1]; [reflexivity|]. destruct l2 as [|y l2].
  - rewrite app_nil_r. reflexivity.
  - cbn. rewrite <- app_assoc. reflexivity.
Qed.

Lemma group_insert_lookup ns v g k :
  lookup k (group_insert ns v g) = add_opt (lookup k g) (if String.eqb k ns then [v] else []).
Proof.
  induction g as [|[k0 vs0] r IH]; cbn [group_insert lookup].
  - destruct (String.eqb k ns); reflexivity.
  - destruct (String.eqb_spec k0 ns) as [->|Hne]; cbn [lookup].
    + destruct (String.eqb k ns); reflexivity.
    + rewrite IH. destruct (String.eqb_spec k k0) as [->|Hk]; [|reflexivity].
      destruct (String.eqb_spec k0 ns); [congruence|reflexivity].
Qed.

Lemma group_insert_keys ns v g :
  map fst (group_insert ns v g) =
  if existsb (String.eqb ns) (map fst g) then map fst g else app (map fst g) [ns].
Proof.
  induction g as [|[k0 vs0] r IH]; cbn [group_insert map existsb fst]; [reflexivity|].
  rewrite (String.eqb_sym ns k0). destruct (String.eqb k0 ns); [reflexivity|].
  cbn [map fst orb]. rewrite IH. destruct (existsb _ _); reflexivity.
Qed.

Lemma first_occurrences_nodup l acc :
  NoDup acc ->
  NoDup (fold_left (fun acc x => if existsb (String.eqb x) acc then acc else app acc [x]) l acc).
Proof.
  revert acc; induction l as [|x l IH]; intros acc Hacc; [exact Hacc|].
  cbn [fold_left]. apply IH. destruct (existsb (String.eqb x) acc) eqn:E; [exact Hacc|].
  apply NoDup_app; [exact Hacc|constructor; [intros []|constructor]|].
  intros y Hy [<-|[]]. assert (existsb (String.eqb x) acc = true)
    by (apply existsb_exists; exists x; split; [exact Hy|apply String.eqb_refl]).
  congruence.
Qed.

Lemma vectors_fold_lookup env su ct (L : list (ParsedChunk * Embedding * string)) g k :
  lookup k (fold_left (fun g '(c, e, ns) => group_insert ns (build_vector env su ct c e) g) L g) =
  add_opt (lookup k g) (map (fun '(c, e, _) => build_vector env su ct c e)
                            (filter (fun '(_, _, n) => String.eqb n k) L)).
Proof.
  revert g; induction L as [|[[c e] n] L IH]; intros g; [reflexivity|].
  cbn [fold_left]. rewrite IH, group_insert_lookup, add_opt_app. f_equal.
  cbn [filter]. rewrite (String.eqb_sym k n). destruct (String.eqb n k); reflexivity.
Qed.

Lemma vectors_fold_keys env su ct (L : list (ParsedChunk * Embedding * string)) g :
  map fst (fold_left (fun g '(c, e, ns) => group_insert ns (build_vector env su ct c e) g) L g) =
  fold_left (fun acc x => if existsb (String.eqb x) acc then acc else app acc [x])
            (map (fun '(_, _, n) => n) L) (map fst g).
Proof.
  revert g; induction L as [|[[c e] n] L IH]; intros g; [reflexivity|].
  cbn [fold_left map]. rewrite IH, group_insert_keys. reflexivity.
Qed.

(** The vectors_by_namespace dict built by process_job has each namespace
    once, in order of first use. Each group holds exactly the vectors of the
    chunks routed to that namespace, in chunk order. A namespace no chunk is
    routed to has no group. *)
Theorem vectors_by_namespace_groups env su ct chunks embs nss :
  let G := vectors_by_namespace env su ct chunks embs nss in
  map fst G = first_occurrences (map (fun '(_, _, n) => n) (zip3 chunks embs nss)) /\
  NoDup (map fst G) /\
  forall ns, lookup ns G = match routed_to env su ct ns chunks embs nss with
                           | [] => None
                           | vs => Some vs
                           end.
Proof.
  cbv zeta. unfold vectors_by_namespace.
  assert (Hk : map fst (fold_left (fun g '(c, e, ns) =>
                 group_insert ns (build_vector env su ct c e) g) (zip3 chunks embs nss) []) =
               first_occurrences (map (fun '(_, _, n) => n) (zip3 chunks embs nss)))
    by (rewrite vectors_fold_keys; reflexivity).
  split; [exact Hk|]. split.
  - rewrite Hk. apply first_occurrences_nodup. constructor.
  - intros ns. rewrite vectors_fold_lookup. unfold routed_to.
    destruct (map _ (filter _ _)); reflexivity.
Qed.

Lemma substring_0_idem n s : substring 0 n (substring 0 n s) = substring 0 n s.
Proof.
  revert s; induction n as [|n IH]; intros [|c s]; try reflexivity.
  cbn [substring]. rewrite IH. reflexivity.
Qed.

Lemma prompt_prefix_only text1 text2 hs :
  substring 0 2000 text1 = substring 0 2000 text2 ->
  _build_classification_prompt text1 hs = _build_classification_prompt text2 hs.
Proof. intros H. unfold _build_classification_prompt. rewrite H. reflexivity. Qed.

(** Only the first 2000 characters of the text reach the LLM prompt. Two
    texts with the same first 2000 characters and the same blankness get the
    same classification result and the same final state. *)
Theorem call_llm_reads_2000_chars env text1 text2 hs w :
  substring 0 2000 text1 = substring 0 2000 text2 ->
  is_blank text1 = is_blank text2 ->
  _call_llm_for_classification env text1 hs w = _call_llm_for_classification env text2 hs w.
Proof.
  intros Hp Hb. unfold _call_llm_for_classification.
  rewrite Hb, (prompt_prefix_only text1 text2 hs Hp). reflexivity.
Qed.

Lemma running_exists l : 1 <= length (filter Gate.is_running l) ->
  exists j, nth_error l j = Some Gate.Running.
Proof.
  intros H. destruct (filter Gate.is_running l) as [|p r] eqn:E; [cbn in H; lia|].
  assert (Hp : In p (filter Gate.is_running l)) by (rewrite E; left; reflexivity).
  apply filter_In in Hp as [Hin Hr]. destruct p; try discriminate.
  apply In_nth_error in Hin as [j Hj]. exists j. exact Hj.
Qed.

(** In every reachable state of jobs scheduled through
    process_job_with_limit, a waiting job either sees another job running,
    or can acquire the semaphore at once. *)
Theorem gate_no_deadlock s i :
  Gate.reachable s -> nth_error (Gate.jobs s) i = Some Gate.Waiting ->
  (exists j, nth_error (Gate.jobs s) j = Some Gate.Running) \/
  Gate.step s (Gate.mkSt 0 (Gate.set_nth (Gate.jobs s) i Gate.Running)).
Proof.
  intros Hr Hi. pose proof (gate_invariant s Hr) as Hinv. unfold Gate.running_count in Hinv.
  destruct (length (filter Gate.is_running (Gate.jobs s))) as [|k] eqn:E.
  - right. replace 0 with (Gate.sem s - 1) by lia.
    apply Gate.step_acquire; [lia|exact Hi].
  - left. apply running_exists. lia.
Qed.


Lemma call_llm_reads_2000_chars_witness :
  _call_llm_for_classification (Scenario.env_ok []) (long_text "x") [] Scenario.empty_world =
  _call_llm_for_classification (Scenario.env_ok []) (long_text "y") [] Scenario.empty_world.
Proof.
  apply call_llm_reads_2000_chars; vm_compute; reflexivity.
Defined.

Lemma gate_no_deadlock_witness :
  (exists j, nth_error [Gate.Waiting] j = Some Gate.Running) \/
  Gate.step (Gate.mkSt 1 [Gate.Waiting]) (Gate.mkSt 0 [Gate.Running]).
Proof.
  apply (gate_no_deadlock (Gate.mkSt 1 [Gate.Waiting]) 0); [|reflexivity].
  change (Gate.mkSt 1 [Gate.Waiting]) with
    (Gate.mkSt (Gate.sem Gate.init) (app (Gate.jobs Gate.init) [Gate.Waiting])).
  eapply Gate.reach_step; [apply Gate.reach_init|apply Gate.step_schedule].
Defined.

Lemma call_llm_clean_answer_witness :
  fst (_call_llm_for_classification (env_llm_answer chatty_answer) "My side projects" []
         Scenario.empty_world) = Ok PROJECTS /\
  last_call_used_fallback (snd (_call_llm_for_classification (env_llm_answer chatty_answer)
         "My side projects" [] Scenario.empty_world)) = false.
Proof.
  apply (call_llm_clean_answer (env_llm_answer chatty_answer) "My side projects" []
           Scenario.empty_world chatty_answer PROJECTS "`" "`."
           (nl ++ "because the text lists side projects."));
    try reflexivity.
  - left; reflexivity.
  - right; reflexivity.
  - right. eexists _, _. split; reflexivity.
Defined.
